(** * junos_push: a shallow embedding of the configuration push engine

    The development follows the Python sources:
    - [Str]        the [str] builtins the sources call (strip, split, join, ...);
    - [Validators] [validators.py], class [ConfigValidator];
    - [Utils]      [utils.py], the connection test, the backups,
                   [ProgressTracker] and [ConfigDiffer];
    - [Core]       [core.py], class [JunosPushTool];
    - [Cli]        [cli.py], [main].

    A Python [str] is modelled by [string]: a character is a code point
    below 256. Exceptions are values of [result]; the calls made to a
    device session and the comparison shown are recorded in explicit
    logs.

    The other console output is left out of the definitions: they give
    what the code does when its prints return. The sources print through
    rich markup, which raises [MarkupError] on a closing tag that no tag
    opens; a statement that needs a print to return therefore assumes
    that the text it shows is [plain]. *)

From Stdlib Require Import Ascii String List Bool Arith Lia QArith.
From stdpp Require Import base option list strings pretty gmap.

Local Open Scope string_scope.
Local Open Scope list_scope.
Local Open Scope nat_scope.

#[local] Set Warnings "-clear-no-such-hyp".

(** ** The [str] builtins *)

Module Str.

Definition nl : ascii := "010"%char.
Definition hash : ascii := "#"%char.

(** [str.isspace] on one character: TAB..CR, FS..US, SPACE, NEL and NBSP
    are the white space code points below 256. *)
Definition isspace (c : ascii) : bool :=
  let n := nat_of_ascii c in
  ((9 <=? n) && (n <=? 13)) || ((28 <=? n) && (n <=? 32))
  || (n =? 133) || (n =? 160).

(** [str.lower] on one character: A..Z and the Latin-1 capitals. *)
Definition chr_lower (c : ascii) : ascii :=
  let n := nat_of_ascii c in
  if ((65 <=? n) && (n <=? 90))
     || ((192 <=? n) && (n <=? 222) && negb (n =? 215))
  then ascii_of_nat (n + 32) else c.

Fixpoint lower (s : string) : string :=
  match s with
  | EmptyString => EmptyString
  | String c r => String (chr_lower c) (lower r)
  end.

Fixpoint lstrip (s : string) : string :=
  match s with
  | EmptyString => EmptyString
  | String c r => if isspace c then lstrip r else s
  end.

Fixpoint rstrip (s : string) : string :=
  match s with
  | EmptyString => EmptyString
  | String c r =>
      match rstrip r with
      | EmptyString => if isspace c then EmptyString else String c EmptyString
      | r' => String c r'
      end
  end.

(** [s.strip()] *)
Definition strip (s : string) : string := lstrip (rstrip s).

(** [s.split()]: the maximal runs of characters that are not white space. *)
Fixpoint split_ws (s : string) : list string :=
  match s with
  | EmptyString => []
  | String c r =>
      if isspace c then split_ws r
      else match r with
           | EmptyString => [String c ""]
           | String c' _ =>
               if isspace c' then String c "" :: split_ws r
               else match split_ws r with
                    | w :: ws => String c w :: ws
                    | [] => [String c ""]
                    end
           end
  end.

(** [s.split(sep)] for a separator of one character: never empty. *)
Fixpoint split_on (sep : ascii) (s : string) : list string :=
  match s with
  | EmptyString => [""]
  | String c r =>
      if Ascii.eqb c sep then "" :: split_on sep r
      else match split_on sep r with
           | w :: ws => String c w :: ws
           | [] => [String c ""]
           end
  end.

(** [sep.join(l)] *)
Definition join (sep : string) (l : list string) : string := String.concat sep l.

(** [c in s] for one character. *)
Fixpoint mem (c : ascii) (s : string) : bool :=
  match s with
  | EmptyString => false
  | String d r => Ascii.eqb d c || mem c r
  end.

(** [s.count(c)] for one character. *)
Fixpoint count (c : ascii) (s : string) : nat :=
  match s with
  | EmptyString => 0
  | String d r => (if Ascii.eqb d c then 1 else 0) + count c r
  end.

(** [s.startswith(p)] *)
Definition startswith (p s : string) : bool := String.prefix p s.

(** [p in s] for a substring. *)
Fixpoint contains (p s : string) : bool :=
  String.prefix p s
  || match s with
     | EmptyString => false
     | String _ r => contains p r
     end.

(** [s.endswith(c)] for one character. *)
Fixpoint endswith_chr (c : ascii) (s : string) : bool :=
  match s with
  | EmptyString => false
  | String d EmptyString => Ascii.eqb d c
  | String _ r => endswith_chr c r
  end.

(** [s[n:]] *)
Fixpoint drop (n : nat) (s : string) : string :=
  match n, s with
  | S n', String _ r => drop n' r
  | _, _ => s
  end.

(** Python's truth value of a string: [not s] holds for the empty one. *)
Definition nonempty (s : string) : bool := negb (String.eqb s "").

(** [s.splitlines()]: the line boundaries among the code points below 256
    are LF, CR, CR LF, VT, FF, FS, GS, RS and NEL; no empty last line. *)
Definition is_linebreak (c : ascii) : bool :=
  let n := nat_of_ascii c in
  ((10 <=? n) && (n <=? 13)) || ((28 <=? n) && (n <=? 30)) || (n =? 133).

Fixpoint splitlines (s : string) : list string :=
  match s with
  | EmptyString => []
  | String c r =>
      if is_linebreak c then
        match c, r with
        | "013"%char, String "010"%char r' => "" :: splitlines r'
        | _, _ => "" :: splitlines r
        end
      else match r with
           | EmptyString => [String c ""]
           | String c' _ =>
               if is_linebreak c' then
                 match splitlines r with
                 | _ :: ls => String c "" :: ls
                 | [] => [String c ""]
                 end
               else match splitlines r with
                    | w :: ls => String c w :: ls
                    | [] => [String c ""]
                    end
           end
  end.

End Str.

(** ** Exceptions

    A call that can raise returns a [result]. [ValueError] and
    [RuntimeError] are raised by the sources themselves; [JunosError]
    stands for the four PyEZ classes that [_push_config_to_device]
    catches first (ConnectError, LockError, CommitError, RpcError) and
    [OtherError] for any other exception of a collaborator; both carry
    [str(e)]. *)

Inductive exn : Type :=
| ValueError (msg : string)
| RuntimeError (msg : string)
| AttributeError (attr : string)
| TypeError (msg : string)
| JunosError (msg : string)
| OtherError (msg : string).

Inductive result (A : Type) : Type :=
| Ok (a : A)
| Raise (e : exn).

Arguments Ok {A} a.
Arguments Raise {A} e.

#[global] Instance result_ret : MRet result := fun A a => Ok a.

#[global] Instance result_bind : MBind result := fun A B k m =>
  match m with
  | Ok a => k a
  | Raise e => Raise e
  end.

(** ** validators.py *)

Module Validators.
Import Str.

Definition dquote : ascii := "034"%char.

(** [self.valid_set_commands] *)
Definition valid_set_commands : list string :=
  ["set"; "delete"; "deactivate"; "activate"; "protect"; "unprotect"].

(** [self.valid_hierarchies] *)
Definition valid_hierarchies : list string :=
  ["interfaces"; "protocols"; "routing-options"; "policy-options";
   "firewall"; "security"; "system"; "chassis"; "forwarding-options";
   "class-of-service"; "access"; "ethernet-switching-options";
   "vlans"; "switch-options"; "poe"; "virtual-chassis"; "snmp";
   "services"; "applications"; "groups"; "apply-groups"].

Definition str_in (s : string) (l : list string) : bool :=
  existsb (String.eqb s) l.

(** The entries of [errors], one constructor per message of
    [_validate_config_syntax] and [_validate_set_command_syntax]:
    "Line n: Invalid command 'w' - must start with: ...",
    "Line n: Incomplete set command",
    "Line n: Set command too short - missing configuration hierarchy",
    "Line n: Unmatched quotes in configuration",
    "Line n: Unmatched brackets in configuration". *)
Inductive syntax_error : Type :=
| InvalidCommand (line_num : nat) (first_word : string)
| IncompleteSet (line_num : nat)
| SetTooShort (line_num : nat)
| UnmatchedQuotes (line_num : nat)
| UnmatchedBrackets (line_num : nat).

(** The entries of [warnings]. *)
Inductive syntax_warning : Type :=
| DoubleDots (line_num : nat)
| TrailingWhitespace (line_num : nat)
| UnrecognizedHierarchy (line_num : nat) (hierarchy : string).

(** The body of the loop of [_clean_config_content] on one line:
    [None] where the source continues without appending. *)
Definition clean_line (line : string) : option string :=
  let line := strip line in
  if negb (nonempty line) then None
  else if startswith "#" line then None
  else if mem hash line then
    let line := strip (hd "" (split_on hash line)) in
    if negb (nonempty line) then None
    else Some (join " " (split_ws line))
  else Some (join " " (split_ws line)).

Definition _clean_config_content (content : string) : string :=
  join (String nl "") (omap clean_line (split_on nl content)).

(** Returns the boolean of the source together with the two lists it
    appends to. *)
Definition _validate_set_command_syntax (line : string) (line_num : nat)
    (errors : list syntax_error) (warnings : list syntax_warning)
  : bool * list syntax_error * list syntax_warning :=
  let parts := split_ws line in
  if length parts <? 3 then
    (false, errors ++ [SetTooShort line_num], warnings)
  else if negb (count dquote line mod 2 =? 0) then
    (false, errors ++ [UnmatchedQuotes line_num], warnings)
  else if negb (count "["%char line =? count "]"%char line) then
    (false, errors ++ [UnmatchedBrackets line_num], warnings)
  else
    let warnings :=
      if contains ".." line then warnings ++ [DoubleDots line_num]
      else warnings in
    let warnings :=
      if endswith_chr " "%char line
      then warnings ++ [TrailingWhitespace line_num] else warnings in
    let hierarchy := nth 1 parts "" in
    let warnings :=
      if negb (existsb (fun valid_hier => startswith valid_hier hierarchy)
                 valid_hierarchies)
      then warnings ++ [UnrecognizedHierarchy line_num hierarchy]
      else warnings in
    (true, errors, warnings).

(** The loop of [_validate_config_syntax], from line number [line_num]. *)
Fixpoint validate_lines (line_num : nat) (lines : list string)
    (errors : list syntax_error) (warnings : list syntax_warning)
  : list syntax_error * list syntax_warning :=
  match lines with
  | [] => (errors, warnings)
  | line :: rest =>
      if negb (nonempty (strip line)) then
        validate_lines (S line_num) rest errors warnings
      else
        let first_word := lower (hd "" (split_ws line)) in
        if negb (str_in first_word valid_set_commands) then
          validate_lines (S line_num) rest
            (errors ++ [InvalidCommand line_num first_word]) warnings
        else if String.eqb first_word "set" then
          let parts := split_ws line in
          if length parts <? 2 then
            validate_lines (S line_num) rest
              (errors ++ [IncompleteSet line_num]) warnings
          else
            let '(_, errors, warnings) :=
              _validate_set_command_syntax line line_num errors warnings in
            validate_lines (S line_num) rest errors warnings
        else validate_lines (S line_num) rest errors warnings
  end.

(** The errors and warnings collected over the whole document. *)
Definition syntax_report (content : string)
  : list syntax_error * list syntax_warning :=
  validate_lines 1 (split_on nl content) [] [].

(** Raises when an error was collected; otherwise returns (the source
    returns [None]; the warnings it prints are returned here). The
    source shows the errors, or the warnings, in a panel first: this is
    what it does when the panel is printed, and the print raises
    instead on a word with a closing tag that no tag opens. *)
Definition _validate_config_syntax (content : string)
  : result (list syntax_warning) :=
  let '(errors, warnings) := syntax_report content in
  match errors with
  | _ :: _ =>
      Raise (ValueError ("Configuration validation failed with "
                         +:+ pretty (length errors) +:+ " errors"))
  | [] => Ok warnings
  end.

(** What the file system holds at [config_file]: the path may be
    missing, may not be a file, may fail to be read, or holds text. *)
Inductive config_path : Type :=
| Missing
| NotFile
| Unreadable (why : string)
| Content (content : string).

(** [_display_config_preview] only prints and is left out, as is the
    line that shows the path first; the messages about the file leave
    out its path. *)
Definition validate_and_clean_config (config_file : config_path)
  : result string :=
  match config_file with
  | Missing => Raise (ValueError "Configuration file not found")
  | NotFile => Raise (ValueError "Path is not a file")
  | Unreadable why => Raise (ValueError why)
  | Content content =>
      if negb (nonempty (strip content)) then
        Raise (ValueError "Configuration file is empty")
      else
        let cleaned_content := _clean_config_content content in
        _ ← _validate_config_syntax cleaned_content;
        Ok cleaned_content
  end.

(** [_get_config_statistics]: the dictionary it returns. *)
Record config_statistics : Type := {
  total_commands : nat;
  set_commands : nat;
  delete_commands : nat;
  other_commands : nat;
  unique_hierarchies : nat
}.

(** The loop of [_get_config_statistics]: the three counters and the
    set of hierarchies. *)
Fixpoint statistics_loop (lines : list string) (sets deletes others : nat)
    (hierarchies : gset string) : nat * nat * nat * gset string :=
  match lines with
  | [] => (sets, deletes, others, hierarchies)
  | line :: rest =>
      if negb (nonempty (strip line)) then
        statistics_loop rest sets deletes others hierarchies
      else
        let parts := split_ws line in
        let command := lower (hd "" parts) in
        if String.eqb command "set" then
          statistics_loop rest (S sets) deletes others
            (if 1 <? length parts
             then {[ hd "" (split_on "."%char (nth 1 parts "")) ]} ∪ hierarchies
             else hierarchies)
        else if String.eqb command "delete" then
          statistics_loop rest sets (S deletes) others hierarchies
        else statistics_loop rest sets deletes (S others) hierarchies
  end.

Definition _get_config_statistics (content : string) : config_statistics :=
  let lines := split_on nl content in
  let '(sets, deletes, others, hierarchies) :=
    statistics_loop lines 0 0 0 ∅ in
  {| total_commands := length lines;
     set_commands := sets;
     delete_commands := deletes;
     other_commands := others;
     unique_hierarchies := size hierarchies |}.

End Validators.

(** ** Programs that log: a state and exception monad

    [prog S A] threads a log of type [S] and may raise. The log is kept
    when an exception passes, as the calls were made all the same. *)

Definition prog (S A : Type) : Type := S -> result A * S.

#[global] Instance prog_ret {S} : MRet (prog S) := fun A a log => (Ok a, log).

#[global] Instance prog_bind {S} : MBind (prog S) := fun A B k m log =>
  match m log with
  | (Ok a, log') => k a log'
  | (Raise e, log') => (Raise e, log')
  end.

(** A computation that makes no call. *)
Definition lift {S A} (r : result A) : prog S A := fun log => (r, log).

(** [raise e] *)
Definition throw {S A} (e : exn) : prog S A := fun log => (Raise e, log).

(** [try: m except Exception as e: h e] *)
Definition catch {S A} (m : prog S A) (h : exn -> prog S A) : prog S A :=
  fun log =>
    match m log with
    | (Ok a, log') => (Ok a, log')
    | (Raise e, log') => h e log'
    end.

(** A call whose answer [r] the outside world gives; [c] is logged. *)
Definition call_out {C A} (c : C) (r : result A) : prog (list C) A :=
  fun log => (r, log ++ [c]).

(** [try: m finally: c] for a call [c] that does not raise. *)
Definition ensuring {C A} (c : C) (m : prog (list C) A) : prog (list C) A :=
  fun log => let '(r, log') := m log in (r, log' ++ [c]).

(** [str(e)] *)
Definition exn_str (e : exn) : string :=
  match e with
  | ValueError msg | RuntimeError msg | TypeError msg
  | JunosError msg | OtherError msg => msg
  | AttributeError attr =>
      "'JunosPushTool' object has no attribute '" +:+ attr +:+ "'"
  end.

(** ** The device session the sources consume (PyEZ [Device], [Config]) *)

Module Junos.

(** The [database] option of [get_config]; [Active] when it is not given. *)
Inductive database : Type := Candidate | Committed | Active.

(** What one device answers during a run. [get_config] gives the [text]
    of the reply, [None] for an element without text. *)
Record device : Type := {
  tcp_open : bool;
  open_session : result unit;
  facts_refresh : result unit;
  get_config : database -> result (option string);
  write_backup : string -> result unit;
  enter_config : result unit;
  load : string -> result unit;
  commit_check : result bool;
  commit : option nat -> result unit
}.

(** The calls a task makes, in the order it makes them. *)
Inductive call : Type :=
| TcpProbe
| DevOpen
| DevClose
| FactsRefresh
| RpcGetConfig (db : database)
| BackupWrite
| CfgEnter
| CfgExit
| CfgLoad (text : string)
| CfgCommitCheck
| CfgCommit (confirm : option nat)
| WarnSkipped (line : string).

Abbreviation session := (prog (list call)).

(** [with Device(host=device_ip, ...) as dev: body] *)
Definition with_device {A} (dev : device) (body : session A) : session A :=
  _ ← call_out DevOpen (open_session dev);
  ensuring DevClose body.

(** [with Config(dev, mode='private') as cu: body] *)
Definition with_config {A} (dev : device) (body : session A) : session A :=
  _ ← call_out CfgEnter (enter_config dev);
  ensuring CfgExit body.

(** [reply.text.splitlines()]: [None] has no [splitlines]. *)
Definition text_splitlines (text : option string) : session (list string) :=
  match text with
  | Some t => mret (Str.splitlines t)
  | None => throw (AttributeError "splitlines")
  end.

(** The calls that change the device or its candidate configuration. *)
Definition mutating (c : call) : bool :=
  match c with
  | CfgEnter | CfgLoad _ | CfgCommitCheck | CfgCommit _ => true
  | _ => false
  end.

End Junos.

(** ** utils.py *)

Module Utils.
Import Junos.

(** [ConnectionTester.test_connection]: the response time is left out. *)
Definition test_connection (dev : device) : session bool :=
  catch
    (_ ← call_out TcpProbe (Ok ());
     if negb (tcp_open dev) then mret false
     else with_device dev
            (_ ← call_out FactsRefresh (facts_refresh dev); mret true))
    (fun _ => mret false).

(** [BackupManager.create_backup], on an open session. *)
Definition create_backup (dev : device) : session bool :=
  catch
    (config ← call_out (RpcGetConfig Active) (get_config dev Active);
     _ ← call_out BackupWrite
           (match config with
            | Some text => write_backup dev text
            | None => Raise (TypeError "write() argument must be str")
            end);
     mret true)
    (fun _ => mret false).

(** [ConfigDiffer.compare_configs] *)
Module ConfigDiffer.

Record differences : Type := {
  added_lines : list string;
  removed_lines : list string;
  common_lines : list string;
  total_changes : nat
}.

(** [set(config.strip().split('\n'))] *)
Definition line_set (config : string) : gset string :=
  list_to_set (Str.split_on Str.nl (Str.strip config)).

Section Differ.

(** [list(s)] for a set [s]: the order in which Python iterates it. *)
Variable set_order : gset string -> list string.

Definition compare_configs (config1 config2 : string) : differences :=
  let lines1 := line_set config1 in
  let lines2 := line_set config2 in
  {| added_lines := set_order (lines2 ∖ lines1);
     removed_lines := set_order (lines1 ∖ lines2);
     common_lines := set_order (lines1 ∩ lines2);
     total_changes := size ((lines1 ∖ lines2) ∪ (lines2 ∖ lines1)) |}.

End Differ.

End ConfigDiffer.

(** [ProgressTracker]. The times are the numbers [time.time()] gives,
    handed to each method as [now]; the percentage and the elapsed time
    of [get_overall_progress] are left out. *)
Module ProgressTracker.

(** One entry of [self.operations]. *)
Record operation_entry : Type := {
  description : string;
  total_steps : Z;
  completed_steps : Z;
  start_time : Q;
  status : string;
  end_time : option Q
}.

Record tracker : Type := {
  operations : gmap string operation_entry;
  tracker_start_time : option Q
}.

(** [ProgressTracker()] *)
Definition new : tracker :=
  {| operations := ∅; tracker_start_time := None |}.

Definition start_operation (self : tracker) (now : Q) (operation_id : string)
    (description : string) (total_steps : Z) : tracker :=
  {| operations :=
       <[operation_id :=
           {| description := description;
              total_steps := total_steps;
              completed_steps := 0%Z;
              start_time := now;
              status := "running";
              end_time := None |}]> (operations self);
     tracker_start_time :=
       match tracker_start_time self with
       | None => Some now
       | Some t => Some t
       end |}.

Definition update_progress (self : tracker) (operation_id : string)
    (steps : Z) : tracker :=
  match operations self !! operation_id with
  | Some op =>
      {| operations :=
           <[operation_id :=
               {| description := description op;
                  total_steps := total_steps op;
                  completed_steps := (completed_steps op + steps)%Z;
                  start_time := start_time op;
                  status := status op;
                  end_time := end_time op |}]> (operations self);
         tracker_start_time := tracker_start_time self |}
  | None => self
  end.

Definition complete_operation (self : tracker) (now : Q)
    (operation_id : string) (status : string) : tracker :=
  match operations self !! operation_id with
  | Some op =>
      {| operations :=
           <[operation_id :=
               {| description := description op;
                  total_steps := total_steps op;
                  completed_steps := completed_steps op;
                  start_time := start_time op;
                  status := status;
                  end_time := Some now |}]> (operations self);
         tracker_start_time := tracker_start_time self |}
  | None => self
  end.

(** The test [op['status'] in ['completed', 'failed']]. *)
Definition finished (op : operation_entry) : bool :=
  String.eqb (status op) "completed" || String.eqb (status op) "failed".

(** [get_overall_progress]: [total_operations] and
    [completed_operations]. *)
Definition get_overall_progress (self : tracker) : nat * nat :=
  (size (operations self),
   length (filter (fun kv => finished kv.2 = true)
             (map_to_list (operations self)))).

End ProgressTracker.

(** [BackupManager.list_backups] and [cleanup_old_backups], over what
    the file system answers. *)
Module Backups.

(** The three calls made to the file system: [Path.glob] in the backup
    directory, [stat().st_mtime] (the number the float denotes) and
    [unlink]. *)
Record filesystem : Type := {
  glob : string -> list string;
  st_mtime : string -> result Q;
  unlink : string -> result unit
}.

(** [list_backups]: [None] and the empty string select every backup. *)
Definition list_backups (fs : filesystem) (device_ip : option string)
  : list string :=
  let pattern :=
    match device_ip with
    | Some ip => if Str.nonempty ip then ip +:+ "_*.conf" else "*.conf"
    | None => "*.conf"
    end in
  glob fs pattern.

(** [sorted(..., key=..., reverse=True)] on the keyed paths, as an
    insertion from the right: the sort is stable, so a path comes before
    the paths that follow it in the list and have the same key. *)
Fixpoint insert_newest (x : Q * string) (l : list (Q * string))
  : list (Q * string) :=
  match l with
  | [] => [x]
  | y :: rest =>
      if Qle_bool y.1 x.1 then x :: l else y :: insert_newest x rest
  end.

Definition sorted_newest_first (l : list (Q * string)) : list (Q * string) :=
  fold_right insert_newest [] l.

(** [l[k:]] for an integer [k]. *)
Definition slice_from {A} (k : Z) (l : list A) : list A :=
  if (k <? 0)%Z
  then List.skipn (Z.to_nat (Z.of_nat (length l) + k)) l
  else List.skipn (Z.to_nat k) l.

(** The loop over [backups[keep_count:]]: the number of files deleted
    and the paths [unlink] was called on. *)
Fixpoint unlink_all (fs : filesystem) (old : list string) : nat * list string :=
  match old with
  | [] => (0, [])
  | backup :: rest =>
      let '(deleted_count, called) := unlink_all fs rest in
      match unlink fs backup with
      | Ok _ => (S deleted_count, backup :: called)
      | Raise _ => (deleted_count, backup :: called)
      end
  end.

(** [cleanup_old_backups]: raises when a [stat] raises (the sort is not
    under a [try]); otherwise the count and the paths handed to
    [unlink]. *)
Definition cleanup_old_backups (fs : filesystem) (device_ip : string)
    (keep_count : Z) : result (nat * list string) :=
  keyed ← mapM (fun path => mtime ← st_mtime fs path; Ok (mtime, path))
             (list_backups fs (Some device_ip));
  let backups := map snd (sorted_newest_first keyed) in
  Ok (unlink_all fs (slice_from keep_count backups)).

End Backups.

End Utils.

(** ** core.py *)

Module Core.
Import Str Junos.

(** [--operation], as the command line restricts it. *)
Inductive operation : Type :=
| Check | Commit | CommitConfirmed | Rollback | Compare.

Definition operation_eqb (a b : operation) : bool :=
  match a, b with
  | Check, Check | Commit, Commit | CommitConfirmed, CommitConfirmed
  | Rollback, Rollback | Compare, Compare => true
  | _, _ => false
  end.

(** A parsed [config.ini]: the sections in file order, each with its
    options in file order ([configparser] keeps option names unique).
    The values are those that [configparser] hands out: a file that it
    does not read, the options that a section [DEFAULT] adds to every
    section and the interpolation of '%' are not modelled. *)
Definition ini : Type := list (string * list (string * string)).

Fixpoint assoc {V} (k : string) (l : list (string * V)) : option V :=
  match l with
  | [] => None
  | (k', v) :: rest => if String.eqb k' k then Some v else assoc k rest
  end.

(** The attributes of a [JunosPushTool]. The fields but the last are the
    attributes [__init__] and [_load_config] assign (the validator and
    the backup manager hold no data of their own).
    [normalize_patterns] is read by [_normalize_config_line]; it is
    [None] while the instance has no attribute of that name. *)
Record JunosPushTool : Type := {
  config_ini_path : string;
  timeout : nat;
  verbose : bool;
  credentials : string * string;
  device_groups : gmap string (list (string * string));
  ignore_patterns : list string;
  normalize_patterns : option (list string)
}.

(** [_load_config] on the parsed file: the credentials, the ignore
    patterns and the device groups, or [RuntimeError]. *)
Definition _load_config (config : ini)
  : result (string * string * list string
            * gmap string (list (string * string))) :=
  let body : result _ :=
    match assoc "settings" config with
    | None => Raise (ValueError "Missing [settings] section in config.ini")
    | Some settings =>
        let user := default "" (assoc "user" settings) in
        let password := default "" (assoc "password" settings) in
        if negb (nonempty user) || negb (nonempty password) then
          Raise (ValueError "Missing user or password in [settings] section")
        else
          let ignore_patterns :=
            match assoc "ignore_those_lines_in_compare" config with
            | Some items => map (fun kv => strip (snd kv)) items
            | None => []
            end in
          let device_groups :=
            fold_left
              (fun groups sec =>
                 if Validators.str_in (fst sec)
                      ["settings"; "ignore_those_lines_in_compare"]
                 then groups else <[fst sec := snd sec]> groups)
              config (∅ : gmap string (list (string * string))) in
          Ok (user, password, ignore_patterns, device_groups)
    end in
  match body with
  | Ok r => Ok r
  | Raise e => Raise (RuntimeError ("Failed to load config.ini: " ++ exn_str e))
  end.

(** [JunosPushTool.__init__]: every attribute the constructor and
    [_load_config] assign; [normalize_patterns] is not among them. The
    directory that [BackupManager()] makes first is left out. *)
Definition __init__ (config_ini_path : string) (config : ini)
    (timeout : nat) (verbose : bool) : result JunosPushTool :=
  '(user, password, ignore_patterns, device_groups) ← _load_config config;
  Ok {| config_ini_path := config_ini_path;
        timeout := timeout;
        verbose := verbose;
        credentials := (user, password);
        device_groups := device_groups;
        ignore_patterns := ignore_patterns;
        normalize_patterns := None |}.

(** The message for a missing group also lists the groups there are;
    the list is left out here. *)
Definition _validate_group (self : JunosPushTool) (group : string)
  : result (list string) :=
  match device_groups self !! group with
  | None => Raise (ValueError ("Group '" ++ group ++ "' not found"))
  | Some members =>
      let devices := map snd members in
      if negb (length devices =? 2) then
        Raise (ValueError ("Group '" ++ group
                           ++ "' must have exactly 2 devices, found "
                           ++ pretty (length devices)))
      else Ok devices
  end.

(** [_convert_set_to_delete]: the converted text, and the lines the
    source warns about and leaves out. The source prints the warning
    inside the loop: the text is what it returns when each warning is
    printed. *)
Fixpoint convert_lines (lines : list string) : list string * list string :=
  match lines with
  | [] => ([], [])
  | line :: rest =>
      let '(delete_lines, skipped) := convert_lines rest in
      let line := strip line in
      if negb (nonempty line) || startswith "#" line then
        (delete_lines, skipped)
      else if startswith "set " (lower line) then
        (("delete " +:+ drop 4 line) :: delete_lines, skipped)
      else if startswith "delete " (lower line) then
        (("set " +:+ drop 7 line) :: delete_lines, skipped)
      else (delete_lines, line :: skipped)
  end.

Definition _convert_set_to_delete (config_content : string)
  : string * list string :=
  let '(delete_lines, skipped) :=
    convert_lines (split_on nl (strip config_content)) in
  (join (String nl "") delete_lines, skipped).

(** The stages of [execute] that open sessions. *)
Inductive stage : Type :=
| Connectivity | ConfigStatus | PendingCheck | Push | Comparison.

(** The result of [_compare_device_configs], as it is handed to
    [_display_accurate_config_comparison]. *)
Record comparison : Type := {
  truly_unique1 : gset string;
  truly_unique2 : gset string;
  similar_pairs : list (string * string);
  common_lines : gset string;
  total1 : nat;
  total2 : nat
}.

(** The log of a run: one [Task] per device task with the calls it
    made, in the order the tasks are submitted (the order in time of
    the tasks of one pool is not recorded), and the comparison shown. *)
Inductive event : Type :=
| Task (st : stage) (device_ip : string) (calls : list call)
| Report (r : comparison).

Abbreviation run := (prog (list event)).

(** One task on one device: its calls become one entry of the log. *)
Definition task {A} (st : stage) (device_ip : string)
    (m : session A) : run A :=
  fun log => let '(r, calls) := m [] in (r, log ++ [Task st device_ip calls]).

Definition nonnil {A} (l : list A) : bool :=
  match l with [] => false | _ :: _ => true end.

Section Engine.

(** The devices of the network, by address. *)
Variable net : string -> device.

(** [Levenshtein.ratio] (or its [difflib] replacement): the score is the
    rational number the returned float denotes. *)
Variable ratio : string -> string -> Q.

(** [list(s)] for a set [s]: the order in which Python iterates it. *)
Variable set_order : gset string -> list string.

(** [re.sub(pattern, repl, string)] *)
Variable re_sub : string -> string -> string -> string.

(** One pool of tasks, one per device. *)
Definition for_each {A} (st : stage) (devices : list string)
    (f : device -> session A) : run (list A) :=
  mapM (fun device_ip => task st device_ip (f (net device_ip))) devices.

Definition _test_connectivity (devices : list string) : run bool :=
  results ← for_each Connectivity devices Utils.test_connection;
  mret (forallb id results).

Definition _check_pending_config (dev : device) : session bool :=
  catch
    (with_device dev
       (result ← call_out (RpcGetConfig Candidate) (get_config dev Candidate);
        result ← text_splitlines result;
        result_comitted ←
          call_out (RpcGetConfig Committed) (get_config dev Committed);
        result_comitted ← text_splitlines result_comitted;
        if nonnil result && nonnil result_comitted then
          let pending_lines : gset string :=
            list_to_set result ∖ list_to_set result_comitted in
          if bool_decide (pending_lines ≠ ∅) then mret true else mret false
        else mret false))
    (fun _ => mret false).

Definition _validate_device_state (devices : list string) : run bool :=
  has_pending ← for_each PendingCheck devices _check_pending_config;
  let pending_devices := filter (fun p => p.2 = true) (zip devices has_pending) in
  if nonnil pending_devices then mret false else mret true.

(** The block under [with Config(dev, mode='private') as cu] in
    [_push_config_to_device]. It returns [None] where the source falls
    off its end (no branch of the operation returns). The warnings of
    the conversion are logged as calls that return. *)
Definition push_locked (dev : device) (config_content : string)
    (operation : operation) : session (option (bool * string)) :=
  with_config dev
    (match operation with
     | Rollback =>
         let '(delete_config, skipped) :=
           _convert_set_to_delete config_content in
         _ ← mapM (fun line => call_out (WarnSkipped line) (Ok ())) skipped;
         if negb (nonempty (strip delete_config)) then
           mret (Some (false,
             "No valid set commands found to convert to delete commands"))
         else
           _ ← call_out (CfgLoad delete_config) (load dev delete_config);
           _ ← call_out (CfgCommit None) (commit dev None);
           mret (Some (true,
             "Configuration rollback completed - deleted "
             +:+ pretty (length (splitlines delete_config))
             +:+ " configuration lines"))
     | _ =>
         _ ← call_out (CfgLoad config_content) (load dev config_content);
         match operation with
         | Check =>
             passed ← call_out CfgCommitCheck (commit_check dev);
             if (passed : bool)
             then mret (Some (true, "Configuration check passed"))
             else mret (Some (false, "Configuration check failed"))
         | Commit =>
             _ ← call_out (CfgCommit None) (commit dev None);
             mret (Some (true, "Configuration committed successfully"))
         | CommitConfirmed =>
             _ ← call_out (CfgCommit (Some 5)) (commit dev (Some 5));
             mret (Some (true, "Configuration committed with confirmation"))
         | _ => mret None
         end
     end).

Definition _push_config_to_device (dev : device) (config_content : string)
    (operation : operation) (backup : bool)
  : session (option (bool * string)) :=
  catch
    (with_device dev
       (if backup then
          backup_result ← Utils.create_backup dev;
          if negb (backup_result : bool) then
            mret (Some (false, "Failed to create backup"))
          else push_locked dev config_content operation
        else push_locked dev config_content operation))
    (fun e =>
       match e with
       | JunosError msg => mret (Some (false, "Junos error: " +:+ msg))
       | _ => mret (Some (false, "Unexpected error: " +:+ exn_str e))
       end).

(** The set of lines [_check_existing_config] builds from a text. *)
Definition config_line_set (text : string) : gset string :=
  list_to_set
    (filter (fun line => nonempty line && negb (startswith "#" line) = true)
       (map strip (split_on nl (strip text)))).

(** The entry of one device in [_validate_configuration_status]. *)
Record config_status : Type := {
  has_existing : bool;
  existing_lines : list string;
  new_lines : list string;
  total_proposed : nat;
  existing_count : nat;
  new_count : nat
}.

Definition _check_existing_config (config_content : string) (dev : device)
  : session (bool * list string * list string) :=
  catch
    (with_device dev
       (current_config ← call_out (RpcGetConfig Active) (get_config dev Active);
        let current_lines : gset string :=
          match current_config with
          | Some text => if nonempty text then config_line_set text else ∅
          | None => ∅
          end in
        let proposed_lines := config_line_set config_content in
        let existing_lines := set_order (proposed_lines ∩ current_lines) in
        let new_lines := set_order (proposed_lines ∖ current_lines) in
        let has_existing := 0 <? length existing_lines in
        mret (has_existing, existing_lines, new_lines)))
    (fun _ => mret (false, [], [])).

Definition _validate_configuration_status (devices : list string)
    (config_content : string) : run (gmap string config_status) :=
  results ← for_each ConfigStatus devices
    (fun dev =>
       '(has_existing, existing_lines, new_lines) ←
         _check_existing_config config_content dev;
       mret {| has_existing := has_existing;
               existing_lines := existing_lines;
               new_lines := new_lines;
               total_proposed := length existing_lines + length new_lines;
               existing_count := length existing_lines;
               new_count := length new_lines |});
  mret (fold_left (fun m kv => <[kv.1 := kv.2]> m) (zip devices results) ∅).

(** Every path of [_evaluate_config_status] returns [True]; the
    branches differ in what they print. *)
Definition _evaluate_config_status (status : gmap string config_status)
    (operation : operation) : bool :=
  let values := map snd (map_to_list status) in
  let all_fully_present :=
    forallb (fun st => (existing_count st =? total_proposed st)
                       && (0 <? total_proposed st)) values in
  let any_existing_config := existsb has_existing values in
  if all_fully_present then
    match operation with
    | Commit | CommitConfirmed => true
    | Check => true
    | _ => true
    end
  else if any_existing_config then true
  else true.

Definition _filter_config_lines (self : JunosPushTool)
    (config_lines : list string) : list string :=
  if negb (nonnil (ignore_patterns self)) then config_lines
  else
    filter (fun line =>
              existsb (fun pattern => contains pattern (strip line))
                (ignore_patterns self) = false)
      config_lines.

(** [_normalize_config_line]: reading [self.normalize_patterns] raises
    [AttributeError] when the instance has no such attribute. *)
Definition _normalize_config_line (self : JunosPushTool) (line : string)
  : result string :=
  match normalize_patterns self with
  | None => Raise (AttributeError "normalize_patterns")
  | Some patterns =>
      Ok (fold_left
            (fun normalized_line pattern =>
               if String.eqb pattern "ip_addresses" then
                 re_sub "\b(?:[0-9a-fA-F]{0,4}:){2,7}[0-9a-fA-F]{0,4}(?:/\d{1,3})?\b"
                   "<IPV6_ADDRESS>"
                   (re_sub "\b(?:\d{1,3}\.){3}\d{1,3}(?:/\d{1,2})?\b"
                      "<IP_ADDRESS>" normalized_line)
               else if String.eqb pattern "interface_numbers" then
                 re_sub "(ge|xe|et|ae|irb|lo|fxp|em|vlan)-(\d+/\d+/\d+|\d+)"
                   "\1-<INTERFACE_NUMBER>" normalized_line
               else if String.eqb pattern "hostnames" then
                 re_sub "\bswitch[0-9]+\b" "<HOSTNAME>"
                   (re_sub "\brouter[0-9]+\b" "<HOSTNAME>"
                      (re_sub "\b[a-zA-Z0-9]+-[0-9]+\b" "<HOSTNAME>"
                         normalized_line))
               else if String.eqb pattern "as_numbers" then
                 re_sub "\bpeer-as (\d+)\b" "peer-as <AS_NUMBER>"
                   (re_sub "\bas (\d+)\b" "as <AS_NUMBER>" normalized_line)
               else if String.eqb pattern "vlan_ids" then
                 re_sub "\bvlan (\d+)\b" "vlan <VLAN_ID>"
                   (re_sub "\bvlan-id (\d+)\b" "vlan-id <VLAN_ID>"
                      normalized_line)
               else normalized_line)
            patterns line)
  end.

(** The inner loop of [_find_similar_lines]: the first [line2] with the
    normal form of [line1] that is another line. *)
Definition same_shape (line1 norm1 : string)
    (normalized2 : list (string * string)) : option string :=
  fst <$> List.find
            (fun '(line2, norm2) =>
               String.eqb norm1 norm2 && negb (String.eqb line1 line2))
            normalized2.

Definition _find_similar_lines (self : JunosPushTool)
    (lines1 lines2 : gset string)
  : result (list (string * string) * gset string * gset string) :=
  normalized1 ← mapM (fun line => norm ← _normalize_config_line self line;
                                  Ok (line, norm)) (set_order lines1);
  normalized2 ← mapM (fun line => norm ← _normalize_config_line self line;
                                  Ok (line, norm)) (set_order lines2);
  let '(similar_pairs, matched_lines1, matched_lines2) :=
    fold_left
      (fun '(similar_pairs, matched_lines1, matched_lines2) '(line1, norm1) =>
         match same_shape line1 norm1 normalized2 with
         | Some line2 =>
             (similar_pairs ++ [(line1, line2)],
              {[line1]} ∪ matched_lines1, {[line2]} ∪ matched_lines2)
         | None => (similar_pairs, matched_lines1, matched_lines2)
         end)
      normalized1 ([], ∅, ∅) in
  Ok (similar_pairs, lines1 ∖ matched_lines1, lines2 ∖ matched_lines2).

(** The float that the literal [0.85] denotes. *)
Definition similarity_floor : Q := 7656119366529843 # 9007199254740992.

Definition Qlt_bool (x y : Q) : bool := negb (Qle_bool y x).

(** The test [0.85 <= similarity < 1.0 and line1 != line2]. *)
Definition similar_enough (line1 line2 : string) : bool :=
  Qle_bool similarity_floor (ratio line1 line2)
  && Qlt_bool (ratio line1 line2) 1
  && negb (String.eqb line1 line2).

(** One turn of the inner loop of [_find_similar_lines_advanced]. *)
Definition best_candidate (matched_lines2 : gset string) (line1 : string)
    (best : option string * Q) (line2 : string) : option string * Q :=
  if bool_decide (line2 ∈ matched_lines2) then best
  else if similar_enough line1 line2 then
    if Qlt_bool best.2 (ratio line1 line2)
    then (Some line2, ratio line1 line2) else best
  else best.

(** The test [best_match and best_ratio >= 0.85]: [None] and the empty
    string are false. *)
Definition good_match (best : option string * Q) : option string :=
  match best.1 with
  | Some best_match =>
      if nonempty best_match && Qle_bool similarity_floor best.2
      then Some best_match else None
  | None => None
  end.

(** One turn of the outer loop. *)
Definition match_line (list2 : list string)
    (acc : list (string * string) * gset string * gset string)
    (line1 : string) : list (string * string) * gset string * gset string :=
  let '(similar_pairs, matched_lines1, matched_lines2) := acc in
  match good_match
          (fold_left (best_candidate matched_lines2 line1) list2 (None, 0%Q))
  with
  | Some best_match =>
      (similar_pairs ++ [(line1, best_match)],
       {[line1]} ∪ matched_lines1, {[best_match]} ∪ matched_lines2)
  | None => acc
  end.

Definition _find_similar_lines_advanced (lines1 lines2 : gset string)
  : list (string * string) * gset string * gset string :=
  let list1 := set_order lines1 in
  let list2 := set_order lines2 in
  let '(similar_pairs, matched_lines1, matched_lines2) :=
    fold_left (match_line list2) list1 ([], ∅, ∅) in
  (similar_pairs, lines1 ∖ matched_lines1, lines2 ∖ matched_lines2).

(** The comparison of two retrieved line lists: the part of
    [_compare_device_configs] after the retrieval. *)
Definition compare_configs (results1 results2 : list string) : comparison :=
  let config1 : gset string := list_to_set results1 in
  let config2 : gset string := list_to_set results2 in
  let common_lines := config1 ∩ config2 in
  let remaining_lines1 := config1 ∖ common_lines in
  let remaining_lines2 := config2 ∖ common_lines in
  let '(similar_pairs, truly_unique1, truly_unique2) :=
    _find_similar_lines_advanced remaining_lines1 remaining_lines2 in
  {| truly_unique1 := truly_unique1;
     truly_unique2 := truly_unique2;
     similar_pairs := similar_pairs;
     common_lines := common_lines;
     total1 := size config1;
     total2 := size config2 |}.

(** The task [get_device_config]: the filtered lines, or [str(e)]. *)
Definition get_device_config (self : JunosPushTool) (dev : device)
  : session (list string * option string) :=
  catch
    (with_device dev
       (config ← call_out (RpcGetConfig Active) (get_config dev Active);
        lines ← text_splitlines config;
        let config_lines :=
          map strip
            (filter (fun line => nonempty (strip line)
                                 && negb (startswith "#" (strip line)) = true)
               lines) in
        mret (_filter_config_lines self config_lines, None)))
    (fun e => mret ([], Some (exn_str e))).

(** [if error:] holds for a message that is not empty. *)
Definition is_error (r : list string * option string) : bool :=
  match r.2 with
  | Some error => nonempty error
  | None => false
  end.

(** [_compare_device_configs]: the retrieval pool and the comparison
    handed to the display; the lines it prints on the way (the ignore
    patterns, the errors of the retrievals) are left out. *)
Definition _compare_device_configs (self : JunosPushTool)
    (devices : list string) : run bool :=
  match devices with
  | [device1_ip; device2_ip] =>
      catch
        (results ← for_each Comparison devices (get_device_config self);
         if existsb is_error results then mret false
         else
           match results with
           | [result1; result2] =>
               _ ← call_out (Report (compare_configs result1.1 result2.1))
                     (Ok ());
               mret true
           | _ => mret false
           end)
        (fun _ => mret false)
  | _ => mret false
  end.

(** [success, message = ...] on the value of [_push_config_to_device]. *)
Definition unpack {S} (r : option (bool * string)) : prog S (bool * string) :=
  match r with
  | Some sm => mret sm
  | None => throw (TypeError "cannot unpack non-iterable NoneType object")
  end.

Definition _execute_parallel (devices : list string) (config_content : string)
    (operation : operation) (backup : bool)
  : run (gmap string (bool * string)) :=
  results ← for_each Push devices
    (fun dev =>
       catch
         (r ← _push_config_to_device dev config_content operation backup;
          unpack r)
         (fun e => mret (false, "Execution error: " +:+ exn_str e)));
  mret (fold_left (fun m kv => <[kv.1 := kv.2]> m) (zip devices results) ∅).

(** The pause between two devices is left out, and so are the two
    lines printed for each device, before and after its push. *)
Definition _execute_sequential (devices : list string)
    (config_content : string) (operation : operation) (backup : bool)
  : run (gmap string (bool * string)) :=
  results ← for_each Push devices
    (fun dev =>
       r ← _push_config_to_device dev config_content operation backup;
       unpack r);
  mret (fold_left (fun m kv => <[kv.1 := kv.2]> m) (zip devices results) ∅).

(** [execute]: the verdict; the log is the state of the program. The
    handler returns false after it has printed [str(e)]; the print is
    left out. *)
Definition execute (self : JunosPushTool) (group : string)
    (config_file : Validators.config_path) (operation : operation)
    (dry_run parallel backup : bool) : run bool :=
  catch
    (devices ← lift (_validate_group self group);
     if operation_eqb operation Compare then
       if dry_run then mret true
       else
         reachable ← _test_connectivity devices;
         if negb (reachable : bool) then mret false
         else _compare_device_configs self devices
     else
       config_content ←
         lift (Validators.validate_and_clean_config config_file);
       if dry_run then mret true
       else
         reachable ← _test_connectivity devices;
         if negb (reachable : bool) then mret false
         else
           config_status ← _validate_configuration_status devices config_content;
           if negb (_evaluate_config_status config_status operation)
           then mret false
           else
             clean ←
               (if negb (operation_eqb operation Rollback
                         || operation_eqb operation Compare)
                then _validate_device_state devices else mret true);
             if negb (clean : bool) then mret false
             else
               results ←
                 (if parallel
                  then _execute_parallel devices config_content operation backup
                  else _execute_sequential devices config_content
                         operation backup);
               mret (forallb (fun r => r.2.1) (map_to_list results)))
    (fun _ => mret false).

End Engine.

(** The column [Status] of [_display_config_analysis]: "Fully Present",
    "Partially Present", "All New" and "No Changes". *)
Inductive presence : Type :=
| FullyPresent | PartiallyPresent | AllNew | NoChanges.

(** [status_text] for one device. *)
Definition status_text (status : config_status) : presence :=
  let total := total_proposed status in
  let existing := existing_count status in
  let new := new_count status in
  if (existing =? total) && (0 <? total) then FullyPresent
  else if (0 <? existing) && (0 <? new) then PartiallyPresent
  else if new =? total then AllNew
  else NoChanges.

(** [_display_config_analysis]: the status shown for each device. *)
Definition _display_config_analysis (results : gmap string config_status)
  : gmap string presence :=
  status_text <$> results.

(** [_display_final_results]: [success_count] and [total_devices]; the
    summary reads "All n devices completed successfully!" when they are
    equal. *)
Definition _display_final_results (results : gmap string (bool * string))
  : nat * nat :=
  (length (filter (fun r => r.2.1 = true) (map_to_list results)),
   size results).

End Core.

(** ** cli.py *)

Module Cli.
Import Core.

Section Main.

Variable net : string -> Junos.device.
Variable ratio : string -> string -> Q.
Variable set_order : gset string -> list string.

(** [main]: the status handed to [sys.exit]. [config] is what the file
    [config_ini] holds. The options are the parsed ones: [click] has
    checked that both paths exist and that the operation is one of the
    five. An interruption from the keyboard is left out. *)
Definition main (group : string) (config_file : Validators.config_path)
    (operation : operation) (config_ini : string) (config : ini)
    (dry_run verbose parallel backup : bool) (timeout : nat)
  : list event -> nat * list event :=
  fun log =>
    match __init__ config_ini config timeout verbose with
    | Ok tool =>
        match execute net ratio set_order tool group config_file operation
                dry_run parallel backup log with
        | (Ok true, log') => (0, log')
        | (_, log') => (1, log')
        end
    | Raise _ => (1, log)
    end.

End Main.

End Cli.

(** ** A sample network

    Two routers of a group [core], for the examples: what each answers
    is fixed by its texts. [lcs_ratio] is the normalized similarity
    [2 * lcs / (|a| + |b|)] that [Levenshtein.ratio] computes. *)

Module Sample.
Import Str Junos Core.

Definition lf : string := String nl "".

(** The length of a longest common subsequence. *)
Fixpoint lcs (a b : string) : nat :=
  match a with
  | EmptyString => 0
  | String x a' =>
      (fix inner (b : string) : nat :=
         match b with
         | EmptyString => 0
         | String y b' =>
             if Ascii.eqb x y then S (lcs a' b')
             else Nat.max (lcs a' b) (inner b')
         end) b
  end.

Definition lcs_ratio (a b : string) : Q :=
  match (String.length a + String.length b)%nat with
  | O => 1%Q
  | S n => (Z.of_nat (2 * lcs a b)%nat # Pos.of_succ_nat n)%Q
  end.

(** A device that answers every call, with the three texts it holds;
    [disk] is what writing a backup file gives. *)
Definition router (candidate committed active : string)
    (disk : result unit) : device :=
  {| tcp_open := true;
     open_session := Ok ();
     facts_refresh := Ok ();
     get_config := fun db =>
       match db with
       | Candidate => Ok (Some candidate)
       | Committed => Ok (Some committed)
       | Active => Ok (Some active)
       end;
     write_backup := fun _ => disk;
     enter_config := Ok ();
     load := fun _ => Ok ();
     commit_check := Ok true;
     commit := fun _ => Ok () |}.

Definition r1_text : string :=
  "set vlan 10" +:+ lf +:+ "set ip 1.1.1.1/24".

Definition r2_text : string :=
  "set vlan 20" +:+ lf +:+ "set ip 1.1.1.1/24".

(** Both routers in their committed state. *)
Definition net_clean (device_ip : string) : device :=
  if String.eqb device_ip "10.0.0.1"
  then router r1_text r1_text r1_text (Ok ())
  else router r2_text r2_text r2_text (Ok ()).


(** The first router has a candidate line but answers an empty
    committed text. *)
Definition net_blank (device_ip : string) : device :=
  if String.eqb device_ip "10.0.0.1"
  then router "set system services ssh" "" r1_text (Ok ())
  else router r2_text r2_text r2_text (Ok ()).


Definition config_ini : ini :=
  [("settings", [("user", "admin"); ("password", "secret")]);
   ("core", [("r1", "10.0.0.1"); ("r2", "10.0.0.2")]);
   ("lab", [("r1", "10.0.0.1")])].

Definition tool : JunosPushTool :=
  {| config_ini_path := "config.ini";
     timeout := 60;
     verbose := false;
     credentials := ("admin", "secret");
     device_groups :=
       {[ "core" := [("r1", "10.0.0.1"); ("r2", "10.0.0.2")];
          "lab" := [("r1", "10.0.0.1")] ]};
     ignore_patterns := [];
     normalize_patterns := None |}.

Definition ntp : string := "set system ntp server 1.1.1.1".

Definition core_devices : list string := ["10.0.0.1"; "10.0.0.2"].

(** Two lines with one double quote. *)
Definition unmatched_quote_set : string :=
  "set interfaces ge-0/0/0 description "
  +:+ String Validators.dquote "uplink".

Definition unmatched_quote_delete : string :=
  "delete interfaces ge-0/0/0 description "
  +:+ String Validators.dquote "uplink".

(** A substitution that changes nothing. *)
Definition no_sub (pattern repl s : string) : string := s.



(** A backup directory with three backups of the first router, written
    at the times 1, 3 and 2. *)
Definition backup_dir : Utils.Backups.filesystem :=
  {| Utils.Backups.glob := fun pattern =>
       if String.eqb pattern "10.0.0.1_*.conf"
       then ["10.0.0.1_a.conf"; "10.0.0.1_b.conf"; "10.0.0.1_c.conf"]
       else [];
     Utils.Backups.st_mtime := fun path =>
       Ok (if String.eqb path "10.0.0.1_a.conf" then 1%Q
           else if String.eqb path "10.0.0.1_b.conf" then 3%Q else 2%Q);
     Utils.Backups.unlink := fun _ => Ok () |}.

(** Both routers in their committed state, with an empty answer for the
    active configuration. *)
Definition net_silent (device_ip : string) : device :=
  if String.eqb device_ip "10.0.0.1"
  then router r1_text r1_text "" (Ok ())
  else router r2_text r2_text "" (Ok ()).

End Sample.

(** * Properties *)

Import Str Junos Core Validators.

(** ** Texts shown on the console

    The sources interpolate a text into a template with style tags and
    hand it to rich ([console.print], [Panel], a table cell). A text
    without '[' begins no tag and one without a backslash escapes no tag
    of the template, so the print of a plain text returns. *)
Definition plain (text : string) : bool :=
  negb (mem "["%char text) && negb (mem "\"%char text).

(** The text of the document that the message of an error, or of a
    warning, shows. *)
Definition shown_error (e : syntax_error) : string :=
  match e with
  | InvalidCommand _ first_word => first_word
  | _ => ""
  end.

Definition shown_warning (w : syntax_warning) : string :=
  match w with
  | UnrecognizedHierarchy _ hierarchy => hierarchy
  | _ => ""
  end.

(** ** Reasoning about programs that log

    [emits m P Q]: from any log, [m] only appends entries that satisfy
    [P], and its result satisfies [Q]. *)

Definition emits {S A} (m : prog (list S) A)
    (P : S -> Prop) (Q : result A -> Prop) : Prop :=
  forall log, exists added,
    (m log).2 = log ++ added /\ Forall P added /\ Q (m log).1.

Section Logic.
Context {S : Type}.
Implicit Types P : S -> Prop.

Lemma emits_ret {A} (a : A) P (Q : result A -> Prop) :
  Q (Ok a) -> emits (mret a) P Q.
Proof.
  intros HQ log. exists []. rewrite app_nil_r. by repeat split.
Qed.



Lemma emits_bind {A B} (m : prog (list S) A) (k : A -> prog (list S) B)
    P (Q1 : result A -> Prop) (Q2 : result B -> Prop) :
  emits m P Q1 ->
  (forall a, Q1 (Ok a) -> emits (k a) P Q2) ->
  (forall e, Q1 (Raise e) -> Q2 (Raise e)) ->
  emits (m ≫= k) P Q2.
Proof.
  intros Hm Hk He log. destruct (Hm log) as (added & Hlog & HP & HQ).
  unfold mbind, prog_bind. destruct (m log) as [[a|e] log'] eqn:E; simpl in *.
  - subst log'. destruct (Hk a HQ (log ++ added)) as (added' & Hlog' & HP' & HQ').
    exists (added ++ added'). rewrite Hlog', app_assoc.
    split; [done|]. split; [by apply Forall_app|done].
  - exists added. split; [done|]. split; [done|]. by apply He.
Qed.




Lemma emits_weaken {A} (m : prog (list S) A) P P'
    (Q Q' : result A -> Prop) :
  emits m P Q -> (forall s, P s -> P' s) -> (forall r, Q r -> Q' r) ->
  emits m P' Q'.
Proof.
  intros Hm HP HQ log. destruct (Hm log) as (added & Hlog & HPa & HQa).
  exists added. split; [done|]. split; [|by apply HQ].
  eapply Forall_impl; [exact HPa|exact HP].
Qed.

Lemma emits_mapM {A B} (f : A -> prog (list S) B) (l : list A) P
    (R : A -> B -> Prop) :
  (forall x, x ∈ l ->
     emits (f x) P (fun r => match r with Ok b => R x b | Raise _ => True end)) ->
  emits (mapM f l) P
    (fun r => match r with Ok bs => Forall2 R l bs | Raise _ => True end).
Proof.
  induction l as [|x l IH]; intros Hf; simpl.
  - apply emits_ret. constructor.
  - eapply emits_bind.
    + apply Hf. by left.
    + intros b Hb. eapply emits_bind.
      * apply IH. intros y Hy. apply Hf. by right.
      * intros bs Hbs. apply emits_ret. by constructor.
      * done.
    + done.
Qed.

End Logic.

(** ** Tasks and pools *)

(** The dictionary a pool fills: a device of the group is bound to its
    own value. *)
Lemma results_lookup {A} (v : string -> A) devices d
    (m0 : gmap string A) :
  fold_left (fun m kv => <[kv.1 := kv.2]> m) (zip devices (map v devices)) m0
    !! d = if decide (d ∈ devices) then Some (v d) else m0 !! d.
Proof.
  revert m0. induction devices as [|x devices IH]; intros m0.
  - by rewrite decide_False by apply not_elem_of_nil.
  - cbn [map zip zip_with fold_left]. rewrite IH. cbn [fst snd].
    destruct (decide (d ∈ devices)) as [Hin|Hnin].
    + rewrite decide_True; [done|by right].
    + destruct (decide (d = x)) as [->|Hne].
      * rewrite lookup_insert_eq, decide_True; [done|by left].
      * rewrite lookup_insert_ne by done.
        rewrite decide_False; [done|]. rewrite elem_of_cons. tauto.
Qed.

Section Pools.
Variable net : string -> device.

Lemma emits_task {A} st device_ip (m : session A)
    (P : event -> Prop) (Q : result A -> Prop) :
  P (Task st device_ip (m []).2) -> Q (m []).1 ->
  emits (task st device_ip m) P Q.
Proof.
  intros HP HQ log. unfold task. destruct (m []) as [r calls]; simpl in *.
  exists [Task st device_ip calls]. split; [done|]. split; [|done].
  by apply Forall_singleton.
Qed.

(** A pool only adds tasks of its own stage. *)
Lemma for_each_stage {A} st devices (f : device -> session A) :
  emits (for_each net st devices f)
    (fun e => exists d calls, e = Task st d calls) (fun _ => True).
Proof.
  unfold for_each.
  eapply (emits_weaken _ (fun e => exists d calls, e = Task st d calls)).
  - apply (emits_mapM _ _ _ (fun _ _ => True)). intros d _.
    apply emits_task; [simpl; by eexists _, _|]. by destruct (fst (f (net d) [])).
  - done.
  - done.
Qed.

(** A pool of tasks that do not raise: the values, and one entry for
    each device in the order of the group. *)
Lemma for_each_total {A} st devices (f : device -> session A)
    (v : device -> A) log :
  (forall d, (f (net d) []).1 = Ok (v (net d))) ->
  for_each net st devices f log =
    (Ok (map (fun d => v (net d)) devices),
     log ++ map (fun d => Task st d (f (net d) []).2) devices).
Proof.
  intros Hv. unfold for_each. revert log.
  induction devices as [|d devices IH]; intros log; simpl.
  - by rewrite app_nil_r.
  - unfold mbind, prog_bind, task at 1. specialize (Hv d).
    destruct (f (net d) []) as [r calls]; simpl in *. subst r.
    rewrite IH. simpl. by rewrite <- app_assoc.
Qed.

End Pools.

(** ** The sessions of one device *)

(** A device with uncommitted changes, as [_check_pending_config] sees
    it: both readings succeed, both have lines, and a line of the
    candidate configuration is not in the committed one. *)
Definition pending_drift (dev : device) : Prop :=
  open_session dev = Ok () /\
  exists candidate committed,
    get_config dev Candidate = Ok (Some candidate) /\
    get_config dev Committed = Ok (Some committed) /\
    splitlines candidate <> [] /\ splitlines committed <> [] /\
    (list_to_set (splitlines candidate) ∖ list_to_set (splitlines committed)
       : gset string) <> ∅.

Lemma nonnil_true {A} (l : list A) : nonnil l = true <-> l <> [].
Proof. by destruct l. Qed.

Lemma check_pending_total dev log :
  exists b, (_check_pending_config dev log).1 = Ok b.
Proof.
  unfold _check_pending_config, catch, with_device, ensuring, call_out,
    text_splitlines, throw, mbind, prog_bind, mret, prog_ret.
  destruct (open_session dev) as [[]|?]; simpl; [|by eexists].
  destruct (get_config dev Candidate) as [[c|]|?]; simpl; try by eexists.
  destruct (get_config dev Committed) as [[m|]|?]; simpl; try by eexists.
  destruct (nonnil (splitlines c) && nonnil (splitlines m)); simpl;
    [|by eexists].
  case_bool_decide; simpl; by eexists.
Qed.

Lemma check_pending_true dev log :
  (_check_pending_config dev log).1 = Ok true <-> pending_drift dev.
Proof.
  unfold pending_drift, _check_pending_config, catch, with_device, ensuring,
    call_out, text_splitlines, throw, mbind, prog_bind, mret, prog_ret.
  destruct (open_session dev) as [[]|?]; simpl;
    [|split; [done|by intros [? _]]].
  destruct (get_config dev Candidate) as [[c|]|?]; simpl;
    try (split; [done|by intros (_ & ? & ? & ? & _)]).
  destruct (get_config dev Committed) as [[m|]|?]; simpl;
    try (split; [done|by intros (_ & ? & ? & ? & ? & _)]).
  destruct (nonnil (splitlines c) && nonnil (splitlines m)) eqn:E; simpl.
  - apply andb_true_iff in E as [Hc Hm].
    apply nonnil_true in Hc, Hm.
    case_bool_decide as Hd; simpl.
    + split; [|done]. intros _. split; [done|]. by exists c, m.
    + split; [done|]. intros (_ & c' & m' & [= <-] & [= <-] & _ & _ & Hne).
      done.
  - split; [done|]. intros (_ & c' & m' & [= <-] & [= <-] & Hc & Hm & _).
    apply nonnil_true in Hc, Hm. rewrite Hc, Hm in E. done.
Qed.

(** The boolean a task returns, for a task that does not raise. *)
Definition flag (r : result bool) : bool :=
  match r with Ok b => b | Raise _ => false end.

Lemma check_pending_flag dev :
  (_check_pending_config dev []).1 = Ok (flag (_check_pending_config dev []).1).
Proof. destruct (check_pending_total dev []) as [b ->]. done. Qed.

Lemma filter_pending (v : string -> bool) devices :
  nonnil (filter (fun p : string * bool => p.2 = true)
            (zip devices (map v devices))) = existsb v devices.
Proof.
  induction devices as [|d devices IH]; [done|].
  cbn [map zip zip_with existsb]. rewrite filter_cons. cbn [snd].
  destruct (v d) eqn:E.
  - by rewrite decide_True.
  - by rewrite decide_False.
Qed.

Lemma forallb_id_map {A} (f : A -> bool) l :
  forallb id (map f l) = forallb f l.
Proof. induction l as [|x l IH]; [done|]. simpl. by rewrite IH. Qed.

Section Gate.
Variable net : string -> device.

Lemma validate_device_state_eq devices log :
  _validate_device_state net devices log =
    (Ok (negb (existsb
                 (fun d => flag (_check_pending_config (net d) []).1) devices)),
     log ++ map (fun d => Task PendingCheck d
                            (_check_pending_config (net d) []).2) devices).
Proof.
  unfold _validate_device_state, mbind, prog_bind.
  rewrite (for_each_total net PendingCheck devices _check_pending_config
             (fun dev => flag (_check_pending_config dev []).1))
    by (intros d; apply check_pending_flag).
  rewrite (filter_pending (fun d => flag (_check_pending_config (net d) []).1)).
  by destruct (existsb _ devices).
Qed.

Lemma test_connection_total dev log :
  exists b, (Utils.test_connection dev log).1 = Ok b.
Proof.
  unfold Utils.test_connection, catch, with_device, ensuring, call_out,
    mbind, prog_bind, mret, prog_ret. simpl.
  destruct (tcp_open dev); simpl; [|by eexists].
  destruct (open_session dev) as [[]|?]; simpl; [|by eexists].
  destruct (facts_refresh dev) as [[]|?]; simpl; by eexists.
Qed.

Lemma test_connectivity_eq devices log :
  _test_connectivity net devices log =
    (Ok (forallb (fun d => flag (Utils.test_connection (net d) []).1) devices),
     log ++ map (fun d => Task Connectivity d
                            (Utils.test_connection (net d) []).2) devices).
Proof.
  unfold _test_connectivity, mbind, prog_bind.
  rewrite (for_each_total net Connectivity devices Utils.test_connection
             (fun dev => flag (Utils.test_connection dev []).1)).
  - unfold mret, prog_ret. by rewrite forallb_id_map.
  - intros d. by destruct (test_connection_total (net d) []) as [b ->].
Qed.

End Gate.

Lemma warn_skipped skipped (log : list call) :
  mapM (fun line => call_out (WarnSkipped line) (Ok ())) skipped log =
    (Ok (map (fun _ => ()) skipped), log ++ map WarnSkipped skipped).
Proof.
  revert log. induction skipped as [|x l IH]; intros log; simpl.
  - by rewrite app_nil_r.
  - unfold mbind, prog_bind, call_out at 1. rewrite IH. simpl.
    by rewrite <- app_assoc.
Qed.

Ltac run_session :=
  unfold catch, with_device, with_config, ensuring, call_out, text_splitlines,
    throw, lift, mbind, prog_bind, mret, prog_ret; simpl.


Lemma create_backup_eq dev log :
  exists b calls,
    Utils.create_backup dev log = (Ok b, log ++ calls) /\
    (calls = [RpcGetConfig Active] \/ calls = [RpcGetConfig Active; BackupWrite])
    /\ (b = true -> calls = [RpcGetConfig Active; BackupWrite]).
Proof.
  unfold Utils.create_backup. run_session.
  destruct (get_config dev Active) as [[text|]|e]; simpl.
  - destruct (write_backup dev text) as [[]|e]; simpl;
      eexists _, _; (split; [by rewrite <- app_assoc|]); split; auto; done.
  - eexists _, _; (split; [by rewrite <- app_assoc|]); split; auto; done.
  - eexists _, _; split; [done|]. split; auto; done.
Qed.

Lemma push_locked_value dev config_content operation log :
  (push_locked dev config_content operation log).1 = Ok None ->
  operation = Compare.
Proof.
  unfold push_locked.
  destruct (_convert_set_to_delete config_content) as [delete_config skipped].
  destruct operation; try done; run_session;
    try rewrite warn_skipped; simpl;
    repeat (case_match; simpl; try rewrite warn_skipped; simpl);
    simplify_eq/=; done.
Qed.

Lemma push_returns dev config_content operation backup log :
  operation <> Compare ->
  exists success message,
    (_push_config_to_device dev config_content operation backup log).1
      = Ok (Some (success, message)).
Proof.
  intros Hop. unfold _push_config_to_device.
  pose proof (push_locked_value dev config_content operation) as Hlocked.
  run_session. destruct (open_session dev) as [[]|e]; simpl.
  - destruct backup.
    + destruct (create_backup_eq dev (log ++ [DevOpen]))
        as (b & calls & -> & _). simpl. destruct b; simpl.
      * specialize (Hlocked ((log ++ [DevOpen]) ++ calls)).
        destruct (push_locked _ _ _ _) as [[[[b m]|]|e] l]; simpl in *.
        -- by eexists _, _.
        -- by destruct Hop; apply Hlocked.
        -- destruct e; simpl; by eexists _, _.
      * by eexists _, _.
    + specialize (Hlocked (log ++ [DevOpen])).
      destruct (push_locked _ _ _ _) as [[[[b m]|]|e] l]; simpl in *.
      * by eexists _, _.
      * by destruct Hop; apply Hlocked.
      * destruct e; simpl; by eexists _, _.
  - destruct e; simpl; by eexists _, _.
Qed.

Lemma emits_bind_any {S A B} (m : prog (list S) A) (k : A -> prog (list S) B)
    (P : S -> Prop) (Q : result B -> Prop) :
  emits m P (fun _ => True) ->
  (forall a, emits (k a) P Q) ->
  (forall e, Q (Raise e)) ->
  emits (m ≫= k) P Q.
Proof. intros Hm Hk He. eapply emits_bind; eauto. Qed.

(** The entries whose stage, for a task, is one of [stages]. *)
Definition from_stages (stages : list stage) (e : event) : Prop :=
  match e with
  | Task st _ _ => st ∈ stages
  | Report _ => True
  end.

Section Stages.
Variable net : string -> device.
Variable ratio : string -> string -> Q.
Variable set_order : gset string -> list string.

Lemma for_each_from {A} st stages devices (f : device -> session A) :
  st ∈ stages ->
  emits (for_each net st devices f) (from_stages stages) (fun _ => True).
Proof.
  intros Hin. eapply emits_weaken; [apply for_each_stage| |done].
  by intros e (d & calls & ->).
Qed.



Lemma validate_device_state_from stages devices :
  PendingCheck ∈ stages ->
  emits (_validate_device_state net devices) (from_stages stages)
    (fun _ => True).
Proof.
  intros Hin. unfold _validate_device_state.
  apply emits_bind_any; [|intros|done].
  - by apply for_each_from.
  - case_match; by apply emits_ret.
Qed.




End Stages.

Lemma evaluate_config_status_true status operation :
  _evaluate_config_status status operation = true.
Proof.
  unfold _evaluate_config_status.
  by repeat case_match.
Qed.

Section Execute.
Variable net : string -> device.
Variable ratio : string -> string -> Q.
Variable set_order : gset string -> list string.




Lemma execute_invalid_group self group config_file operation
    dry_run parallel backup e log :
  _validate_group self group = Raise e ->
  execute net ratio set_order self group config_file operation
    dry_run parallel backup log = (Ok false, log).
Proof.
  intros Hg. unfold execute, catch, lift, mbind, prog_bind. by rewrite Hg.
Qed.

End Execute.

(** A device for which a reading of the pending check fails or has no
    line: the session does not open, a reading raises or has no text,
    or one of the two texts has no line. *)
Definition reading_fails_or_empty (dev : device) : Prop :=
  match open_session dev, get_config dev Candidate with
  | Ok _, Ok (Some candidate) =>
      match get_config dev Committed with
      | Ok (Some committed) =>
          splitlines candidate = [] \/ splitlines committed = []
      | _ => True
      end
  | _, _ => True
  end.

Lemma reading_fails_not_pending dev :
  reading_fails_or_empty dev -> ~ pending_drift dev.
Proof.
  unfold reading_fails_or_empty.
  intros H (Ho & c & m & Hc & Hm & Hcl & Hml & _).
  rewrite Ho, Hc, Hm in H. by destruct H.
Qed.

Lemma check_pending_false dev log :
  ~ pending_drift dev -> (_check_pending_config dev log).1 = Ok false.
Proof.
  intros Hn. destruct (check_pending_total dev log) as [[|] Hb]; [|done].
  by apply check_pending_true in Hb.
Qed.

(** The value of a computation that does not raise. *)
Definition value {A} (dflt : A) (r : result A) : A :=
  match r with Ok a => a | Raise _ => dflt end.

Lemma total_value {A} (dflt : A) (r : result A) :
  (exists a, r = Ok a) -> r = Ok (value dflt r).
Proof. by intros [a ->]. Qed.

Section Pipeline.
Variable net : string -> device.
Variable ratio : string -> string -> Q.
Variable set_order : gset string -> list string.

Lemma check_existing_total config_content dev log :
  exists r, (_check_existing_config set_order config_content dev log).1 = Ok r.
Proof.
  unfold _check_existing_config. run_session.
  destruct (open_session dev) as [[]|?]; simpl; [|by eexists].
  destruct (get_config dev Active) as [?|?]; simpl; by eexists.
Qed.

Lemma validate_configuration_status_total devices config_content log :
  exists status,
    _validate_configuration_status net set_order devices config_content log =
      (Ok status,
       log ++ map (fun d => Task ConfigStatus d
                     (_check_existing_config set_order config_content
                        (net d) []).2) devices).
Proof.
  unfold _validate_configuration_status, mbind at 1, prog_bind at 1.
  set (f := fun dev : device => _ ≫= _).
  assert (Hf : forall dev, exists r,
             f dev [] = (Ok r, (_check_existing_config set_order
                                  config_content dev []).2)).
  { intros dev. unfold f, mbind, prog_bind.
    destruct (check_existing_total config_content dev []) as [[[h e] n] Hr].
    destruct (_check_existing_config _ _ _ _) as [r calls].
    simpl in Hr. subst r. by eexists. }
  rewrite (for_each_total net ConfigStatus devices f
             (fun dev => value {| has_existing := false; existing_lines := [];
                                  new_lines := []; total_proposed := 0;
                                  existing_count := 0; new_count := 0 |}
                           (f dev []).1)).
  - eexists. unfold mret, prog_ret. f_equal. f_equal. apply map_ext.
    intros d. by destruct (Hf (net d)) as [r ->].
  - intros d. apply total_value. destruct (Hf (net d)) as [r ->]. by eexists.
Qed.



End Pipeline.

(** ** A push with a backup *)





Lemma create_backup_true dev :
  (Utils.create_backup dev []).1 = Ok true <->
  exists text, get_config dev Active = Ok (Some text)
               /\ write_backup dev text = Ok ().
Proof.
  unfold Utils.create_backup. run_session.
  destruct (get_config dev Active) as [[text|]|e]; simpl.
  - destruct (write_backup dev text) as [[]|e] eqn:E; simpl.
    + split; [|done]. intros _. by exists text.
    + split; [done|]. intros (t & [= <-] & Hw). by rewrite E in Hw.
  - split; [done|]. by intros (t & ? & _).
  - split; [done|]. by intros (t & ? & _).
Qed.


(** ** Strings *)

(** Every character of [s] satisfies [p]. *)
Fixpoint every (p : ascii -> bool) (s : string) : bool :=
  match s with
  | EmptyString => true
  | String c r => p c && every p r
  end.

Definition not_space (c : ascii) : bool := negb (isspace c).
Definition not_chr (d c : ascii) : bool := negb (Ascii.eqb c d).

(** A word: what [split] returns, a string that is not empty and has
    no white space. *)
Definition word (w : string) : Prop := w <> "" /\ every not_space w = true.

Lemma every_impl (p q : ascii -> bool) s :
  (forall c, p c = true -> q c = true) -> every p s = true -> every q s = true.
Proof.
  intros Hpq. induction s as [|c r IH]; [done|]. simpl.
  rewrite !andb_true_iff. intros [Hc Hr]. split; [by apply Hpq|by apply IH].
Qed.

Lemma every_and (p q : ascii -> bool) s :
  every (fun c => p c && q c) s = every p s && every q s.
Proof.
  induction s as [|c r IH]; [done|]. simpl. rewrite IH.
  destruct (p c), (q c), (every p r), (every q r); done.
Qed.

Lemma every_app p s t : every p (s +:+ t) = every p s && every p t.
Proof.
  induction s as [|c r IH]; [done|]. simpl. by rewrite IH, andb_assoc.
Qed.

Lemma mem_every c s : mem c s = false <-> every (not_chr c) s = true.
Proof.
  induction s as [|d r IH]; [done|]. simpl. unfold not_chr at 1.
  rewrite orb_false_iff, andb_true_iff, negb_true_iff. tauto.
Qed.

Lemma every_lstrip p s : every p s = true -> every p (lstrip s) = true.
Proof.
  induction s as [|c r IH]; [done|]. simpl. rewrite andb_true_iff.
  intros [Hc Hr]. destruct (isspace c); [by apply IH|]. simpl.
  by rewrite Hc, Hr.
Qed.

Lemma every_rstrip p s : every p s = true -> every p (rstrip s) = true.
Proof.
  induction s as [|c r IH]; [done|]. simpl. rewrite andb_true_iff.
  intros [Hc Hr]. specialize (IH Hr).
  destruct (rstrip r) as [|c' r'].
  - destruct (isspace c); [done|]. simpl. by rewrite Hc.
  - simpl in *. by rewrite Hc, IH.
Qed.

Lemma every_strip p s : every p s = true -> every p (strip s) = true.
Proof. intros H. by apply every_lstrip, every_rstrip. Qed.

(** *** [strip] *)

Lemma lstrip_head s :
  match lstrip s with
  | EmptyString => True
  | String c _ => isspace c = false
  end.
Proof.
  induction s as [|c r IH]; [done|]. simpl.
  destruct (isspace c) eqn:E; [done|]. by simpl.
Qed.

Lemma lstrip_fixed c r : isspace c = false -> lstrip (String c r) = String c r.
Proof. intros H. simpl. by rewrite H. Qed.

Lemma rstrip_empty s : rstrip s = "" -> every isspace s = true.
Proof.
  induction s as [|c r IH]; [done|]. simpl.
  destruct (rstrip r) as [|c' r']; [|done].
  destruct (isspace c); [|done]. intros _. by rewrite IH.
Qed.

Lemma every_space_rstrip s : every isspace s = true -> rstrip s = "".
Proof.
  induction s as [|c r IH]; [done|]. simpl. rewrite andb_true_iff.
  intros [Hc Hr]. by rewrite IH, Hc.
Qed.

Lemma every_space_lstrip s : every isspace s = true -> lstrip s = "".
Proof.
  induction s as [|c r IH]; [done|]. simpl. rewrite andb_true_iff.
  intros [Hc Hr]. by rewrite Hc, IH.
Qed.

Lemma lstrip_empty s : lstrip s = "" -> every isspace s = true.
Proof.
  induction s as [|c r IH]; [done|]. simpl.
  destruct (isspace c) eqn:E; [|done]. intros H. by rewrite IH.
Qed.

Lemma rstrip_spaces s : every isspace (rstrip s) = true -> every isspace s = true.
Proof.
  induction s as [|c r IH]; [done|]. simpl.
  destruct (rstrip r) as [|c' r'] eqn:E.
  - destruct (isspace c) eqn:Ec; simpl; [|by rewrite Ec].
    intros _. by rewrite (rstrip_empty r E).
  - simpl. rewrite !andb_true_iff. intros (Hc & Hr). split; [done|].
    apply IH. simpl. by apply andb_true_iff.
Qed.

Lemma strip_empty s : strip s = "" <-> every isspace s = true.
Proof.
  unfold strip. split.
  - intros H. by apply rstrip_spaces, lstrip_empty.
  - intros H. by rewrite (every_space_rstrip s H).
Qed.

Lemma rstrip_length s : String.length (rstrip s) <= String.length s.
Proof.
  induction s as [|c r IH]; [done|]. simpl.
  destruct (rstrip r) as [|c' r']; [destruct (isspace c)|]; simpl in *; lia.
Qed.

Lemma lstrip_length s : String.length (lstrip s) <= String.length s.
Proof.
  induction s as [|c r IH]; [done|]. simpl.
  destruct (isspace c); simpl; lia.
Qed.

Lemma rstrip_full s :
  String.length (rstrip s) = String.length s -> rstrip s = s.
Proof.
  induction s as [|c r IH]; [done|]. simpl.
  destruct (rstrip r) as [|c' r'] eqn:E.
  - destruct (isspace c); simpl; [done|]. destruct r; [done|]. simpl. lia.
  - simpl in *. intros H. f_equal. apply IH. lia.
Qed.

Lemma strip_fixed s : strip s = s -> rstrip s = s /\ lstrip s = s.
Proof.
  intros H. assert (Hr : rstrip s = s).
  { apply rstrip_full. pose proof (rstrip_length s).
    pose proof (lstrip_length (rstrip s)). unfold strip in H.
    rewrite H in *. lia. }
  split; [done|]. unfold strip in H. by rewrite Hr in H.
Qed.

Lemma rstrip_tail c r :
  rstrip (String c r) = String c r -> r = "" \/ (r <> "" /\ rstrip r = r).
Proof.
  simpl. destruct r as [|c' r']; [by left|].
  destruct (rstrip (String c' r')) as [|c'' r''] eqn:E.
  - by destruct (isspace c).
  - intros [= -> ->]. right. by split.
Qed.

Lemma rstrip_app s t :
  t <> "" -> rstrip t = t -> rstrip (s +:+ t) = s +:+ t.
Proof.
  intros Hne Ht. induction s as [|c r IH]; [done|].
  change (String c r +:+ t) with (String c (r +:+ t)).
  cbn [rstrip]. rewrite IH.
  destruct (r +:+ t) as [|c' r'] eqn:E; [|done].
  destruct r as [|a r]; [change (t = "") in E; congruence|].
  change (String a (r +:+ t) = "") in E. discriminate E.
Qed.

Lemma rstrip_word w : every not_space w = true -> rstrip w = w.
Proof.
  induction w as [|c r IH]; [done|]. simpl. rewrite andb_true_iff.
  intros [Hc Hr]. rewrite (IH Hr). unfold not_space in Hc.
  apply negb_true_iff in Hc. rewrite Hc. by destruct r.
Qed.

Lemma append_nil t : "" +:+ t = t.
Proof. done. Qed.

Lemma append_empty_r s : s +:+ "" = s.
Proof. induction s as [|c r IH]; [done|]. by rewrite <- IH at 2. Qed.

Lemma append_cons c s t : String c s +:+ t = String c (s +:+ t).
Proof. done. Qed.

Lemma startswith_nil s : startswith "" s = true.
Proof. by destruct s. Qed.

Lemma startswith_cons a p c r :
  startswith (String a p) (String c r) = Ascii.eqb a c && startswith p r.
Proof.
  unfold startswith.
  change (String.prefix (String a p) (String c r))
    with (if ascii_dec a c then String.prefix p r else false).
  destruct (ascii_dec a c) as [->|Hne].
  - by rewrite Ascii.eqb_refl.
  - apply Ascii.eqb_neq in Hne. by rewrite Hne.
Qed.

(** *** [split] and [join] *)

Lemma split_ws_spaces s : every isspace s = true -> split_ws s = [].
Proof.
  induction s as [|c r IH]; [done|]. simpl. rewrite andb_true_iff.
  intros [-> Hr]. by apply IH.
Qed.

Lemma split_ws_nil s : split_ws s = [] -> every isspace s = true.
Proof.
  induction s as [|c r IH]; [done|]. simpl.
  destruct (isspace c) eqn:Ec; [by simpl|].
  destruct r as [|c' r']; [done|].
  destruct (isspace c'); [done|]. by destruct (split_ws (String c' r')).
Qed.

(** The words of a text have no white space, are not empty, and their
    characters are characters of the text. *)
Lemma split_ws_words p s :
  every p s = true ->
  Forall (fun w => w <> "" /\ every (fun c => not_space c && p c) w = true)
    (split_ws s).
Proof.
  induction s as [|c r IH]; [constructor|].
  cbn [every]. rewrite andb_true_iff. intros [Hc Hr]. specialize (IH Hr).
  cbn [split_ws]. destruct (isspace c) eqn:Ec; [done|].
  assert (Hone : String c "" <> ""
                 /\ every (fun c => not_space c && p c) (String c "") = true).
  { split; [done|]. simpl. unfold not_space. by rewrite Ec, Hc. }
  destruct r as [|c' r']; [by apply Forall_cons|].
  destruct (isspace c') eqn:Ec'; [by apply Forall_cons|].
  destruct (split_ws (String c' r')) as [|w ws]; [by apply Forall_cons|].
  inversion IH as [|? ? [Hw1 Hw2] Hws]; subst. constructor; [|done].
  split; [done|]. simpl. unfold not_space at 1. by rewrite Ec, Hc, Hw2.
Qed.

Lemma split_ws_word w s :
  word w ->
  match s with EmptyString => True | String c _ => isspace c = true end ->
  split_ws (w +:+ s) = w :: split_ws s.
Proof.
  intros [Hne Hw] Hs. induction w as [|c r IH]; [done|].
  simpl in Hw. apply andb_true_iff in Hw as [Hc Hr].
  unfold not_space in Hc. apply negb_true_iff in Hc.
  rewrite append_cons. cbn [split_ws]. rewrite Hc.
  destruct r as [|c' r'].
  - rewrite append_nil. destruct s as [|d s']; [done|]. by rewrite Hs.
  - rewrite append_cons. rewrite append_cons in IH.
    assert (Hc' : isspace c' = false).
    { simpl in Hr. apply andb_true_iff in Hr as [Hc' _].
      by apply negb_true_iff in Hc'. }
    rewrite Hc'. by rewrite IH.
Qed.

Lemma join_cons sep w ws :
  ws <> [] -> join sep (w :: ws) = w +:+ sep +:+ join sep ws.
Proof. by destruct ws. Qed.

Lemma split_ws_join ws :
  Forall word ws -> split_ws (join " " ws) = ws.
Proof.
  induction 1 as [|w ws Hw Hws IH]; [done|].
  destruct ws as [|w' ws'].
  - change (join " " [w]) with w. rewrite <- (append_empty_r w) at 1.
    by rewrite split_ws_word.
  - rewrite join_cons by done. rewrite (split_ws_word w _ Hw) by done.
    f_equal. exact IH.
Qed.

Lemma every_join p sep ws :
  every p sep = true -> Forall (fun w => every p w = true) ws ->
  every p (join sep ws) = true.
Proof.
  intros Hsep. induction 1 as [|w ws Hw Hws IH]; [done|].
  destruct ws as [|w' ws']; [done|].
  rewrite join_cons by done. by rewrite !every_app, Hw, Hsep, IH.
Qed.

Lemma join_nonempty sep w ws : w <> "" -> join sep (w :: ws) <> "".
Proof.
  intros Hw. destruct ws as [|w' ws']; [done|].
  rewrite join_cons by done. destruct w; [done|]. by rewrite append_cons.
Qed.

(** A line made of words, one blank between two of them, is trimmed. *)
Lemma strip_join ws :
  Forall word ws -> strip (join " " ws) = join " " ws.
Proof.
  intros Hws. destruct ws as [|w ws]; [done|].
  assert (Hr : rstrip (join " " (w :: ws)) = join " " (w :: ws)).
  { clear -Hws. induction Hws as [|v vs [Hne Hv] Hvs IH]; [done|].
    destruct vs as [|v' vs']; [by apply rstrip_word|].
    rewrite join_cons by done. apply rstrip_app.
    - done.
    - apply rstrip_app; [|exact IH].
      inversion Hvs as [|? ? [Hne' _] _]; subst. by apply join_nonempty. }
  unfold strip. rewrite Hr.
  inversion Hws as [|? ? [Hne Hw] _]; subst.
  destruct w as [|c r]; [done|].
  simpl in Hw. apply andb_true_iff in Hw as [Hc _].
  unfold not_space in Hc. apply negb_true_iff in Hc.
  destruct ws as [|w' ws'].
  - by apply lstrip_fixed.
  - rewrite join_cons by done. rewrite append_cons. by apply lstrip_fixed.
Qed.

(** *** [split] on a separator *)

Lemma split_on_one sep l : mem sep l = false -> split_on sep l = [l].
Proof.
  induction l as [|c r IH]; [done|]. simpl. rewrite orb_false_iff.
  intros [Hc Hr]. by rewrite Hc, IH.
Qed.

Lemma split_on_app sep l s :
  mem sep l = false ->
  split_on sep (l +:+ String sep s) = l :: split_on sep s.
Proof.
  induction l as [|c r IH].
  - intros _. rewrite append_nil. simpl. by rewrite Ascii.eqb_refl.
  - simpl. rewrite orb_false_iff. intros [Hc Hr]. by rewrite Hc, IH.
Qed.

Lemma split_on_join sep ls :
  ls <> [] -> Forall (fun l => mem sep l = false) ls ->
  split_on sep (join (String sep "") ls) = ls.
Proof.
  intros Hne Hls. induction Hls as [|l ls Hl Hls IH]; [done|].
  destruct ls as [|l' ls']; [by apply split_on_one|].
  rewrite join_cons by done. rewrite append_cons, append_nil.
  rewrite split_on_app by done. f_equal. by apply IH.
Qed.

Lemma split_on_head sep s : every (not_chr sep) (hd "" (split_on sep s)) = true.
Proof.
  induction s as [|c r IH]; [done|]. simpl.
  destruct (Ascii.eqb c sep) eqn:E; [done|].
  destruct (split_on sep r) as [|w ws]; simpl in *.
  - unfold not_chr. by rewrite E.
  - unfold not_chr at 1. by rewrite E, IH.
Qed.

(** ** Cleaning *)


(** A word of a cleaned line: a word without ['#']. *)
Definition tidy_word (w : string) : Prop :=
  w <> "" /\ every (fun c => not_space c && not_chr hash c) w = true.

(** A cleaned line: words without ['#'], one blank between two. *)
Definition tidy (l : string) : Prop :=
  exists ws, ws <> [] /\ Forall tidy_word ws /\ l = join " " ws.

Lemma nonempty_true s : nonempty s = true <-> s <> "".
Proof.
  unfold nonempty. rewrite negb_true_iff. split.
  - intros H ->. done.
  - intros H. by apply String.eqb_neq.
Qed.

Lemma tidy_word_word w : tidy_word w -> word w.
Proof.
  intros [Hne Hw]. split; [done|].
  rewrite every_and in Hw. by apply andb_true_iff in Hw as [? _].
Qed.

Lemma tidy_words_words ws : Forall tidy_word ws -> Forall word ws.
Proof. intros H. eapply Forall_impl; [exact H|apply tidy_word_word]. Qed.

Lemma strip_not_spaces u : strip u <> "" -> every isspace (strip u) = false.
Proof.
  unfold strip. pose proof (lstrip_head (rstrip u)) as H.
  destruct (lstrip (rstrip u)) as [|c r]; [done|]. intros _. simpl.
  by rewrite H.
Qed.

Lemma tidy_of_split u :
  strip u <> "" -> every (not_chr hash) (strip u) = true ->
  tidy (join " " (split_ws (strip u))).
Proof.
  intros Hne Hh. exists (split_ws (strip u)). split; [|split; [|done]].
  - intros Hnil. apply split_ws_nil in Hnil.
    by rewrite (strip_not_spaces u Hne) in Hnil.
  - by apply split_ws_words.
Qed.

Lemma clean_line_tidy x y : clean_line x = Some y -> tidy y.
Proof.
  unfold clean_line.
  destruct (nonempty (strip x)) eqn:Hne; simpl; [|done].
  apply nonempty_true in Hne.
  destruct (startswith "#" (strip x)); [done|].
  destruct (mem hash (strip x)) eqn:Hm.
  - destruct (nonempty (strip (hd "" (split_on hash (strip x))))) eqn:Hne2;
      simpl; [|done].
    apply nonempty_true in Hne2. intros [= <-].
    apply tidy_of_split; [done|]. apply every_strip, split_on_head.
  - intros [= <-]. apply tidy_of_split; [done|]. by apply mem_every.
Qed.

Lemma tidy_head y :
  tidy y -> exists c r, y = String c r /\ not_chr hash c = true.
Proof.
  intros (ws & Hne & Hws & ->). destruct ws as [|w ws]; [done|].
  inversion Hws as [|? ? [Hw Hev] _]; subst.
  destruct w as [|c r]; [done|]. simpl in Hev.
  apply andb_true_iff in Hev as [Hc _]. apply andb_true_iff in Hc as [_ Hc].
  destruct ws as [|w' ws'].
  - by exists c, r.
  - rewrite join_cons by done. rewrite append_cons. by eexists _, _.
Qed.

Lemma tidy_every p y :
  p " "%char = true ->
  (forall c, not_space c && not_chr hash c = true -> p c = true) ->
  tidy y -> every p y = true.
Proof.
  intros Hsp Hp (ws & Hne & Hws & ->). apply every_join.
  - simpl. by rewrite Hsp.
  - eapply Forall_impl; [exact Hws|]. intros w [_ Hw].
    by apply (every_impl _ _ _ Hp).
Qed.

Lemma tidy_no_hash y : tidy y -> mem hash y = false.
Proof.
  intros H. apply mem_every. apply tidy_every; [done| |done].
  intros c Hc. by apply andb_true_iff in Hc as [_ ?].
Qed.

Lemma tidy_no_nl y : tidy y -> mem nl y = false.
Proof.
  intros H. apply mem_every. apply tidy_every; [done| |done].
  intros c Hc. apply andb_true_iff in Hc as [Hc _].
  unfold not_chr. apply negb_true_iff. apply not_true_iff_false.
  intros Heq. apply Ascii.eqb_eq in Heq. subst c. done.
Qed.

Lemma tidy_clean_line y : tidy y -> clean_line y = Some y.
Proof.
  intros Hy. pose proof (tidy_no_hash y Hy) as Hh.
  destruct (tidy_head y Hy) as (c & r & Hcr & Hc).
  destruct Hy as (ws & Hne & Hws & ->).
  pose proof (tidy_words_words ws Hws) as Hww.
  unfold clean_line. rewrite strip_join by done.
  rewrite Hh. rewrite split_ws_join by done.
  assert (Hn : nonempty (join " " ws) = true).
  { apply nonempty_true. by rewrite Hcr. }
  assert (Hs : startswith "#" (join " " ws) = false).
  { unfold not_chr, hash in Hc. apply negb_true_iff in Hc.
    by rewrite Hcr, startswith_cons, (Ascii.eqb_sym _ c), Hc. }
  by rewrite Hn, Hs.
Qed.

Lemma omap_fixed {A} (f : A -> option A) l :
  Forall (fun x => f x = Some x) l -> omap f l = l.
Proof.
  induction 1 as [|x l Hx Hl IH]; [done|]. simpl. rewrite Hx.
  f_equal. exact IH.
Qed.

Lemma cleaned_lines_tidy content :
  Forall tidy (omap clean_line (split_on nl content)).
Proof.
  apply Forall_forall. intros y Hy.
  apply list_elem_of_omap in Hy as (x & _ & Hx). by eapply clean_line_tidy.
Qed.

Lemma clean_tidy_lines ls :
  Forall tidy ls ->
  _clean_config_content (join (String nl "") ls) = join (String nl "") ls.
Proof.
  intros Hls. unfold _clean_config_content.
  destruct ls as [|l ls']; [done|]. rewrite split_on_join.
  - rewrite omap_fixed; [done|].
    eapply Forall_impl; [exact Hls|]. apply tidy_clean_line.
  - done.
  - eapply Forall_impl; [exact Hls|]. apply tidy_no_nl.
Qed.

(** C7: the cleaning function is idempotent: for every text [x],
    cleaning the cleaned text gives the cleaned text. *)
Theorem clean_idempotent (x : string) :
  _clean_config_content (_clean_config_content x) = _clean_config_content x.
Proof.
  unfold _clean_config_content at 2 3. apply clean_tidy_lines.
  apply cleaned_lines_tidy.
Qed.

(** ** The rollback conversion *)









Lemma split_on_no_sep sep s :
  Forall (fun l => mem sep l = false) (split_on sep s).
Proof.
  induction s as [|c r IH]; [by repeat constructor|]. simpl.
  destruct (Ascii.eqb c sep) eqn:E; [by constructor|].
  destruct (split_on sep r) as [|w ws].
  - repeat constructor. simpl. by rewrite E.
  - inversion IH; subst. constructor; [|done]. simpl. by rewrite E.
Qed.





(** ** The pending check and the backup *)

(** C9: when a reading of the pending check raises, or a reading has
    no line, the check answers that the device has no pending
    configuration, so the gate [_validate_device_state] lets the run go
    on; the check answers true only after both readings succeeded with
    lines and a line of the candidate is not in the committed text. *)
Theorem pending_check_fails_open
    (net : string -> device) (devices : list string) (log : list event) :
  (forall d, d ∈ devices -> reading_fails_or_empty (net d)) ->
  (forall d calls, d ∈ devices ->
     (_check_pending_config (net d) calls).1 = Ok false)
  /\ (_validate_device_state net devices log).1 = Ok true
  /\ (forall dev calls,
        (_check_pending_config dev calls).1 = Ok true -> pending_drift dev).
Proof.
  intros Hall. split; [|split].
  - intros d calls Hd.
    by apply check_pending_false, reading_fails_not_pending, Hall.
  - rewrite validate_device_state_eq. simpl. f_equal.
    apply negb_true_iff, not_true_iff_false. intros Hex.
    apply existsb_exists in Hex as (d & Hd & Hf).
    apply list_elem_of_In in Hd.
    rewrite (check_pending_false (net d) []) in Hf; [done|].
    by apply reading_fails_not_pending, Hall.
  - intros dev calls. apply check_pending_true.
Qed.



(** ** Syntax validation *)

Lemma set_syntax_errors line line_num errors warnings :
  exists added,
    (_validate_set_command_syntax line line_num errors warnings).1.2
      = errors ++ added.
Proof.
  unfold _validate_set_command_syntax.
  destruct (length _ <? 3); [by eexists [_]|].
  destruct (negb (_ mod 2 =? 0)); [by eexists [_]|].
  destruct (negb (_ =? _)); [by eexists [_]|].
  exists []. simpl. by rewrite app_nil_r.
Qed.

(** One turn of the loop of [_validate_config_syntax] keeps the errors
    collected so far. *)
Lemma validate_lines_step line_num line rest errors warnings :
  exists errors' warnings',
    validate_lines line_num (line :: rest) errors warnings
      = validate_lines (S line_num) rest errors' warnings'
    /\ forall e, e ∈ errors -> e ∈ errors'.
Proof.
  cbn [validate_lines].
  destruct (negb (nonempty (strip line))); [by eexists _, _|].
  destruct (negb (str_in _ _)).
  { eexists _, _. split; [done|]. intros e He. apply elem_of_app. by left. }
  destruct (String.eqb _ "set"); [|by eexists _, _].
  destruct (length (split_ws line) <? 2).
  { eexists _, _. split; [done|]. intros e He. apply elem_of_app. by left. }
  destruct (set_syntax_errors line line_num errors warnings) as [added Ha].
  destruct (_validate_set_command_syntax _ _ _ _) as [[ok errs] warns].
  simpl in Ha. subst errs. eexists _, _. split; [done|].
  intros e He. apply elem_of_app. by left.
Qed.

Lemma validate_lines_mono lines line_num errors warnings e :
  e ∈ errors -> e ∈ (validate_lines line_num lines errors warnings).1.
Proof.
  revert line_num errors warnings.
  induction lines as [|line rest IH]; intros line_num errors warnings He;
    [done|].
  destruct (validate_lines_step line_num line rest errors warnings)
    as (errors' & warnings' & -> & Hmono).
  apply IH. by apply Hmono.
Qed.

(** The errors a [set] line can add for the line number [k]; with three
    tokens or more it is one of the last two. *)
Definition set_line_error (line : string) (k : nat) (e : syntax_error) : Prop :=
  (e = IncompleteSet k \/ e = SetTooShort k
   \/ e = UnmatchedQuotes k \/ e = UnmatchedBrackets k)
  /\ (3 <= length (split_ws line) ->
      e = UnmatchedQuotes k \/ e = UnmatchedBrackets k).

Lemma first_word_strip line :
  hd "" (split_ws line) <> "" -> nonempty (strip line) = true.
Proof.
  intros Hw. apply nonempty_true. intros Hs. apply strip_empty in Hs.
  by rewrite (split_ws_spaces line Hs) in Hw.
Qed.

Lemma validate_lines_at lines i line line_num errors warnings :
  lines !! i = Some line ->
  lower (hd "" (split_ws line)) = "set" ->
  count dquote line mod 2 <> 0 \/ count "["%char line <> count "]"%char line ->
  exists e, e ∈ (validate_lines line_num lines errors warnings).1
            /\ set_line_error line (line_num + i) e.
Proof.
  revert i line_num errors warnings.
  induction lines as [|l rest IH]; intros i line_num errors warnings Hi Hw Hbad;
    [done|].
  destruct i as [|i]; simpl in Hi.
  - injection Hi as ->. rewrite Nat.add_0_r. cbn [validate_lines].
    rewrite first_word_strip by (intros H0; by rewrite H0 in Hw).
    rewrite Hw. simpl negb. cbn match.
    change (str_in "set" valid_set_commands) with true.
    change (String.eqb "set" "set") with true. cbn match. simpl negb.
    cbn match.
    unfold set_line_error.
    destruct (length (split_ws line) <? 2) eqn:E2.
    { apply Nat.ltb_lt in E2. exists (IncompleteSet line_num). split.
      - apply validate_lines_mono, elem_of_app. right. by left.
      - split; [auto|lia]. }
    unfold _validate_set_command_syntax.
    destruct (length (split_ws line) <? 3) eqn:E3.
    { apply Nat.ltb_lt in E3. exists (SetTooShort line_num). split.
      - apply validate_lines_mono, elem_of_app. right. by left.
      - split; [auto|lia]. }
    destruct (count dquote line mod 2 =? 0) eqn:Eq; simpl negb; cbn match.
    + destruct (count "["%char line =? count "]"%char line) eqn:Eb;
        simpl negb; cbn match.
      * apply Nat.eqb_eq in Eq, Eb. by destruct Hbad.
      * exists (UnmatchedBrackets line_num). split.
        -- apply validate_lines_mono, elem_of_app. right. by left.
        -- split; auto.
    + exists (UnmatchedQuotes line_num). split.
      * apply validate_lines_mono, elem_of_app. right. by left.
      * split; auto.
  - destruct (validate_lines_step line_num l rest errors warnings)
      as (errors' & warnings' & -> & _).
    destruct (IH i (S line_num) errors' warnings' Hi Hw Hbad) as (e & He & Hk).
    exists e. split; [done|]. by rewrite <- Nat.add_succ_comm.
Qed.

(** C3, as amended: for every cleaned document and every line of it
    whose first token is the verb [set] (in any case), an odd number of
    double quotes or unequal counts of '[' and ']' on the line is a hard
    error: an error is collected for the line (the quote or the bracket
    error when the line has three tokens or more) and the validator
    raises, so no cleaned document is returned. What it raises is the
    [ValueError] with the number of errors when the words that the
    error messages show are plain text. The document is any text given
    to the syntax validation; the last part is about the file that it is
    cleaned from. *)
Theorem set_line_quotes_and_brackets (content : string) (i : nat)
    (line : string) :
  split_on nl content !! i = Some line ->
  lower (hd "" (split_ws line)) = "set" ->
  count dquote line mod 2 <> 0 \/ count "["%char line <> count "]"%char line ->
  (exists e, e ∈ (syntax_report content).1 /\ set_line_error line (S i) e)
  /\ (exists e, _validate_config_syntax content = Raise e)
  /\ (Forall (fun e => plain (shown_error e) = true) (syntax_report content).1 ->
      _validate_config_syntax content
      = Raise (ValueError ("Configuration validation failed with "
                           +:+ pretty (length (syntax_report content).1)
                           +:+ " errors")))
  /\ forall raw, _clean_config_content raw = content ->
       exists e, validate_and_clean_config (Content raw) = Raise e.
Proof.
  intros Hi Hw Hbad.
  destruct (validate_lines_at _ i line 1 [] [] Hi Hw Hbad) as (e & He & Hk).
  assert (Hraise : _validate_config_syntax content
                   = Raise (ValueError
                              ("Configuration validation failed with "
                               +:+ pretty (length (syntax_report content).1)
                               +:+ " errors"))).
  { unfold _validate_config_syntax, syntax_report.
    destruct (validate_lines 1 (split_on nl content) [] []) as [errs warns].
    simpl in He. destruct errs; [|done]. by apply elem_of_nil in He. }
  split; [by exists e|]. split; [by eexists|]. split; [done|].
  intros raw <-. unfold validate_and_clean_config.
  destruct (negb (nonempty (strip raw))); [by eexists|].
  rewrite Hraise. by eexists.
Qed.

(** ** The diff engine *)

Section Diff.
Variable ratio : string -> string -> Q.
Variable set_order : gset string -> list string.

(** Python iterates a set in some order, each element once. *)
Hypothesis set_order_elements : forall s, set_order s ≡ₚ elements s.

Lemma set_order_in s x : x ∈ set_order s <-> x ∈ s.
Proof. by rewrite set_order_elements, elem_of_elements. Qed.

Lemma set_order_nodup s : NoDup (set_order s).
Proof. rewrite set_order_elements. apply NoDup_elements. Qed.

(** What the inner loop has found so far, over the lines [seen]. *)
Definition best_ok (matched_lines2 : gset string) (line1 : string)
    (seen : list string) (best : option string * Q) : Prop :=
  match best.1 with
  | Some b =>
      b ∈ seen /\ (b ∉ matched_lines2)
      /\ similar_enough ratio line1 b = true /\ best.2 = ratio line1 b
  | None => True
  end.

Lemma best_candidate_ok matched_lines2 line1 seen list2 best :
  best_ok matched_lines2 line1 seen best ->
  best_ok matched_lines2 line1 (seen ++ list2)
    (fold_left (best_candidate ratio matched_lines2 line1) list2 best).
Proof.
  revert seen best. induction list2 as [|line2 list2 IH]; intros seen best Hb.
  - by rewrite app_nil_r.
  - cbn [fold_left]. rewrite (cons_middle line2 seen list2), app_assoc.
    apply IH. unfold best_candidate.
    assert (Hold : best_ok matched_lines2 line1 (seen ++ [line2]) best).
    { unfold best_ok in *. destruct best.1; [|done].
      destruct Hb as (? & ? & ? & ?). repeat split; try done.
      apply elem_of_app. by left. }
    case_bool_decide as Hm; [done|].
    destruct (similar_enough ratio line1 line2) eqn:Hs; [|done].
    destruct (Qlt_bool best.2 (ratio line1 line2)); [|done].
    unfold best_ok. simpl. repeat split; try done.
    apply elem_of_app. right. by left.
Qed.

Lemma good_match_ok matched_lines2 line1 seen best b :
  best_ok matched_lines2 line1 seen best -> good_match best = Some b ->
  b ∈ seen /\ (b ∉ matched_lines2) /\ similar_enough ratio line1 b = true.
Proof.
  unfold best_ok, good_match. destruct best.1 as [b'|]; [|done].
  intros (? & ? & ? & _). case_match; [|done]. by intros [= <-].
Qed.

Lemma find_best_ok matched_lines2 line1 list2 b :
  good_match (fold_left (best_candidate ratio matched_lines2 line1) list2
                (None, 0%Q)) = Some b ->
  b ∈ list2 /\ (b ∉ matched_lines2) /\ similar_enough ratio line1 b = true.
Proof.
  apply (good_match_ok matched_lines2 line1 ([] ++ list2)).
  by apply best_candidate_ok.
Qed.

(** The state of the outer loop after the lines [seen] of the first
    side. *)
Record matching_ok (list2 seen : list string)
    (acc : list (string * string) * gset string * gset string) : Prop := {
  ok_matched1 : acc.1.2 = list_to_set acc.1.1.*1;
  ok_matched2 : acc.2 = list_to_set acc.1.1.*2;
  ok_nodup1 : NoDup acc.1.1.*1;
  ok_nodup2 : NoDup acc.1.1.*2;
  ok_seen : forall a, a ∈ acc.1.1.*1 -> a ∈ seen;
  ok_list2 : forall b, b ∈ acc.1.1.*2 -> b ∈ list2;
  ok_similar : forall a b, (a, b) ∈ acc.1.1 -> similar_enough ratio a b = true
}.

Lemma match_line_ok list2 seen acc line1 :
  line1 ∉ seen -> matching_ok list2 seen acc ->
  matching_ok list2 (seen ++ [line1]) (match_line ratio list2 acc line1).
Proof.
  intros Hnew [H1 H2 Hn1 Hn2 Hs Hl Hsim].
  destruct acc as [[pairs m1] m2]. simpl in *. unfold match_line.
  destruct (good_match _) as [b|] eqn:Hb.
  - apply find_best_ok in Hb as (Hb2 & Hbm & Hbs).
    constructor; simpl.
    + rewrite fmap_app, list_to_set_app_L, H1. simpl.
      by rewrite union_empty_r_L, (comm_L (∪)).
    + rewrite fmap_app, list_to_set_app_L, H2. simpl.
      by rewrite union_empty_r_L, (comm_L (∪)).
    + rewrite fmap_app. apply NoDup_app. split; [done|]. split.
      * intros a Ha Ha'. apply list_elem_of_singleton in Ha'. subst a.
        by apply Hnew, Hs.
      * apply NoDup_singleton.
    + rewrite fmap_app. apply NoDup_app. split; [done|]. split.
      * intros a Ha Ha'. apply list_elem_of_singleton in Ha'. subst a.
        apply Hbm. rewrite H2. by apply elem_of_list_to_set.
      * apply NoDup_singleton.
    + intros a. rewrite fmap_app, !elem_of_app. intros [Ha|Ha]; [left; auto|].
      by right.
    + intros b'. rewrite fmap_app, elem_of_app. intros [Hb'|Hb']; [auto|].
      apply list_elem_of_singleton in Hb'. by subst b'.
    + intros a b'. rewrite elem_of_app. intros [Hab|Hab]; [auto|].
      apply list_elem_of_singleton in Hab. by injection Hab as -> ->.
  - constructor; simpl; try done.
    intros a Ha. apply elem_of_app. left. auto.
Qed.

Lemma matching_loop_ok list2 seen list1 acc :
  NoDup (seen ++ list1) -> matching_ok list2 seen acc ->
  matching_ok list2 (seen ++ list1) (fold_left (match_line ratio list2) list1 acc).
Proof.
  revert seen acc. induction list1 as [|line1 list1 IH]; intros seen acc Hnd Hok.
  - by rewrite app_nil_r.
  - cbn [fold_left]. rewrite (cons_middle line1 seen list1), app_assoc.
    rewrite (cons_middle line1 seen list1), app_assoc in Hnd.
    apply IH; [done|]. apply match_line_ok; [|done].
    apply NoDup_app in Hnd as [Hnd _]. apply NoDup_app in Hnd as (_ & Hd & _).
    intros Hin. apply (Hd line1 Hin). by left.
Qed.

(** The result of the similarity pass on two sets of lines. *)
Lemma find_similar_lines_advanced_ok lines1 lines2 :
  let r := _find_similar_lines_advanced ratio set_order lines1 lines2 in
  NoDup r.1.1.*1 /\ NoDup r.1.1.*2
  /\ (forall a b, (a, b) ∈ r.1.1 ->
        a ∈ lines1 /\ b ∈ lines2 /\ similar_enough ratio a b = true)
  /\ r.1.2 = lines1 ∖ list_to_set r.1.1.*1
  /\ r.2 = lines2 ∖ list_to_set r.1.1.*2.
Proof.
  unfold _find_similar_lines_advanced.
  pose proof (matching_loop_ok (set_order lines2) [] (set_order lines1)
                ([], ∅, ∅)) as H.
  destruct (fold_left _ _ _) as [[pairs m1] m2].
  destruct H as [H1 H2 Hn1 Hn2 Hs Hl Hsim].
  - apply set_order_nodup.
  - constructor; simpl; try done; try apply NoDup_nil_2;
      first [by intros ? Hx%elem_of_nil|by intros ? ? Hx%elem_of_nil].
  - simpl in *. subst m1 m2. repeat split; try done.
    + apply set_order_in, Hs. apply list_elem_of_fmap. by exists (a, b).
    + apply set_order_in, Hl. apply list_elem_of_fmap. by exists (a, b).
    + by apply Hsim.
Qed.

Lemma similar_enough_spec a b :
  similar_enough ratio a b = true <->
  (similarity_floor <= ratio a b)%Q /\ (ratio a b < 1)%Q /\ a <> b.
Proof.
  unfold similar_enough, Qlt_bool.
  rewrite !andb_true_iff, !negb_true_iff, Qle_bool_iff, String.eqb_neq.
  rewrite <- not_true_iff_false, Qle_bool_iff. split.
  - intros [[H1 H2] H3]. split; [done|]. split; [|done]. by apply Qnot_le_lt.
  - intros (H1 & H2 & H3). split; [split|]; [done| |done].
    by apply Qlt_not_le.
Qed.

(** The sets of [compare_configs], named as in the source. *)
Lemma compare_configs_ok results1 results2 :
  let config1 : gset string := list_to_set results1 in
  let config2 : gset string := list_to_set results2 in
  let c := compare_configs ratio set_order results1 results2 in
  common_lines c = config1 ∩ config2
  /\ total1 c = size config1 /\ total2 c = size config2
  /\ NoDup (similar_pairs c).*1 /\ NoDup (similar_pairs c).*2
  /\ (forall a b, (a, b) ∈ similar_pairs c ->
        a ∈ config1 ∖ config2 /\ b ∈ config2 ∖ config1
        /\ similar_enough ratio a b = true)
  /\ truly_unique1 c
     = (config1 ∖ config2) ∖ list_to_set (similar_pairs c).*1
  /\ truly_unique2 c
     = (config2 ∖ config1) ∖ list_to_set (similar_pairs c).*2.
Proof.
  intros config1 config2. unfold compare_configs. fold config1 config2.
  pose proof (find_similar_lines_advanced_ok
                (config1 ∖ (config1 ∩ config2)) (config2 ∖ (config1 ∩ config2)))
    as H.
  destruct (_find_similar_lines_advanced _ _ _ _) as [[pairs tu1] tu2].
  simpl in *. destruct H as (Hn1 & Hn2 & Hp & -> & ->).
  repeat split; try done.
  - apply Hp in H as (Ha & _ & _). set_solver.
  - apply Hp in H as (_ & Hb & _). set_solver.
  - by apply Hp in H as (_ & _ & ?).
  - f_equal. set_solver.
  - f_equal. set_solver.
Qed.

Lemma similarity_floor_value :
  (similarity_floor <= 85 # 100)%Q /\ (84999 # 100000 < similarity_floor)%Q.
Proof. by split. Qed.

(** C4: in the similarity pass of the compare operation, a pair
    (l1, l2) is produced as similar only if its ratio r satisfies
    0.85 <= r < 1.0 and l1 differs from l2; a pair with ratio 1.0 is
    never produced, nor one with a ratio below 0.85 (0.84999 for
    instance); a line that both devices have is a common line and is in
    no pair. *)
Theorem similar_pairs_threshold (results1 results2 : list string)
    (l1 l2 : string) :
  let c := compare_configs ratio set_order results1 results2 in
  ((l1, l2) ∈ similar_pairs c ->
     (similarity_floor <= ratio l1 l2)%Q /\ (ratio l1 l2 < 1)%Q /\ l1 <> l2
     /\ (l1 ∉ common_lines c) /\ (l2 ∉ common_lines c))
  /\ ((ratio l1 l2 == 1)%Q -> (l1, l2) ∉ similar_pairs c)
  /\ ((ratio l1 l2 < similarity_floor)%Q -> (l1, l2) ∉ similar_pairs c)
  /\ ((ratio l1 l2 <= 84999 # 100000)%Q -> (l1, l2) ∉ similar_pairs c)
  /\ (l1 ∈ results1 -> l1 ∈ results2 ->
      l1 ∈ common_lines c
      /\ forall l, ((l1, l) ∉ similar_pairs c) /\ ((l, l1) ∉ similar_pairs c)).
Proof.
  intros c.
  destruct (compare_configs_ok results1 results2)
    as (Hc & _ & _ & _ & _ & Hp & _ & _). fold c in Hc, Hp.
  assert (Hin : (l1, l2) ∈ similar_pairs c ->
                (similarity_floor <= ratio l1 l2)%Q /\ (ratio l1 l2 < 1)%Q
                /\ l1 <> l2 /\ (l1 ∉ common_lines c) /\ (l2 ∉ common_lines c)).
  { intros H. apply Hp in H as (H1 & H2 & Hs).
    apply similar_enough_spec in Hs as (? & ? & ?). rewrite Hc.
    repeat split; try done; set_solver. }
  split; [done|]. split; [|split; [|split]].
  - intros Heq Hpair. apply Hin in Hpair as (_ & Hlt & _).
    rewrite Heq in Hlt. by apply Qlt_irrefl in Hlt.
  - intros Hlt Hpair. apply Hin in Hpair as (Hle & _).
    by apply Qlt_not_le in Hlt.
  - intros Hle Hpair. apply Hin in Hpair as (Hfl & _).
    destruct similarity_floor_value as [_ Hv].
    apply (Qlt_irrefl similarity_floor).
    eapply Qle_lt_trans; [exact Hfl|]. eapply Qle_lt_trans; [exact Hle|done].
  - intros H1 H2. split.
    + rewrite Hc. apply elem_of_intersection.
      by rewrite !elem_of_list_to_set.
    + intros l. split; intros Hpair; apply Hp in Hpair as (Ha & Hb & _).
      * apply elem_of_difference in Ha as [_ Ha]. apply Ha.
        by apply elem_of_list_to_set.
      * apply elem_of_difference in Hb as [_ Hb]. apply Hb.
        by apply elem_of_list_to_set.
Qed.

(** C5: the diff engine partitions each side: the number of lines of a
    device is the number of common lines plus the number of its truly
    unique lines plus the number of similar pairs; a line is in only one
    of the common set, the truly unique set and the pairs, and no line
    is matched in two pairs. *)
Theorem diff_partition (results1 results2 : list string) :
  let config1 : gset string := list_to_set results1 in
  let config2 : gset string := list_to_set results2 in
  let c := compare_configs ratio set_order results1 results2 in
  size config1
    = size (common_lines c) + size (truly_unique1 c) + length (similar_pairs c)
  /\ size config2
     = size (common_lines c) + size (truly_unique2 c)
       + length (similar_pairs c)
  /\ total1 c = size config1 /\ total2 c = size config2
  /\ common_lines c ## truly_unique1 c /\ common_lines c ## truly_unique2 c
  /\ NoDup (similar_pairs c).*1 /\ NoDup (similar_pairs c).*2
  /\ (forall a b, (a, b) ∈ similar_pairs c ->
        a ∈ config1 /\ (a ∉ common_lines c) /\ (a ∉ truly_unique1 c)
        /\ b ∈ config2 /\ (b ∉ common_lines c) /\ (b ∉ truly_unique2 c))
  /\ (forall l, l ∈ config1 <->
        l ∈ common_lines c \/ l ∈ truly_unique1 c
        \/ l ∈ (similar_pairs c).*1)
  /\ (forall l, l ∈ config2 <->
        l ∈ common_lines c \/ l ∈ truly_unique2 c
        \/ l ∈ (similar_pairs c).*2).
Proof.
  intros config1 config2 c.
  destruct (compare_configs_ok results1 results2)
    as (Hc & Ht1 & Ht2 & Hn1 & Hn2 & Hp & Hu1 & Hu2).
  fold config1 config2 c in Hc, Ht1, Ht2, Hn1, Hn2, Hp, Hu1, Hu2.
  set (m1 := list_to_set (similar_pairs c).*1 : gset string) in *.
  set (m2 := list_to_set (similar_pairs c).*2 : gset string) in *.
  assert (Hm1 : m1 ⊆ config1 ∖ config2).
  { intros a Ha. apply elem_of_list_to_set, list_elem_of_fmap in Ha
      as ([a' b] & -> & Hab). by apply Hp in Hab as (? & _). }
  assert (Hm2 : m2 ⊆ config2 ∖ config1).
  { intros b Hb. apply elem_of_list_to_set, list_elem_of_fmap in Hb
      as ([a b'] & -> & Hab). by apply Hp in Hab as (_ & ? & _). }
  assert (Hs1 : size m1 = length (similar_pairs c)).
  { unfold m1. rewrite size_list_to_set by done. by rewrite length_fmap. }
  assert (Hs2 : size m2 = length (similar_pairs c)).
  { unfold m2. rewrite size_list_to_set by done. by rewrite length_fmap. }
  assert (Hd1 : size config1
                = size (config1 ∩ config2) + size (config1 ∖ config2)).
  { rewrite <- size_union by set_solver. f_equal. apply set_eq. intros x.
    rewrite elem_of_union, elem_of_intersection, elem_of_difference.
    destruct (decide (x ∈ config2)); tauto. }
  assert (Hd2 : size config2
                = size (config1 ∩ config2) + size (config2 ∖ config1)).
  { rewrite <- size_union by set_solver. f_equal. apply set_eq. intros x.
    rewrite elem_of_union, elem_of_intersection, elem_of_difference.
    destruct (decide (x ∈ config1)); tauto. }
  pose proof (subseteq_size _ _ Hm1) as Hle1.
  pose proof (subseteq_size _ _ Hm2) as Hle2.
  rewrite Hc, Hu1, Hu2, (size_difference _ m1 Hm1), (size_difference _ m2 Hm2).
  split; [lia|]. split; [lia|]. split; [done|]. split; [done|].
  split; [set_solver|]. split; [set_solver|]. split; [done|]. split; [done|].
  split; [|split].
  - intros a b Hab.
    assert (Ha : a ∈ m1).
    { apply elem_of_list_to_set, list_elem_of_fmap. by exists (a, b). }
    assert (Hb : b ∈ m2).
    { apply elem_of_list_to_set, list_elem_of_fmap. by exists (a, b). }
    apply Hp in Hab as (Ha' & Hb' & _). set_solver.
  - intros l. rewrite <- (elem_of_list_to_set (C := gset string)). fold m1.
    rewrite elem_of_intersection, !elem_of_difference. split.
    + intros Hl. destruct (decide (l ∈ config2)); [tauto|].
      destruct (decide (l ∈ m1)); tauto.
    + intros [[? _]|[[[? _] _]|Hl]]; [done..|].
      by apply Hm1, elem_of_difference in Hl as [? _].
  - intros l. rewrite <- (elem_of_list_to_set (C := gset string)). fold m2.
    rewrite elem_of_intersection, !elem_of_difference. split.
    + intros Hl. destruct (decide (l ∈ config1)); [tauto|].
      destruct (decide (l ∈ m2)); tauto.
    + intros [[_ ?]|[[[? _] _]|Hl]]; [done..|].
      by apply Hm2, elem_of_difference in Hl as [? _].
Qed.

End Diff.

(** ** The group, the gate and the normalization pass *)

(** C8: group validation fails with a [ValueError] when the group is
    missing or has a number of devices other than 2, and it returns the
    device list exactly when the group has 2 devices. When it fails,
    [execute] adds nothing to the log, so no device was contacted, and
    does not return true; it returns false when the name asked for and
    the names of the groups, which the message shows, are plain text. *)
Theorem group_validation (net : string -> device)
    (ratio : string -> string -> Q) (set_order : gset string -> list string)
    (self : JunosPushTool) (group : string) :
  (forall devices,
     _validate_group self group = Ok devices <->
     exists members,
       device_groups self !! group = Some members
       /\ devices = map snd members /\ length devices = 2)
  /\ (device_groups self !! group = None
      \/ (exists members, device_groups self !! group = Some members
                          /\ length members <> 2) ->
      exists msg, _validate_group self group = Raise (ValueError msg))
  /\ (forall e, _validate_group self group = Raise e ->
        (exists msg, e = ValueError msg)
        /\ (device_groups self !! group = None
            \/ exists members, device_groups self !! group = Some members
                               /\ length members <> 2))
  /\ (forall e config_file operation dry_run parallel backup log,
        _validate_group self group = Raise e ->
        let r := execute net ratio set_order self group config_file operation
                   dry_run parallel backup log in
        r.2 = log /\ r.1 <> Ok true
        /\ (plain group = true ->
            (forall g, g ∈ dom (device_groups self) -> plain g = true) ->
            r.1 = Ok false)).
Proof.
  split; [|split; [|split]].
  - intros devices. unfold _validate_group.
    destruct (device_groups self !! group) as [members|]; simpl.
    + rewrite length_map.
      destruct (length members =? 2) eqn:E; simpl.
      * apply Nat.eqb_eq in E. split.
        -- intros [= <-]. exists members. by rewrite length_map.
        -- intros (m & [= <-] & -> & _). done.
      * apply Nat.eqb_neq in E. split; [done|].
        intros (m & [= <-] & -> & Hl). by rewrite length_map in Hl.
    + split; [done|]. by intros (m & ? & _).
  - unfold _validate_group. intros [->|(members & -> & Hl)]; [by eexists|].
    rewrite length_map. apply Nat.eqb_neq in Hl. rewrite Hl. by eexists.
  - intros e. unfold _validate_group.
    destruct (device_groups self !! group) as [members|]; simpl.
    + rewrite length_map.
      destruct (length members =? 2) eqn:E; simpl; [done|].
      apply Nat.eqb_neq in E. intros [= <-]. split; [by eexists|].
      right. by exists members.
    + intros [= <-]. split; [by eexists|]. by left.
  - intros e config_file operation dry_run parallel backup log Hg r.
    subst r. by rewrite (execute_invalid_group _ _ _ _ _ _ _ _ _ _ e log Hg).
Qed.



(** ** The normalization pass *)

(** [self] with the attribute [normalize_patterns] set from outside. *)
Definition with_normalize_patterns (self : JunosPushTool)
    (patterns : list string) : JunosPushTool :=
  {| config_ini_path := config_ini_path self;
     timeout := timeout self;
     verbose := verbose self;
     credentials := credentials self;
     device_groups := device_groups self;
     ignore_patterns := ignore_patterns self;
     normalize_patterns := Some patterns |}.

Lemma init_no_normalize_patterns path config tmo verb self :
  __init__ path config tmo verb = Ok self -> normalize_patterns self = None.
Proof.
  unfold __init__. destruct (_load_config config) as [[[[u p] i] g]|e]; simpl;
    [|done].
  by intros [= <-].
Qed.

(** C10: an instance made by the constructor has no attribute
    [normalize_patterns], so [_normalize_config_line] raises
    [AttributeError] for every line, and [_find_similar_lines] for
    every pair of line sets of which one is not empty; [execute] does
    not reach the pass: its result is the same when the attribute is
    set from outside. *)
Theorem normalization_pass_unusable
    (set_order : gset string -> list string)
    (re_sub : string -> string -> string -> string)
    (path : string) (config : ini) (tmo : nat) (verb : bool)
    (self : JunosPushTool) :
  (forall s, set_order s ≡ₚ elements s) ->
  __init__ path config tmo verb = Ok self ->
  (forall line,
     _normalize_config_line re_sub self line
       = Raise (AttributeError "normalize_patterns"))
  /\ (forall lines1 lines2, lines1 <> ∅ \/ lines2 <> ∅ ->
        _find_similar_lines set_order re_sub self lines1 lines2
          = Raise (AttributeError "normalize_patterns"))
  /\ (forall net ratio patterns group config_file operation
             dry_run parallel backup log,
        execute net ratio set_order (with_normalize_patterns self patterns)
          group config_file operation dry_run parallel backup log
        = execute net ratio set_order self group config_file operation
            dry_run parallel backup log).
Proof.
  intros Hord Hinit. apply init_no_normalize_patterns in Hinit.
  assert (Hline : forall line,
            _normalize_config_line re_sub self line
              = Raise (AttributeError "normalize_patterns")).
  { intros line. unfold _normalize_config_line. by rewrite Hinit. }
  assert (Hne : forall s : gset string, s <> ∅ ->
            exists x l, set_order s = x :: l).
  { intros s Hs. destruct (set_order s) as [|x l] eqn:E; [|by eexists _, _].
    destruct Hs. apply leibniz_equiv, elements_empty_inv.
    pose proof (Hord s) as Hp. rewrite E in Hp.
    by apply Permutation_nil_l in Hp. }
  split; [done|]. split; [|done].
  intros lines1 lines2 Hsome. unfold _find_similar_lines.
  destruct (decide (lines1 = ∅)) as [->|H1].
  - destruct Hsome as [?|H2]; [done|].
    assert (set_order ∅ = []) as ->.
    { apply Permutation_nil_r. by rewrite Hord, elements_empty. }
    destruct (Hne lines2 H2) as (x & l & ->). simpl.
    by rewrite Hline.
  - destruct (Hne lines1 H1) as (x & l & ->). simpl. by rewrite Hline.
Qed.

(** ** The sample network *)

Import Sample.

Lemma elements_order (s : gset string) : elements s ≡ₚ elements s.
Proof. reflexivity. Defined.






(** C3: a [set] line with one double quote is rejected. *)
Lemma set_line_quotes_and_brackets_witness :
  _validate_config_syntax unmatched_quote_set
    = Raise (ValueError "Configuration validation failed with 1 errors").
Proof.
  destruct (set_line_quotes_and_brackets unmatched_quote_set 0
              unmatched_quote_set) as (_ & _ & H & _).
  - by vm_compute.
  - by vm_compute.
  - left. by vm_compute.
  - apply H. vm_compute. by repeat constructor.
Defined.

(** C3, as stated, fails: a [delete] line with one double quote is
    accepted, and the cleaned document is returned. *)
Lemma delete_line_quotes_accepted :
  count dquote unmatched_quote_delete = 1
  /\ validate_and_clean_config (Content unmatched_quote_delete)
     = Ok unmatched_quote_delete.
Proof. by vm_compute. Qed.

(** C4: the pair of the two vlan lines has a ratio in [0.85, 1). *)
Lemma similar_pairs_threshold_witness :
  (similarity_floor <= lcs_ratio "set vlan 10" "set vlan 20")%Q
  /\ (lcs_ratio "set vlan 10" "set vlan 20" < 1)%Q.
Proof.
  destruct (similar_pairs_threshold lcs_ratio elements elements_order
              (splitlines r1_text) (splitlines r2_text)
              "set vlan 10" "set vlan 20") as [H _].
  assert (Hc : similar_pairs (compare_configs lcs_ratio elements
                                (splitlines r1_text) (splitlines r2_text))
               = [("set vlan 10", "set vlan 20")]) by (by vm_compute).
  destruct H as (H1 & H2 & _); [rewrite Hc; by left|].
  by split.
Defined.

(** C5: the two routers: 2 lines each, 1 common, 0 unique, 1 pair. *)
Lemma diff_partition_witness :
  size (list_to_set (splitlines r1_text) : gset string)
  = size (common_lines (compare_configs lcs_ratio elements
                          (splitlines r1_text) (splitlines r2_text)))
    + size (truly_unique1 (compare_configs lcs_ratio elements
                             (splitlines r1_text) (splitlines r2_text)))
    + length (similar_pairs (compare_configs lcs_ratio elements
                               (splitlines r1_text) (splitlines r2_text))).
Proof.
  destruct (diff_partition lcs_ratio elements elements_order
              (splitlines r1_text) (splitlines r2_text)) as [H _].
  exact H.
Defined.


(** C8: the group [lab] has one device. *)
Lemma group_validation_witness :
  (execute net_clean lcs_ratio elements tool "lab" (Content ntp) Commit
     false false false []).2 = []
  /\ (execute net_clean lcs_ratio elements tool "lab" (Content ntp) Commit
        false false false []).1 = Ok false.
Proof.
  destruct (group_validation net_clean lcs_ratio elements tool "lab")
    as (_ & _ & _ & H).
  destruct (H _ (Content ntp) Commit false false false [] eq_refl)
    as (Hlog & _ & Hplain).
  split; [exact Hlog|]. apply Hplain; [done|].
  intros g Hg. apply elem_of_dom in Hg as [members Hg].
  assert (Hcases : g = "core" \/ g = "lab").
  { unfold tool in Hg. cbn [device_groups] in Hg.
    apply lookup_insert_Some in Hg as [[<- _]|[_ Hg]]; [by left|].
    apply lookup_singleton_Some in Hg as [<- _]. by right. }
  by destruct Hcases as [-> | ->].
Defined.

Lemma blank_reading (d : string) :
  d ∈ ["10.0.0.1"] -> reading_fails_or_empty (net_blank d).
Proof. intros ->%list_elem_of_singleton. by right. Qed.

(** C9: the first router answers an empty committed text. *)
Lemma pending_check_fails_open_witness :
  (_validate_device_state net_blank ["10.0.0.1"] []).1 = Ok true.
Proof.
  destruct (pending_check_fails_open net_blank ["10.0.0.1"] [] blank_reading)
    as (_ & H & _).
  exact H.
Defined.

(** C10: the tool made from the sample [config.ini]. *)
Lemma normalization_pass_unusable_witness :
  _normalize_config_line no_sub tool ntp
    = Raise (AttributeError "normalize_patterns").
Proof.
  destruct (normalization_pass_unusable elements no_sub "config.ini"
              config_ini 60 false tool elements_order eq_refl) as (H & _).
  exact (H ntp).
Defined.

(** * Further properties of the sources *)

(** ** The errors of the syntax validation, line by line *)

(** The errors and the warnings that one line adds. *)
Definition line_errors (line_num : nat) (line : string) : list syntax_error :=
  (validate_lines line_num [line] [] []).1.

Definition line_warnings (line_num : nat) (line : string)
  : list syntax_warning :=
  (validate_lines line_num [line] [] []).2.

(** The line number an error carries. *)
Definition error_line (e : syntax_error) : nat :=
  match e with
  | InvalidCommand line_num _ | IncompleteSet line_num | SetTooShort line_num
  | UnmatchedQuotes line_num | UnmatchedBrackets line_num => line_num
  end.

(** A line that is not blank and has another first word than the six
    verbs, or is a [set] line with less than three words, an odd number
    of double quotes or unequal numbers of brackets. *)
Definition offending (line : string) : bool :=
  nonempty (strip line)
  && (negb (str_in (lower (hd "" (split_ws line))) valid_set_commands)
      || (String.eqb (lower (hd "" (split_ws line))) "set"
          && ((length (split_ws line) <? 3)
              || negb (count dquote line mod 2 =? 0)
              || negb (count "["%char line =? count "]"%char line)))).

Lemma set_syntax_appends line line_num errors warnings :
  _validate_set_command_syntax line line_num errors warnings =
    (let r := _validate_set_command_syntax line line_num [] [] in
     (r.1.1, errors ++ r.1.2, warnings ++ r.2)).
Proof.
  unfold _validate_set_command_syntax.
  repeat case_match; simpl; rewrite ?app_nil_r, <- ?app_assoc; done.
Qed.

Lemma validate_lines_cons line_num line rest errors warnings :
  validate_lines line_num (line :: rest) errors warnings =
    validate_lines (S line_num) rest (errors ++ line_errors line_num line)
      (warnings ++ line_warnings line_num line).
Proof.
  unfold line_errors, line_warnings. cbn [validate_lines].
  destruct (negb (nonempty (strip line))); [by rewrite !app_nil_r|].
  destruct (negb (str_in _ _)); [simpl; by rewrite !app_nil_r|].
  destruct (String.eqb _ "set"); [|by rewrite !app_nil_r].
  destruct (length (split_ws line) <? 2); [simpl; by rewrite !app_nil_r|].
  rewrite (set_syntax_appends line line_num errors warnings). cbn zeta.
  by destruct (_validate_set_command_syntax line line_num [] [])
    as [[ok errs] warns].
Qed.

Lemma validate_lines_split lines line_num errors warnings :
  validate_lines line_num lines errors warnings =
    (errors ++ (validate_lines line_num lines [] []).1,
     warnings ++ (validate_lines line_num lines [] []).2).
Proof.
  revert line_num errors warnings.
  induction lines as [|line rest IH]; intros line_num errors warnings.
  - simpl. by rewrite !app_nil_r.
  - rewrite !(validate_lines_cons line_num line rest).
    rewrite (IH _ (errors ++ _)), (IH _ ([] ++ _) ([] ++ _)). simpl.
    by rewrite <- !app_assoc.
Qed.

Lemma line_errors_offending line_num line :
  (offending line = false -> line_errors line_num line = [])
  /\ (offending line = true ->
      exists e, line_errors line_num line = [e] /\ error_line e = line_num).
Proof.
  unfold offending, line_errors. cbn [validate_lines].
  destruct (nonempty (strip line)); cbn [negb andb orb]; [|done].
  destruct (str_in (lower (hd "" (split_ws line))) valid_set_commands);
    cbn [negb andb orb]; [|split; [done|by eexists]].
  destruct (String.eqb (lower (hd "" (split_ws line))) "set");
    cbn [negb andb orb]; [|done].
  destruct (length (split_ws line) <? 2) eqn:E2.
  { apply Nat.ltb_lt in E2.
    assert (Hlt : (length (split_ws line) <? 3) = true)
      by (apply Nat.ltb_lt; lia).
    rewrite Hlt.
    cbn [negb andb orb]. split; [done|by eexists]. }
  unfold _validate_set_command_syntax.
  destruct (length (split_ws line) <? 3); cbn [negb andb orb];
    [split; [done|by eexists]|].
  destruct (count dquote line mod 2 =? 0); cbn [negb andb orb];
    [|split; [done|by eexists]].
  destruct (count "["%char line =? count "]"%char line); cbn [negb andb orb];
    [done|split; [done|by eexists]].
Qed.

Lemma validate_lines_errors lines line_num :
  let errors := (validate_lines line_num lines [] []).1 in
  length errors = length (filter (fun l => offending l = true) lines)
  /\ (forall e, e ∈ errors ->
        exists i line, lines !! i = Some line /\ offending line = true
                       /\ error_line e = line_num + i)
  /\ (forall i line, lines !! i = Some line -> offending line = true ->
        exists e, e ∈ errors /\ error_line e = line_num + i).
Proof.
  revert line_num. induction lines as [|line rest IH]; intros line_num.
  - simpl. split; [done|]. split; [by intros e He%elem_of_nil|done].
  - cbn zeta. rewrite validate_lines_cons, validate_lines_split. simpl.
    destruct (IH (S line_num)) as (Hlen & Hin & Hall).
    destruct (line_errors_offending line_num line) as [Hno Hyes].
    rewrite filter_cons. destruct (offending line) eqn:Hoff.
    + destruct (Hyes eq_refl) as (e0 & -> & He0).
      rewrite decide_True by done. simpl. split; [by rewrite Hlen|]. split.
      * intros e [->|He]%elem_of_cons.
        -- exists 0, line. by rewrite Nat.add_0_r.
        -- destruct (Hin e He) as (i & l & Hi & Hl & Hn).
           exists (S i), l. repeat split; [done..|]. lia.
      * intros [|i] l Hi Hl; simpl in Hi.
        -- injection Hi as <-. exists e0. rewrite Nat.add_0_r.
           split; [by left|done].
        -- destruct (Hall i l Hi Hl) as (e & He & Hn).
           exists e. split; [by right|]. lia.
    + rewrite (Hno eq_refl). rewrite decide_False by done. simpl.
      split; [done|]. split.
      * intros e He. destruct (Hin e He) as (i & l & Hi & Hl & Hn).
        exists (S i), l. repeat split; [done..|]. lia.
      * intros [|i] l Hi Hl; simpl in Hi.
        -- injection Hi as <-. congruence.
        -- destruct (Hall i l Hi Hl) as (e & He & Hn).
           exists e. split; [done|]. lia.
Qed.

(** X1: the syntax validation collects one error for each offending
    line of the document and none for another line; the error carries
    the number of its line, counted from 1. The validation returns only
    when no line is offending, and raises when one is. When the words
    that the messages show are plain text, it returns the warnings of a
    document without offending line, and what it raises otherwise is the
    [ValueError] whose message gives the number of offending lines. *)
Theorem syntax_errors_line_by_line (content : string) :
  let lines := split_on nl content in
  let errors := (syntax_report content).1 in
  let warnings := (syntax_report content).2 in
  let bad := length (filter (fun l => offending l = true) lines) in
  length errors = bad
  /\ (forall e, e ∈ errors ->
        exists i line, lines !! i = Some line /\ offending line = true
                       /\ error_line e = S i)
  /\ (forall i line, lines !! i = Some line -> offending line = true ->
        exists e, e ∈ errors /\ error_line e = S i)
  /\ ((exists shown, _validate_config_syntax content = Ok shown) -> bad = 0)
  /\ (0 < bad -> exists e, _validate_config_syntax content = Raise e)
  /\ (bad = 0 ->
      Forall (fun w => plain (shown_warning w) = true) warnings ->
      _validate_config_syntax content = Ok warnings)
  /\ (0 < bad ->
      Forall (fun e => plain (shown_error e) = true) errors ->
      _validate_config_syntax content
      = Raise (ValueError ("Configuration validation failed with "
                           +:+ pretty bad +:+ " errors"))).
Proof.
  intros lines errors warnings bad.
  destruct (validate_lines_errors lines 1) as (Hlen & Hin & Hall).
  fold lines in Hlen. unfold syntax_report in errors, warnings.
  fold lines in errors, warnings.
  fold errors in Hlen, Hin, Hall. fold bad in Hlen.
  split; [done|]. split; [exact Hin|]. split; [exact Hall|].
  unfold _validate_config_syntax, syntax_report. fold lines.
  destruct (validate_lines 1 lines [] []) as [errs warns] eqn:E.
  simpl in errors, warnings. subst errors warnings.
  destruct errs as [|e0 errs]; simpl in Hlen.
  - repeat split; try done; lia.
  - repeat split; try done.
    + by intros [? ?].
    + intros _. by eexists.
    + lia.
    + intros _ _. by rewrite <- Hlen.
Qed.

(** X1: the sample line validates without a warning. *)
Lemma syntax_errors_line_by_line_witness :
  _validate_config_syntax ntp = Ok [].
Proof.
  pose proof (syntax_errors_line_by_line ntp) as H. cbv zeta in H.
  destruct H as (_ & _ & _ & _ & _ & H & _).
  apply H; by vm_compute.
Defined.

(** ** Cleaned documents *)

Lemma rstrip_endswith c s :
  rstrip s = s -> isspace c = true -> endswith_chr c s = false.
Proof.
  intros Hs Hc. induction s as [|d r IH]; [done|].
  destruct (rstrip_tail d r Hs) as [->|[Hne Hr]].
  - simpl in Hs |- *. destruct (isspace d) eqn:Ed; [done|].
    apply not_true_iff_false. intros ->%Ascii.eqb_eq. congruence.
  - destruct r as [|d' r']; [done|]. exact (IH Hr).
Qed.

Lemma tidy_trimmed y : tidy y -> strip y = y.
Proof.
  intros (ws & _ & Hws & ->). by apply strip_join, tidy_words_words.
Qed.

Lemma tidy_first y :
  tidy y -> exists c r, y = String c r /\ isspace c = false.
Proof.
  intros Hy. pose proof (tidy_trimmed y Hy) as Hs.
  destruct (tidy_head y Hy) as (c & r & -> & _). exists c, r. split; [done|].
  apply strip_fixed in Hs as [_ Hl]. simpl in Hl.
  destruct (isspace c); [|done].
  pose proof (lstrip_length r) as Hlen. rewrite Hl in Hlen. simpl in Hlen. lia.
Qed.

Lemma tidy_no_trailing y : tidy y -> endswith_chr " "%char y = false.
Proof.
  intros Hy. apply rstrip_endswith; [|done].
  by apply strip_fixed, tidy_trimmed.
Qed.

(** The lines of a cleaned document. *)
Lemma cleaned_lines raw :
  split_on nl (_clean_config_content raw) =
    match omap clean_line (split_on nl raw) with
    | [] => [""]
    | ls => ls
    end.
Proof.
  unfold _clean_config_content.
  pose proof (cleaned_lines_tidy raw) as Ht.
  destruct (omap clean_line (split_on nl raw)) as [|l ls]; [done|].
  apply split_on_join; [done|].
  eapply Forall_impl; [exact Ht|]. apply tidy_no_nl.
Qed.

Lemma cleaned_lines_tidy_or_empty raw :
  Forall (fun l => l = "" \/ tidy l) (split_on nl (_clean_config_content raw)).
Proof.
  rewrite cleaned_lines. pose proof (cleaned_lines_tidy raw) as Ht.
  destruct (omap clean_line (split_on nl raw)) as [|l ls].
  - repeat constructor.
  - eapply Forall_impl; [exact Ht|]. by right.
Qed.

Lemma validate_lines_warnings (P : syntax_warning -> Prop) lines line_num :
  Forall (fun line => forall k, Forall P (line_warnings k line)) lines ->
  Forall P (validate_lines line_num lines [] []).2.
Proof.
  intros Hall. revert line_num.
  induction Hall as [|line rest Hline Hrest IH]; intros line_num; [done|].
  rewrite validate_lines_cons, validate_lines_split. simpl.
  apply Forall_app. split; [apply Hline|apply IH].
Qed.

Lemma trailing_warning line k j :
  TrailingWhitespace j ∈ line_warnings k line ->
  endswith_chr " "%char line = true.
Proof.
  unfold line_warnings. cbn [validate_lines].
  destruct (negb (nonempty (strip line))); [by intros ?%elem_of_nil|].
  destruct (negb (str_in _ _)); [by intros ?%elem_of_nil|].
  destruct (String.eqb _ "set"); [|by intros ?%elem_of_nil].
  destruct (length (split_ws line) <? 2); [by intros ?%elem_of_nil|].
  unfold _validate_set_command_syntax.
  destruct (length (split_ws line) <? 3); [by intros ?%elem_of_nil|].
  destruct (negb (_ mod 2 =? 0)); [by intros ?%elem_of_nil|].
  destruct (negb (_ =? _)); [by intros ?%elem_of_nil|].
  destruct (endswith_chr " "%char line); [done|].
  repeat case_match; cbn [app snd];
    rewrite ?elem_of_cons, ?elem_of_nil; intuition discriminate.
Qed.

(** X2: the document that [validate_and_clean_config] hands to the
    syntax validation is the cleaned one, and on a cleaned document the
    warning "Trailing whitespace detected" is never issued: each of its
    lines is trimmed. *)
Theorem cleaned_no_trailing_whitespace (raw : string) (line_num : nat) :
  (TrailingWhitespace line_num
     ∉ (syntax_report (_clean_config_content raw)).2)
  /\ Forall (fun line => strip line = line)
       (split_on nl (_clean_config_content raw)).
Proof.
  split.
  - unfold syntax_report. intros Hin.
    assert (Hall : Forall (fun w => forall j, w <> TrailingWhitespace j)
                     (validate_lines 1
                        (split_on nl (_clean_config_content raw)) [] []).2).
    { apply validate_lines_warnings.
      eapply Forall_impl; [apply cleaned_lines_tidy_or_empty|].
      intros line Hline k. apply Forall_forall. intros w Hwin j ->.
      apply trailing_warning in Hwin. destruct Hline as [->|Ht]; [done|].
      by rewrite tidy_no_trailing in Hwin. }
    rewrite Forall_forall in Hall. exact (Hall _ Hin line_num eq_refl).
  - eapply Forall_impl; [apply cleaned_lines_tidy_or_empty|].
    intros line [->|Ht]; [done|by apply tidy_trimmed].
Qed.

Lemma cleaned_strip raw :
  _clean_config_content raw <> "" ->
  nonempty (strip (_clean_config_content raw)) = true.
Proof.
  intros Hne. apply nonempty_true. intros Hs. apply strip_empty in Hs.
  unfold _clean_config_content in *.
  pose proof (cleaned_lines_tidy raw) as Ht.
  destruct (omap clean_line (split_on nl raw)) as [|l ls]; [done|].
  inversion Ht as [|? ? Hl _]; subst.
  destruct (tidy_first l Hl) as (c & r & -> & Hc).
  destruct ls as [|l' ls'].
  - simpl in Hs. by rewrite Hc in Hs.
  - rewrite join_cons in Hs by done. rewrite append_cons in Hs. simpl in Hs.
    by rewrite Hc in Hs.
Qed.

Lemma clean_cleaned raw :
  _clean_config_content (_clean_config_content raw) = _clean_config_content raw.
Proof.
  unfold _clean_config_content at 2 3. apply clean_tidy_lines.
  apply cleaned_lines_tidy.
Qed.

(** X3: a document that [validate_and_clean_config] returns is stable:
    when it is not empty, validating it as the content of a file returns
    it unchanged. *)
Theorem validated_document_stable (raw cleaned : string) :
  validate_and_clean_config (Content raw) = Ok cleaned ->
  cleaned <> "" ->
  validate_and_clean_config (Content cleaned) = Ok cleaned.
Proof.
  unfold validate_and_clean_config.
  destruct (negb (nonempty (strip raw))); [done|].
  destruct (_validate_config_syntax (_clean_config_content raw))
    as [warnings|e] eqn:Hv; [|done].
  simpl. intros [= <-] Hne.
  rewrite cleaned_strip by done. simpl. rewrite clean_cleaned, Hv. done.
Qed.

Lemma validated_document_stable_witness :
  validate_and_clean_config
    (Content ("  set   system ntp server 1.1.1.1   # time" +:+ lf
              +:+ "# a comment" +:+ lf +:+ "delete system services telnet"))
  = Ok (ntp +:+ lf +:+ "delete system services telnet")
  /\ validate_and_clean_config
       (Content (ntp +:+ lf +:+ "delete system services telnet"))
     = Ok (ntp +:+ lf +:+ "delete system services telnet").
Proof.
  assert (H : validate_and_clean_config
                (Content ("  set   system ntp server 1.1.1.1   # time" +:+ lf
                          +:+ "# a comment" +:+ lf
                          +:+ "delete system services telnet"))
              = Ok (ntp +:+ lf +:+ "delete system services telnet"))
    by (by vm_compute).
  split; [exact H|].
  apply (validated_document_stable _ _ H). by vm_compute.
Defined.

(** *** What cleaning drops *)

Lemma split_ws_lstrip s : split_ws (lstrip s) = split_ws s.
Proof.
  induction s as [|c r IH]; [done|]. cbn [lstrip].
  destruct (isspace c) eqn:E; [|done]. rewrite IH. simpl. by rewrite E.
Qed.

Lemma rstrip_first d r c r' : rstrip (String d r) = String c r' -> c = d.
Proof.
  simpl. destruct (rstrip r); [destruct (isspace d)|]; congruence.
Qed.

Lemma split_ws_cons2 c d x :
  split_ws (String c (String d x)) =
    if isspace c then split_ws (String d x)
    else if isspace d then String c "" :: split_ws (String d x)
    else match split_ws (String d x) with
         | w :: ws => String c w :: ws
         | [] => [String c ""]
         end.
Proof. done. Qed.

Lemma split_ws_rstrip s : split_ws (rstrip s) = split_ws s.
Proof.
  induction s as [|c r IH]; [done|]. cbn [rstrip].
  destruct (rstrip r) as [|c' r'] eqn:Er.
  - pose proof (rstrip_empty r Er) as Hsp.
    pose proof (split_ws_spaces r Hsp) as Hnil.
    destruct (isspace c) eqn:Ec.
    + simpl. by rewrite Ec.
    + cbn [split_ws]. rewrite Ec. destruct r as [|d r0]; [done|].
      simpl in Hsp. apply andb_true_iff in Hsp as [Hd _]. by rewrite Hd, Hnil.
  - destruct r as [|d r0]; [done|].
    apply rstrip_first in Er as Hcd. subst c'.
    by rewrite (split_ws_cons2 c d r'), (split_ws_cons2 c d r0), IH.
Qed.

Lemma split_ws_strip s : split_ws (strip s) = split_ws s.
Proof. unfold strip. by rewrite split_ws_lstrip, split_ws_rstrip. Qed.

Lemma split_on_head_one sep s :
  mem sep s = false -> hd "" (split_on sep s) = s.
Proof. intros H. by rewrite split_on_one. Qed.

(** The text before the first ['#'] of a line that does not begin with
    it is not blank. *)
Lemma before_hash_not_blank c r :
  isspace c = false -> Ascii.eqb c hash = false ->
  strip (hd "" (split_on hash (String c r))) <> "".
Proof.
  intros Hc Hh Hs. apply strip_empty in Hs. simpl in Hs. rewrite Hh in Hs.
  destruct (split_on hash r); simpl in Hs; by rewrite Hc in Hs.
Qed.

(** X4: what cleaning does to one line: a line that is blank or whose
    first character after trimming is ['#'] is dropped; any other line is
    kept as the words of the trimmed line before its first ['#'], with
    one blank between two words. The test for an empty line after the
    removal of an inline comment never drops a line. *)
Theorem clean_line_closed_form (line : string) :
  clean_line line =
    if negb (nonempty (strip line)) || startswith "#" (strip line) then None
    else Some (join " " (split_ws (hd "" (split_on hash (strip line))))).
Proof.
  unfold clean_line.
  destruct (nonempty (strip line)) eqn:Hne; simpl; [|done].
  destruct (startswith "#" (strip line)) eqn:Hh; [done|].
  apply nonempty_true in Hne.
  destruct (mem hash (strip line)) eqn:Hm.
  - pose proof (lstrip_head (rstrip line)) as Hc. fold (strip line) in Hc.
    destruct (strip line) as [|c r] eqn:Es; [done|].
    rewrite startswith_cons, startswith_nil, andb_true_r in Hh.
    rewrite Ascii.eqb_sym in Hh.
    pose proof (before_hash_not_blank c r Hc Hh) as Hb.
    apply nonempty_true in Hb. rewrite Hb. simpl.
    by rewrite split_ws_strip.
  - by rewrite (split_on_head_one hash (strip line)).
Qed.

Lemma clean_line_none line :
  clean_line line = None <->
  strip line = "" \/ startswith "#" (strip line) = true.
Proof.
  unfold clean_line.
  destruct (nonempty (strip line)) eqn:Hne; simpl.
  - apply nonempty_true in Hne.
    destruct (startswith "#" (strip line)) eqn:Hh; [by intuition|].
    assert (Hno : ~ (strip line = "" \/ false = true)) by (by intros [?|?]).
    destruct (mem hash (strip line)) eqn:Hm; [|by split].
    pose proof (lstrip_head (rstrip line)) as Hc. fold (strip line) in Hc.
    destruct (strip line) as [|c r] eqn:Es; [done|].
    rewrite startswith_cons, startswith_nil, andb_true_r in Hh.
    rewrite Ascii.eqb_sym in Hh.
    pose proof (before_hash_not_blank c r Hc Hh) as Hb.
    apply nonempty_true in Hb. rewrite Hb. by split.
  - split; [|done]. intros _. left.
    unfold nonempty in Hne. apply negb_false_iff in Hne.
    by apply String.eqb_eq.
Qed.

Lemma omap_nil {A B} (f : A -> option B) l :
  omap f l = [] <-> Forall (fun x => f x = None) l.
Proof.
  induction l as [|x l IH]; simpl; [by split|].
  destruct (f x) eqn:E.
  - split; [done|]. intros H. inversion H; congruence.
  - rewrite IH. split; [by constructor|]. intros H. by inversion H.
Qed.

(** X5: a file that is not blank as a whole is validated to the empty
    document exactly when each of its lines is blank or a comment: a
    file of comments only is accepted, and the empty configuration is
    what the run goes on with. *)
Theorem comments_only_validates (raw : string) :
  strip raw <> "" ->
  (validate_and_clean_config (Content raw) = Ok ""
   <-> Forall (fun line => strip line = ""
                           \/ startswith "#" (strip line) = true)
         (split_on nl raw)).
Proof.
  intros Hne. apply nonempty_true in Hne.
  unfold validate_and_clean_config. rewrite Hne. simpl.
  unfold _clean_config_content.
  pose proof (cleaned_lines_tidy raw) as Ht.
  pose proof (omap_nil clean_line (split_on nl raw)) as Hnil.
  destruct (omap clean_line (split_on nl raw)) as [|l ls].
  - split; [|done]. intros _. destruct Hnil as [Hnil _].
    eapply Forall_impl; [by apply Hnil|]. intros x. apply clean_line_none.
  - split.
    + destruct (_validate_config_syntax _); [|done]. simpl. intros [= Hj].
      inversion Ht as [|? ? Hl _]; subst.
      destruct (tidy_first l Hl) as (c & r & -> & _).
      destruct ls; [done|]. rewrite join_cons in Hj by done.
      by rewrite append_cons in Hj.
    + intros Hall. destruct Hnil as [_ Hnil]. discriminate Hnil.
      eapply Forall_impl; [exact Hall|]. intros x. apply clean_line_none.
Qed.

Lemma comments_only_validates_witness :
  validate_and_clean_config
    (Content ("# ntp servers" +:+ lf +:+ "   " +:+ lf +:+ "  # none yet"))
  = Ok "".
Proof.
  apply comments_only_validates; [by vm_compute|].
  assert (Hs : split_on nl ("# ntp servers" +:+ lf +:+ "   " +:+ lf
                            +:+ "  # none yet")
               = ["# ntp servers"; "   "; "  # none yet"]) by (by vm_compute).
  rewrite Hs.
  repeat (apply Forall_cons_2;
          [first [left; by vm_compute|right; by vm_compute]|]).
  apply Forall_nil_2.
Defined.

(** ** The statistics of a document *)

Lemma split_on_length sep s : 1 <= length (split_on sep s).
Proof.
  induction s as [|c r IH]; simpl; [lia|].
  destruct (Ascii.eqb c sep); simpl; [lia|].
  destruct (split_on sep r); simpl; lia.
Qed.

Lemma statistics_loop_sum lines sets deletes others hierarchies :
  let r := statistics_loop lines sets deletes others hierarchies in
  r.1.1.1 + r.1.1.2 + r.1.2
    = sets + deletes + others
      + length (filter (fun l => nonempty (strip l) = true) lines)
  /\ sets <= r.1.1.1
  /\ size r.2 + sets <= size hierarchies + r.1.1.1.
Proof.
  revert sets deletes others hierarchies.
  induction lines as [|line rest IH]; intros sets deletes others hierarchies.
  - simpl. lia.
  - cbn [statistics_loop]. rewrite filter_cons.
    destruct (nonempty (strip line)) eqn:Hne; cbn [negb].
    + rewrite decide_True by done. cbn [length].
      destruct (String.eqb (lower (hd "" (split_ws line))) "set").
      * match goal with
        | |- context [statistics_loop rest (S sets) deletes others ?h] =>
            destruct (IH (S sets) deletes others h) as (H1 & H2 & H3);
            assert (Hh : size h <= S (size hierarchies))
        end.
        { case_match; [|lia]. rewrite size_union_alt, size_singleton.
          pose proof (subseteq_size (hierarchies ∖ {[hd "" (split_on "."%char
                                       (nth 1 (split_ws line) ""))]})
                        hierarchies) as Hs.
          assert (Hsub : hierarchies ∖ {[hd "" (split_on "."%char
                                           (nth 1 (split_ws line) ""))]}
                         ⊆ hierarchies) by set_solver.
          specialize (Hs Hsub). lia. }
        cbn zeta in *. lia.
      * destruct (String.eqb (lower (hd "" (split_ws line))) "delete").
        -- destruct (IH sets (S deletes) others hierarchies) as (H1 & H2 & H3).
           cbn zeta in *. lia.
        -- destruct (IH sets deletes (S others) hierarchies) as (H1 & H2 & H3).
           cbn zeta in *. lia.
    + rewrite decide_False by done. apply IH.
Qed.

(** X6: the statistics shown with the preview: the set, delete and other
    commands together are the lines of the document that are not blank;
    "Total commands" is the number of all lines, blank ones too, so it is
    at least 1 even for the empty document; there are at most as many
    hierarchies as set commands. *)
Theorem statistics_counts (content : string) :
  let stats := _get_config_statistics content in
  set_commands stats + delete_commands stats + other_commands stats
    = length (filter (fun l => nonempty (strip l) = true)
                (split_on nl content))
  /\ total_commands stats = length (split_on nl content)
  /\ set_commands stats + delete_commands stats + other_commands stats
     <= total_commands stats
  /\ 1 <= total_commands stats
  /\ unique_hierarchies stats <= set_commands stats.
Proof.
  unfold _get_config_statistics.
  pose proof (statistics_loop_sum (split_on nl content) 0 0 0 ∅) as H.
  destruct (statistics_loop (split_on nl content) 0 0 0 ∅)
    as [[[sets deletes] others] hierarchies].
  cbn zeta in H. rewrite size_empty in H. cbn [fst snd] in *.
  destruct H as (H1 & H2 & H3).
  pose proof (length_filter (fun l => nonempty (strip l) = true)
                (split_on nl content)) as Hf.
  pose proof (split_on_length nl content).
  cbn [set_commands delete_commands other_commands total_commands
       unique_hierarchies].
  repeat split; lia.
Qed.

(** ** Loading [config.ini] *)

(** The two sections that are not device groups. *)
Definition reserved (section : string) : bool :=
  str_in section ["settings"; "ignore_those_lines_in_compare"].

Lemma assoc_none {V} k (l : list (string * V)) :
  k ∉ map fst l -> assoc k l = None.
Proof.
  induction l as [|[k' v] l IH]; [done|]. simpl.
  rewrite not_elem_of_cons. intros [Hne Hl].
  destruct (String.eqb k' k) eqn:E; [|by apply IH].
  apply String.eqb_eq in E. congruence.
Qed.

Lemma load_groups_lookup (config : ini)
    (groups0 : gmap string (list (string * string))) g :
  NoDup (map fst config) ->
  fold_left
    (fun groups sec =>
       if str_in (fst sec) ["settings"; "ignore_those_lines_in_compare"]
       then groups else <[fst sec := snd sec]> groups)
    config groups0 !! g
  = if reserved g then groups0 !! g
    else match assoc g config with
         | Some items => Some items
         | None => groups0 !! g
         end.
Proof.
  revert groups0. induction config as [|[name items] config IH];
    intros groups0 Hnd.
  - simpl. by destruct (reserved g).
  - apply NoDup_cons in Hnd as [Hnew Hnd]. cbn [fold_left fst snd].
    rewrite (IH _ Hnd). cbn [assoc]. fold (reserved name).
    destruct (reserved g) eqn:Hg.
    + destruct (reserved name) eqn:Hn; [done|].
      rewrite lookup_insert_ne; [done|]. intros ->. congruence.
    + destruct (String.eqb name g) eqn:E.
      * apply String.eqb_eq in E. subst name.
        rewrite (assoc_none g config Hnew), Hg. by rewrite lookup_insert_eq.
      * apply String.eqb_neq in E. destruct (assoc g config); [done|].
        destruct (reserved name); [done|]. by rewrite lookup_insert_ne.
Qed.

(** X7: what the constructor loads from a [config.ini] that
    [configparser] reads, with distinct section names, no section
    [DEFAULT] and no '%' in a value, so that a section has its own
    options only and no value is interpolated. When the constructor
    returns, the credentials are the two options, not empty, of the
    section [settings]; the ignore patterns are the trimmed values of the
    section [ignore_those_lines_in_compare]; a section is a device group,
    with its options, exactly when it is not one of these two, so a run
    on the group [settings] contacts no device and does not return true.
    [_load_config] raises when the section [settings] is missing and
    when the user or the password is missing or empty, and whatever it
    raises is a [RuntimeError] that wraps the message. *)
Theorem load_config_groups (path : string) (config : ini) (tmo : nat)
    (verb : bool) :
  NoDup (map fst config) ->
  "DEFAULT" ∉ map fst config ->
  Forall (fun sec => Forall (fun kv => mem "%"%char kv.2 = false) sec.2)
    config ->
  (forall self, __init__ path config tmo verb = Ok self ->
     (exists settings,
        assoc "settings" config = Some settings
        /\ assoc "user" settings = Some (credentials self).1
        /\ assoc "password" settings = Some (credentials self).2
        /\ (credentials self).1 <> "" /\ (credentials self).2 <> "")
     /\ ignore_patterns self
        = map (fun kv => strip kv.2)
            (default [] (assoc "ignore_those_lines_in_compare" config))
     /\ (forall g, device_groups self !! g
                   = if reserved g then None else assoc g config)
     /\ (forall net ratio set_order g config_file operation dry_run parallel
                backup log,
           reserved g = true ->
           let r := execute net ratio set_order self g config_file operation
                      dry_run parallel backup log in
           r.2 = log /\ r.1 <> Ok true))
  /\ (assoc "settings" config = None ->
      _load_config config
      = Raise (RuntimeError ("Failed to load config.ini: "
                             +:+ "Missing [settings] section in config.ini")))
  /\ (forall settings,
        assoc "settings" config = Some settings ->
        default "" (assoc "user" settings) = ""
        \/ default "" (assoc "password" settings) = "" ->
        _load_config config
        = Raise (RuntimeError
                   ("Failed to load config.ini: "
                    +:+ "Missing user or password in [settings] section")))
  /\ (forall e, _load_config config = Raise e ->
        exists msg, e = RuntimeError ("Failed to load config.ini: " +:+ msg)).
Proof.
  intros Hnd _ _.
  assert (Hgroups : forall g,
            fold_left
              (fun groups sec =>
                 if str_in (fst sec)
                      ["settings"; "ignore_those_lines_in_compare"]
                 then groups else <[fst sec := snd sec]> groups)
              config (∅ : gmap string (list (string * string))) !! g
            = if reserved g then None else assoc g config).
  { intros g. rewrite (load_groups_lookup config ∅ g Hnd).
    rewrite lookup_empty. destruct (reserved g); [done|].
    by destruct (assoc g config). }
  unfold __init__, _load_config.
  set (groups := fold_left _ config ∅) in *. clearbody groups.
  destruct (assoc "settings" config) as [settings|] eqn:Hs; simpl.
  2:{ split; [done|]. split; [done|]. split; [done|].
      intros e [= <-]. by eexists. }
  split.
  - destruct (assoc "user" settings) as [user|] eqn:Hu; simpl; [|done].
    destruct (nonempty user) eqn:Hune; simpl; [|done].
    destruct (assoc "password" settings) as [password|] eqn:Hp; simpl;
      [|done].
    destruct (nonempty password) eqn:Hpne; simpl; [|done].
    intros self [= <-]. simpl. apply nonempty_true in Hune, Hpne.
    split; [exists settings; repeat split; done|]. split.
    { by destruct (assoc "ignore_those_lines_in_compare" config). }
    split; [exact Hgroups|].
    intros net ratio set_order g config_file operation dry_run
      parallel backup log Hg.
    erewrite execute_invalid_group; [done|].
    unfold _validate_group. simpl. by rewrite Hgroups, Hg.
  - split; [done|]. split.
    + intros ? [= <-] Hempty.
      destruct (nonempty (default "" (assoc "user" settings))) eqn:Hune;
        simpl; [|done].
      destruct (nonempty (default "" (assoc "password" settings))) eqn:Hpne;
        simpl; [|done].
      apply nonempty_true in Hune, Hpne. by destruct Hempty.
    + intros e.
      destruct (negb (nonempty (default "" (assoc "user" settings)))
                || negb (nonempty (default "" (assoc "password" settings))));
        simpl; [|done].
      intros [= <-]. by eexists.
Qed.

Lemma load_config_groups_witness :
  (exists self, __init__ "config.ini" config_ini 60 false = Ok self
                /\ device_groups self !! "core"
                   = Some [("r1", "10.0.0.1"); ("r2", "10.0.0.2")]
                /\ device_groups self !! "settings" = None).
Proof.
  assert (Hnd : NoDup (map fst config_ini)).
  { cbn. repeat (apply NoDup_cons_2; [set_solver|]). apply NoDup_nil_2. }
  assert (Hdef : "DEFAULT" ∉ map fst config_ini) by (cbn; set_solver).
  assert (Hraw : Forall (fun sec : string * list (string * string) =>
                           Forall (fun kv : string * string =>
                                     mem "%"%char kv.2 = false) sec.2)
                   config_ini).
  { repeat (apply Forall_cons_2; [repeat constructor|]). apply Forall_nil_2. }
  destruct (load_config_groups "config.ini" config_ini 60 false Hnd Hdef Hraw)
    as [H _].
  destruct (__init__ "config.ini" config_ini 60 false) as [self|e] eqn:E;
    [|by vm_compute in E].
  exists self. split; [done|].
  destruct (H self eq_refl) as (_ & _ & Hg & _).
  by rewrite !Hg.
Defined.

(** ** The lines ignored in a comparison *)

Lemma contains_nil s : contains "" s = true.
Proof. destruct s; by cbn. Qed.

Lemma existsb_false {A} (f : A -> bool) l :
  existsb f l = false <-> forall x, x ∈ l -> f x = false.
Proof.
  induction l as [|y l IH]; simpl.
  - split; [by intros _ x ?%elem_of_nil|done].
  - rewrite orb_false_iff, IH. split.
    + intros [Hy Hl] x [->|Hx]%elem_of_cons; auto.
    + intros H. split; [apply H; by left|]. intros x Hx. apply H. by right.
Qed.

Lemma filter_idem {A} (P : A -> Prop) `{forall x, Decision (P x)}
    (l : list A) :
  filter P (filter P l) = filter P l.
Proof.
  induction l as [|x l IH]; [done|]. rewrite filter_cons.
  destruct (decide (P x)); [|done].
  rewrite filter_cons, decide_True by done. by rewrite IH.
Qed.

(** X8: the filter of the ignore patterns keeps, in their order, the
    lines that contain none of the patterns once trimmed; without a
    pattern it keeps every line; filtering twice is filtering once; and
    an empty pattern, as an option without a value gives, drops every
    line. *)
Theorem filter_config_lines_spec (self : JunosPushTool) (lines : list string) :
  let kept := _filter_config_lines self lines in
  kept `sublist_of` lines
  /\ (forall line,
        line ∈ kept <->
        line ∈ lines
        /\ forall pattern, pattern ∈ ignore_patterns self ->
             contains pattern (strip line) = false)
  /\ _filter_config_lines self kept = kept
  /\ (ignore_patterns self = [] -> kept = lines)
  /\ ("" ∈ ignore_patterns self -> kept = []).
Proof.
  unfold _filter_config_lines.
  destruct (ignore_patterns self) as [|p ps] eqn:Hp; cbn [nonnil negb].
  - cbn zeta. split; [done|]. split.
    + intros line. split; [|tauto]. intros Hl. split; [done|].
      by intros pattern ?%elem_of_nil.
    + split; [done|]. split; [done|]. by intros ?%elem_of_nil.
  - cbn zeta. split; [apply sublist_filter|]. split.
    + intros line. rewrite list_elem_of_filter, existsb_false. tauto.
    + split; [apply filter_idem|]. split; [done|].
      intros Hin. induction lines as [|x lines IH]; [done|].
      rewrite filter_cons, decide_False; [exact IH|].
      intros Hx. rewrite existsb_false in Hx.
      specialize (Hx "" Hin). by rewrite contains_nil in Hx.
Qed.

(** ** The connection test *)

(** X9: the connection test never raises; it answers true exactly when
    the port is open, the session opens and the facts are read; with a
    closed port no session is opened, and a session that was opened is
    closed, also when reading the facts fails. *)
Theorem test_connection_spec (dev : device) (log : list call) :
  let r := Utils.test_connection dev log in
  (r.1 = Ok true \/ r.1 = Ok false)
  /\ (r.1 = Ok true <->
      tcp_open dev = true /\ open_session dev = Ok ()
      /\ facts_refresh dev = Ok ())
  /\ r.2 = log ++
           (if tcp_open dev then
              match open_session dev with
              | Ok _ => [TcpProbe; DevOpen; FactsRefresh; DevClose]
              | Raise _ => [TcpProbe; DevOpen]
              end
            else [TcpProbe]).
Proof.
  unfold Utils.test_connection. run_session.
  destruct (tcp_open dev); simpl.
  - destruct (open_session dev) as [[]|e]; simpl.
    + destruct (facts_refresh dev) as [[]|e]; simpl;
        rewrite <- !app_assoc; simpl; intuition discriminate.
    + rewrite <- !app_assoc; simpl; intuition discriminate.
  - intuition discriminate.
Qed.

(** ** The run *)


Section Run.
Variable net : string -> device.
Variable ratio : string -> string -> Q.
Variable set_order : gset string -> list string.

(** The tasks of the connectivity pool. *)
Definition connectivity_tasks (devices : list string) : list event :=
  map (fun d => Task Connectivity d (Utils.test_connection (net d) []).2)
    devices.


End Run.



(** X11: a dry run contacts no device: nothing is added to the log. It
    returns true only when the group is valid and, unless the operation
    is the comparison, the configuration file is valid; and it does
    return true then, when the name of the group and the addresses of
    its devices, which it shows, are plain text. *)
Theorem dry_run_contacts_no_device (net : string -> device)
    (ratio : string -> string -> Q) (set_order : gset string -> list string)
    (self : JunosPushTool) (group : string) (config_file : config_path)
    (operation : operation) (parallel backup : bool) (log : list event) :
  let r := execute net ratio set_order self group config_file operation true
             parallel backup log in
  r.2 = log
  /\ (r.1 = Ok true ->
      (exists devices, _validate_group self group = Ok devices)
      /\ (operation = Compare
          \/ exists config_content,
               validate_and_clean_config config_file = Ok config_content))
  /\ (forall devices,
        _validate_group self group = Ok devices ->
        operation = Compare
        \/ (exists config_content,
              validate_and_clean_config config_file = Ok config_content) ->
        plain group = true ->
        Forall (fun d => plain d = true) devices ->
        r.1 = Ok true).
Proof.
  unfold execute, catch, lift, mbind, prog_bind, mret, prog_ret.
  destruct (_validate_group self group) as [devices|e]; simpl.
  - destruct (operation_eqb operation Compare) eqn:Hop.
    + assert (operation = Compare) as -> by (by destruct operation).
      split; [done|]. split; [|done].
      intros _. split; [by eexists|by left].
    + destruct (validate_and_clean_config config_file) as [c|e]; simpl.
      * split; [done|]. split; [|done].
        intros _. split; [by eexists|]. right. by eexists.
      * split; [done|]. split; [done|].
        intros ds _ [->|[c Hc]]; done.
  - split; [done|]. split; [done|]. by intros ds.
Qed.

(** X11: a dry run of a commit on the sample group. *)
Lemma dry_run_contacts_no_device_witness :
  (execute net_clean lcs_ratio elements tool "core" (Content ntp) Commit true
     false false []).1 = Ok true.
Proof.
  destruct (dry_run_contacts_no_device net_clean lcs_ratio elements tool "core"
              (Content ntp) Commit false false []) as (_ & _ & H).
  apply (H core_devices); [done| |done|by repeat constructor].
  right. eexists. by vm_compute.
Defined.

(** X12: for an operation other than the comparison, a configuration
    file that fails the validation ends the run before any device is
    contacted, dry run or not: nothing is added to the log and the run
    does not return true; the comparison does not read the configuration
    file: its run is the same for any two files. *)
Theorem invalid_config_aborts (net : string -> device)
    (ratio : string -> string -> Q) (set_order : gset string -> list string)
    (self : JunosPushTool) (group : string) (config_file : config_path)
    (operation : operation) (dry_run parallel backup : bool)
    (log : list event) :
  (operation <> Compare ->
   forall e, validate_and_clean_config config_file = Raise e ->
     let r := execute net ratio set_order self group config_file operation
                dry_run parallel backup log in
     r.2 = log /\ r.1 <> Ok true)
  /\ (forall config_file',
        execute net ratio set_order self group config_file Compare dry_run
          parallel backup log
        = execute net ratio set_order self group config_file' Compare dry_run
            parallel backup log).
Proof.
  split; [|done].
  intros Hop e He. unfold execute, catch, lift, mbind, prog_bind.
  destruct (_validate_group self group) as [devices|e']; [|done].
  replace (operation_eqb operation Compare) with false
    by (by destruct operation).
  by rewrite He.
Qed.

Lemma invalid_config_aborts_witness :
  (execute net_clean lcs_ratio elements tool "core"
     (Content "show system uptime") Commit false false false []).2 = []
  /\ (execute net_clean lcs_ratio elements tool "core"
        (Content "show system uptime") Commit false false false []).1
     <> Ok true.
Proof.
  destruct (invalid_config_aborts net_clean lcs_ratio elements tool "core"
              (Content "show system uptime") Commit false false false [])
    as [H _].
  eapply H; [done|]. by vm_compute.
Defined.

(** ** One push *)

(** The calls made under [with Config], by what the device answers. *)
Definition locked_calls (dev : device) (config_content : string)
    (operation : operation) : list call :=
  match operation with
  | Rollback =>
      map WarnSkipped (_convert_set_to_delete config_content).2
      ++ (if negb (nonempty (strip (_convert_set_to_delete config_content).1))
          then []
          else CfgLoad (_convert_set_to_delete config_content).1
               :: match load dev (_convert_set_to_delete config_content).1 with
                  | Ok _ => [CfgCommit None]
                  | Raise _ => []
                  end)
  | _ =>
      CfgLoad config_content
      :: match load dev config_content with
         | Ok _ =>
             match operation with
             | Check => [CfgCommitCheck]
             | Commit => [CfgCommit None]
             | CommitConfirmed => [CfgCommit (Some 5)]
             | _ => []
             end
         | Raise _ => []
         end
  end.

Lemma push_locked_trace dev config_content operation log :
  (push_locked dev config_content operation log).2
  = log ++ CfgEnter
           :: match enter_config dev with
              | Ok _ => locked_calls dev config_content operation ++ [CfgExit]
              | Raise _ => []
              end.
Proof.
  unfold push_locked, locked_calls.
  destruct (_convert_set_to_delete config_content) as [delete_config skipped].
  cbn [fst snd]. unfold with_config, ensuring, mbind at 1, prog_bind at 1,
    call_out at 1.
  destruct (enter_config dev) as [[]|e]; [|done].
  destruct operation.
  - run_session. destruct (load dev config_content) as [[]|e]; simpl.
    + destruct (commit_check dev) as [[|]|e]; simpl;
        by rewrite <- ?app_assoc.
    + by rewrite <- ?app_assoc.
  - run_session. destruct (load dev config_content) as [[]|e]; simpl.
    + destruct (commit dev None) as [[]|e]; simpl; by rewrite <- ?app_assoc.
    + by rewrite <- ?app_assoc.
  - run_session. destruct (load dev config_content) as [[]|e]; simpl.
    + destruct (commit dev (Some 5)) as [[]|e]; simpl;
        by rewrite <- ?app_assoc.
    + by rewrite <- ?app_assoc.
  - unfold mbind, prog_bind. rewrite warn_skipped.
    destruct (negb (nonempty (strip delete_config))).
    + unfold mret, prog_ret. by rewrite app_nil_r, <- !app_assoc.
    + unfold call_out. destruct (load dev delete_config) as [[]|e].
      * destruct (commit dev None) as [[]|e]; cbn;
          rewrite <- ?app_assoc; cbn; by rewrite <- ?app_assoc.
      * cbn. rewrite <- ?app_assoc. cbn. by rewrite <- ?app_assoc.
  - run_session. destruct (load dev config_content) as [[]|e]; simpl;
      by rewrite <- ?app_assoc.
Qed.

Lemma create_backup_trace dev log :
  Utils.create_backup dev log
  = ((Utils.create_backup dev []).1, log ++ (Utils.create_backup dev []).2).
Proof.
  unfold Utils.create_backup. run_session.
  destruct (get_config dev Active) as [[text|]|e]; simpl;
    [destruct (write_backup dev text) as [[]|e]; simpl|..];
    by rewrite <- ?app_assoc.
Qed.

Lemma create_backup_flag dev :
  (Utils.create_backup dev []).1 = Ok (flag (Utils.create_backup dev []).1).
Proof.
  destruct (create_backup_eq dev []) as (b & calls & -> & _). done.
Qed.

(** The calls of a push, by what the device answers. *)
Lemma push_trace dev config_content operation backup :
  (_push_config_to_device dev config_content operation backup []).2
  = DevOpen
    :: match open_session dev with
       | Raise _ => []
       | Ok _ =>
           (if backup then
              (Utils.create_backup dev []).2
              ++ (if flag (Utils.create_backup dev []).1
                  then (push_locked dev config_content operation []).2
                  else [])
            else (push_locked dev config_content operation []).2)
           ++ [DevClose]
       end.
Proof.
  assert (Hframe : forall log,
            (push_locked dev config_content operation log).2
            = log ++ (push_locked dev config_content operation []).2).
  { intros log. by rewrite (push_locked_trace _ _ _ log),
      (push_locked_trace _ _ _ []). }
  unfold _push_config_to_device, catch, with_device, ensuring,
    mbind at 1, prog_bind at 1, call_out at 1.
  destruct (open_session dev) as [[]|e]; [|by destruct e].
  destruct backup.
  - unfold mbind, prog_bind. rewrite create_backup_trace.
    rewrite (create_backup_flag dev) at 1. cbn [fst snd].
    destruct (flag (Utils.create_backup dev []).1); cbn [negb].
    + match goal with
      | |- context [push_locked dev config_content operation ?l] =>
          pose proof (Hframe l) as Hf;
          destruct (push_locked dev config_content operation l)
            as [[r|e] l'] eqn:E
      end; cbn [fst snd] in *; subst l'; [|destruct e]; cbn;
        by rewrite <- ?app_assoc.
    + unfold mret, prog_ret. cbn. by rewrite app_nil_r.
  - match goal with
    | |- context [push_locked dev config_content operation ?l] =>
        pose proof (Hframe l) as Hf;
        destruct (push_locked dev config_content operation l)
          as [[r|e] l'] eqn:E
    end; cbn [fst snd] in *; subst l'; [|destruct e]; cbn;
      by rewrite <- ?app_assoc.
Qed.

(** What a push needs to succeed under [with Config]. *)
Definition locked_succeeds (dev : device) (config_content : string)
    (operation : operation) : Prop :=
  match operation with
  | Check => load dev config_content = Ok () /\ commit_check dev = Ok true
  | Commit => load dev config_content = Ok () /\ commit dev None = Ok ()
  | CommitConfirmed =>
      load dev config_content = Ok () /\ commit dev (Some 5) = Ok ()
  | Rollback =>
      strip (_convert_set_to_delete config_content).1 <> ""
      /\ load dev (_convert_set_to_delete config_content).1 = Ok ()
      /\ commit dev None = Ok ()
  | Compare => False
  end.

(** What a push needs to succeed: the session opens, the backup, when
    asked for, is written, the private configuration is entered, the
    text is loaded and the last call of the operation succeeds. *)
Definition push_succeeds (dev : device) (config_content : string)
    (operation : operation) (backup : bool) : Prop :=
  open_session dev = Ok ()
  /\ (backup = true ->
      exists text, get_config dev Active = Ok (Some text)
                   /\ write_backup dev text = Ok ())
  /\ enter_config dev = Ok ()
  /\ locked_succeeds dev config_content operation.

Lemma push_locked_true dev config_content operation log :
  (exists message,
     (push_locked dev config_content operation log).1
     = Ok (Some (true, message)))
  <-> enter_config dev = Ok () /\ locked_succeeds dev config_content operation.
Proof.
  unfold push_locked, locked_succeeds.
  destruct (_convert_set_to_delete config_content) as [delete_config skipped].
  cbn [fst snd]. unfold with_config, ensuring, mbind at 1, prog_bind at 1,
    call_out at 1.
  destruct (enter_config dev) as [[]|e];
    [|cbn; split; [by intros [? ?]|by intros [? _]]].
  destruct operation.
  - run_session. destruct (load dev config_content) as [[]|e]; simpl.
    + destruct (commit_check dev) as [[|]|e]; simpl.
      * split; [done|]. intros _. by eexists.
      * split; [by intros [? ?]|]. by intros (_ & _ & ?).
      * split; [by intros [? ?]|]. by intros (_ & _ & ?).
    + split; [by intros [? ?]|]. by intros (_ & ? & _).
  - run_session. destruct (load dev config_content) as [[]|e]; simpl.
    + destruct (commit dev None) as [[]|e]; simpl.
      * split; [done|]. intros _. by eexists.
      * split; [by intros [? ?]|]. by intros (_ & _ & ?).
    + split; [by intros [? ?]|]. by intros (_ & ? & _).
  - run_session. destruct (load dev config_content) as [[]|e]; simpl.
    + destruct (commit dev (Some 5)) as [[]|e]; simpl.
      * split; [done|]. intros _. by eexists.
      * split; [by intros [? ?]|]. by intros (_ & _ & ?).
    + split; [by intros [? ?]|]. by intros (_ & ? & _).
  - unfold mbind, prog_bind. rewrite warn_skipped.
    destruct (nonempty (strip delete_config)) eqn:Hne; cbn [negb].
    + apply nonempty_true in Hne. unfold call_out.
      destruct (load dev delete_config) as [[]|e].
      * destruct (commit dev None) as [[]|e]; cbn.
        -- split; [done|]. intros _. by eexists.
        -- split; [by intros [? ?]|]. by intros (_ & _ & _ & ?).
      * cbn. split; [by intros [? ?]|]. by intros (_ & _ & ? & _).
    + cbn. split; [by intros [? ?]|]. intros (_ & Hs & _).
      unfold nonempty in Hne. apply negb_false_iff, String.eqb_eq in Hne.
      done.
  - run_session. destruct (load dev config_content) as [[]|e]; simpl;
      (split; [by intros [? ?]|by intros [_ ?]]).
Qed.

Lemma push_true dev config_content operation backup log :
  (exists message,
     (_push_config_to_device dev config_content operation backup log).1
     = Ok (Some (true, message)))
  <-> push_succeeds dev config_content operation backup.
Proof.
  unfold push_succeeds.
  pose proof (push_locked_true dev config_content operation) as Hl.
  unfold _push_config_to_device, catch, with_device, ensuring,
    mbind at 1, prog_bind at 1, call_out at 1.
  destruct (open_session dev) as [[]|e];
    [|destruct e; cbn; (split; [by intros [? ?]|by intros [? _]])].
  destruct backup.
  - unfold mbind, prog_bind. rewrite create_backup_trace. cbn [fst snd].
    pose proof (create_backup_true dev) as Hb.
    destruct (create_backup_eq dev []) as (b & calls & Hc & _).
    rewrite Hc in Hb |- *. cbn [fst snd] in *. destruct b; cbn [negb].
    + match goal with
      | |- context [push_locked dev config_content operation ?l] =>
          specialize (Hl l);
          destruct (push_locked dev config_content operation l)
            as [[r|e] l'] eqn:E
      end; cbn [fst snd] in *.
      * rewrite <- Hl. split; [intros H; split; [done|]|by intros (_ & _ & ?)].
        split; [intros _; by apply Hb|done].
      * rewrite <- Hl.
        split; [destruct e; by intros [? ?]|by intros (_ & _ & [? ?])].
    + cbn. split; [by intros [? ?]|]. intros (_ & Hbk & _).
      apply Hb in Hbk; done.
  - match goal with
    | |- context [push_locked dev config_content operation ?l] =>
        specialize (Hl l);
        destruct (push_locked dev config_content operation l)
          as [[r|e] l'] eqn:E
    end; cbn [fst snd] in *.
    + rewrite <- Hl. split; [intros H; split; [done|]|by intros (_ & _ & ?)].
      split; [done|done].
    + rewrite <- Hl.
      split; [destruct e; by intros [? ?]|by intros (_ & _ & [? ?])].
Qed.

(** X13: a push never raises, and any failure is reported as (False,
    message). It reports success only when the session opens, the backup
    (when asked for) is written, the private configuration is entered,
    the text is loaded and the last call of the operation succeeds: the
    check passes, or the commit goes through; for a rollback the
    converted text must not be blank. It does report success then, when
    the address of the device, which the backup shows, and the lines
    that a rollback skips are plain text. *)
Theorem push_success (net : string -> device) (device_ip : string)
    (config_content : string) (operation : operation) (backup : bool)
    (log : list call) :
  let dev := net device_ip in
  let r := _push_config_to_device dev config_content operation backup log in
  (exists outcome, r.1 = Ok outcome)
  /\ (operation <> Compare -> exists success message,
        r.1 = Ok (Some (success, message)))
  /\ ((exists message, r.1 = Ok (Some (true, message)))
      -> push_succeeds dev config_content operation backup)
  /\ (plain device_ip = true ->
      (operation = Rollback ->
       Forall (fun line => plain line = true)
         (_convert_set_to_delete config_content).2) ->
      push_succeeds dev config_content operation backup ->
      exists message, r.1 = Ok (Some (true, message))).
Proof.
  cbn zeta. split; [|split; [|split]].
  - unfold _push_config_to_device, catch.
    destruct (with_device _ _ _) as [[r|e] l]; [by eexists|].
    destruct e; by eexists.
  - apply push_returns.
  - apply push_true.
  - intros _ _. apply push_true.
Qed.

(** X13: a commit with a backup on the first router. *)
Lemma push_success_witness :
  exists message,
    (_push_config_to_device (net_clean "10.0.0.1") ntp Commit true []).1
    = Ok (Some (true, message)).
Proof.
  destruct (push_success net_clean "10.0.0.1" ntp Commit true [])
    as (_ & _ & _ & H).
  apply H; [done|discriminate|].
  split; [done|]. split; [|by split].
  intros _. eexists. split; by vm_compute.
Defined.

Lemma push_calls_in dev config_content operation backup x :
  x ∈ (_push_config_to_device dev config_content operation backup []).2 ->
  x = DevOpen \/ x = DevClose \/ x = RpcGetConfig Active \/ x = BackupWrite
  \/ x = CfgEnter
  \/ (open_session dev = Ok () /\ enter_config dev = Ok ()
      /\ (x = CfgExit \/ x ∈ locked_calls dev config_content operation)
      /\ forall t, t ∈ locked_calls dev config_content operation ->
           t ∈ (_push_config_to_device dev config_content operation backup
                  []).2).
Proof.
  rewrite push_trace, push_locked_trace. cbn [app].
  assert (Hbackup : x ∈ (Utils.create_backup dev []).2 ->
            x = RpcGetConfig Active \/ x = BackupWrite).
  { destruct (create_backup_eq dev []) as (b & calls & -> & [-> | ->] & _);
      cbn; rewrite ?elem_of_cons, ?elem_of_nil; intuition. }
  destruct (open_session dev) as [[]|e];
    [|rewrite list_elem_of_singleton; by left].
  destruct (enter_config dev) as [[]|e].
  - destruct backup; [destruct (flag _)|];
      rewrite ?elem_of_cons, ?elem_of_app, ?elem_of_cons, ?elem_of_app,
        ?list_elem_of_singleton, ?elem_of_nil;
      intros Hx;
      repeat match goal with H : _ \/ _ |- _ => destruct H as [H|H] end;
      try (apply Hbackup in Hx; destruct Hx); auto 10;
      try done;
      do 5 right; (split; [done|]); (split; [done|]); (split; [auto|]);
      intros t Ht;
      rewrite ?elem_of_cons, ?elem_of_app, ?elem_of_cons, ?elem_of_app;
      auto 10.
  - destruct backup; [destruct (flag _)|];
      rewrite ?elem_of_cons, ?elem_of_app, ?elem_of_cons, ?elem_of_app,
        ?list_elem_of_singleton, ?elem_of_nil;
      intros Hx;
      repeat match goal with H : _ \/ _ |- _ => destruct H as [H|H] end;
      try (apply Hbackup in Hx; destruct Hx); auto 10; done.
Qed.

Lemma locked_calls_in dev config_content operation x :
  x ∈ locked_calls dev config_content operation ->
  (exists line, x = WarnSkipped line /\ operation = Rollback)
  \/ (x = CfgLoad (match operation with
                   | Rollback => (_convert_set_to_delete config_content).1
                   | _ => config_content
                   end)
      /\ (operation = Rollback ->
          strip (_convert_set_to_delete config_content).1 <> ""))
  \/ (load dev (match operation with
                | Rollback => (_convert_set_to_delete config_content).1
                | _ => config_content
                end) = Ok ()
      /\ CfgLoad (match operation with
                  | Rollback => (_convert_set_to_delete config_content).1
                  | _ => config_content
                  end) ∈ locked_calls dev config_content operation
      /\ ((x = CfgCommitCheck /\ operation = Check)
          \/ (x = CfgCommit None /\ operation = Commit)
          \/ (x = CfgCommit (Some 5) /\ operation = CommitConfirmed)
          \/ (x = CfgCommit None /\ operation = Rollback))).
Proof.
  unfold locked_calls. destruct operation.
  - destruct (load dev config_content) as [[]|e];
      rewrite ?elem_of_cons, ?elem_of_nil; naive_solver.
  - destruct (load dev config_content) as [[]|e];
      rewrite ?elem_of_cons, ?elem_of_nil; naive_solver.
  - destruct (load dev config_content) as [[]|e];
      rewrite ?elem_of_cons, ?elem_of_nil; naive_solver.
  - rewrite elem_of_app, list_elem_of_fmap.
    intros [(line & -> & _)|Hx]; [left; by eexists|].
    destruct (nonempty (strip _)) eqn:Hne; cbn [negb] in Hx;
      [|by apply elem_of_nil in Hx].
    apply nonempty_true in Hne.
    destruct (load dev _) as [[]|e].
    + apply elem_of_cons in Hx as [->|Hx]; [right; left; by split|].
      apply list_elem_of_singleton in Hx as ->. right. right.
      split; [done|]. split; [apply elem_of_app; right; by left|auto].
    + apply list_elem_of_singleton in Hx as ->. right. left. by split.
  - destruct (load dev config_content) as [[]|e];
      rewrite ?elem_of_cons, ?elem_of_nil; naive_solver.
Qed.

(** The text a push loads: the document, or its conversion for a
    rollback. *)
Definition loaded_text (config_content : string) (operation : operation)
  : string :=
  match operation with
  | Rollback => (_convert_set_to_delete config_content).1
  | _ => config_content
  end.

(** X14: the calls of a push that change the device. A commit is only
    called when loading the text succeeded, in an entered private
    configuration of an open session; a check operation never commits,
    a confirmed commit is only called with 5 minutes, and commit and
    rollback with none; [commit_check] is only called by the check
    operation; the only text ever loaded is the document, or for a
    rollback its conversion, which is then not blank. *)
Theorem commit_discipline (dev : device) (config_content : string)
    (operation : operation) (backup : bool) :
  let calls :=
    (_push_config_to_device dev config_content operation backup []).2 in
  (forall confirm, CfgCommit confirm ∈ calls ->
     ((operation = Commit /\ confirm = None)
      \/ (operation = CommitConfirmed /\ confirm = Some 5)
      \/ (operation = Rollback /\ confirm = None))
     /\ open_session dev = Ok () /\ enter_config dev = Ok ()
     /\ load dev (loaded_text config_content operation) = Ok ()
     /\ CfgLoad (loaded_text config_content operation) ∈ calls)
  /\ (CfgCommitCheck ∈ calls ->
      operation = Check /\ load dev config_content = Ok ())
  /\ (forall text, CfgLoad text ∈ calls ->
        text = loaded_text config_content operation
        /\ enter_config dev = Ok ()
        /\ (operation = Rollback -> strip text <> "")).
Proof.
  cbn zeta. unfold loaded_text. split; [|split].
  - intros confirm Hc. apply push_calls_in in Hc.
    destruct Hc as [?|[?|[?|[?|[?|(Ho & He & [?|Hc] & Hran)]]]]];
      try discriminate.
    apply locked_calls_in in Hc as [(l & ? & _)|[[? _]|(Hl & Hin & Hc)]];
      try discriminate.
    split; [|split; [done|split; [done|split; [done|by apply Hran]]]].
    destruct Hc as [[? _]|[[[= <-] ->]|[[[= <-] ->]|[[= <-] ->]]]];
      [discriminate|auto..].
  - intros Hc. apply push_calls_in in Hc.
    destruct Hc as [?|[?|[?|[?|[?|(Ho & He & [?|Hc] & Hran)]]]]];
      try discriminate.
    apply locked_calls_in in Hc as [(l & ? & _)|[[? _]|(Hl & Hin & Hc)]];
      try discriminate.
    destruct Hc as [[_ ->]|[[? _]|[[? _]|[? _]]]]; try discriminate.
    done.
  - intros text Hc. apply push_calls_in in Hc.
    destruct Hc as [?|[?|[?|[?|[?|(Ho & He & [?|Hc] & Hran)]]]]];
      try discriminate.
    apply locked_calls_in in Hc as [(l & ? & _)|[[[= ->] Hr]|(Hl & Hin & Hc)]];
      try discriminate.
    + split; [done|]. split; [done|]. intros ->. by apply Hr.
    + destruct Hc as [[? _]|[[? _]|[[? _]|[? _]]]]; discriminate.
Qed.

(** ** Sessions are closed *)

(** The calls of a task that opens one session: when the session opens
    it is closed by the last call, and it is opened and closed once. *)
Definition closed_session (dev : device) (calls : list call) : Prop :=
  match open_session dev with
  | Ok _ =>
      exists mid, calls = DevOpen :: mid ++ [DevClose]
                  /\ (DevOpen ∉ mid) /\ (DevClose ∉ mid)
  | Raise _ => calls = [DevOpen]
  end.

Lemma locked_calls_inner dev config_content operation x :
  x ∈ locked_calls dev config_content operation ->
  mutating x = true \/ exists line, x = WarnSkipped line.
Proof.
  intros Hx. apply locked_calls_in in Hx.
  destruct Hx as [(l & -> & _)|[[-> _]|(_ & _ & Hx)]];
    [right; by eexists|by left|].
  left. by destruct Hx as [[-> _]|[[-> _]|[[-> _]|[-> _]]]].
Qed.

Lemma push_locked_inner dev config_content operation x :
  x ∈ (push_locked dev config_content operation []).2 ->
  x <> DevOpen /\ x <> DevClose.
Proof.
  rewrite push_locked_trace. cbn [app]. intros [->|Hx]%elem_of_cons; [done|].
  destruct (enter_config dev); [|by apply elem_of_nil in Hx].
  apply elem_of_app in Hx as [Hx|Hx].
  - apply locked_calls_inner in Hx as [Hx|[l ->]]; [|done].
    split; intros ->; done.
  - by apply list_elem_of_singleton in Hx as ->.
Qed.

Lemma create_backup_inner dev x :
  x ∈ (Utils.create_backup dev []).2 ->
  x = RpcGetConfig Active \/ x = BackupWrite.
Proof.
  destruct (create_backup_eq dev []) as (b & calls & -> & [-> | ->] & _);
    cbn; rewrite ?elem_of_cons, ?elem_of_nil; intuition.
Qed.

Lemma push_closed dev config_content operation backup :
  closed_session dev
    (_push_config_to_device dev config_content operation backup []).2.
Proof.
  unfold closed_session. rewrite push_trace.
  destruct (open_session dev) as [[]|e]; [|done].
  eexists. split; [done|].
  assert (Hl : forall x, x ∈ (push_locked dev config_content operation []).2 ->
                 x <> DevOpen /\ x <> DevClose)
    by apply push_locked_inner.
  assert (Hb : forall x, x ∈ (Utils.create_backup dev []).2 ->
                 x <> DevOpen /\ x <> DevClose).
  { intros x [-> | ->]%create_backup_inner; done. }
  destruct backup; [destruct (flag _)|];
    rewrite ?app_nil_r, ?elem_of_app; split; intros Hin;
    repeat match goal with H : _ \/ _ |- _ => destruct H as [H|H] end;
    first [apply Hl in Hin|apply Hb in Hin]; by destruct Hin.
Qed.

Ltac close_session :=
  match goal with
  | |- exists mid, DevOpen :: ?l = _ /\ _ =>
      exists (removelast l); cbn; split; [reflexivity|];
      rewrite ?elem_of_cons, ?elem_of_nil; intuition discriminate
  end.

Section Readers.
Variable set_order : gset string -> list string.

Lemma readers_closed self dev config_content :
  closed_session dev (_check_pending_config dev []).2
  /\ closed_session dev
       (_check_existing_config set_order config_content dev []).2
  /\ closed_session dev (get_device_config self dev []).2.
Proof.
  unfold closed_session, _check_pending_config, _check_existing_config,
    get_device_config. run_session.
  destruct (open_session dev) as [[]|e]; simpl; [|done].
  split; [|split].
  - destruct (get_config dev Candidate) as [[c|]|?]; simpl;
      [destruct (get_config dev Committed) as [[m|]|?]; simpl|..];
      try (destruct (nonnil (splitlines c) && nonnil (splitlines m)); simpl;
           [case_bool_decide; simpl|]);
      close_session.
  - destruct (get_config dev Active) as [?|?]; simpl;
      close_session.
  - destruct (get_config dev Active) as [[t|]|?]; simpl;
      close_session.
Qed.

End Readers.

(** X15: every task that opens a session closes it, whatever fails in
    between: the calls of a push, of the pending check, of the check of
    the existing configuration and of the retrieval for a comparison
    begin with the opening and, when it succeeded, end with the closing,
    with no other opening or closing. In a push, a private configuration
    that was entered is exited before the session is closed, after the
    last load or commit; when it cannot be entered, nothing is loaded or
    committed. *)
Theorem sessions_closed (set_order : gset string -> list string)
    (self : JunosPushTool) (dev : device) (config_content : string)
    (operation : operation) (backup : bool) :
  let calls :=
    (_push_config_to_device dev config_content operation backup []).2 in
  closed_session dev calls
  /\ closed_session dev (_check_pending_config dev []).2
  /\ closed_session dev
       (_check_existing_config set_order config_content dev []).2
  /\ closed_session dev (get_device_config self dev []).2
  /\ (CfgEnter ∈ calls ->
      match enter_config dev with
      | Ok _ =>
          exists pre body,
            calls = pre ++ CfgEnter :: body ++ [CfgExit; DevClose]
            /\ Forall (fun c => mutating c = false) pre
            /\ (CfgEnter ∉ body) /\ (CfgExit ∉ body)
      | Raise _ =>
          exists pre,
            calls = pre ++ [CfgEnter; DevClose]
            /\ Forall (fun c => mutating c = false) pre
      end).
Proof.
  cbn zeta. split; [apply push_closed|].
  destruct (readers_closed set_order self dev config_content)
    as (H1 & H2 & H3).
  split; [done|]. split; [done|]. split; [done|].
  rewrite push_trace, push_locked_trace. cbn [app].
  assert (Hb : Forall (fun c => mutating c = false)
                 (Utils.create_backup dev []).2).
  { apply Forall_forall. by intros x [-> | ->]%create_backup_inner. }
  assert (Hbody : (CfgEnter ∉ locked_calls dev config_content operation)
                  /\ (CfgExit ∉ locked_calls dev config_content operation)).
  { split; intros Hin; apply locked_calls_in in Hin;
      destruct Hin as [(l & ? & _)|[[? _]|(_ & _ & Hin)]]; try discriminate;
      destruct Hin as [[? _]|[[? _]|[[? _]|[? _]]]]; discriminate. }
  destruct (open_session dev) as [[]|e].
  2:{ rewrite list_elem_of_singleton. done. }
  intros Hin. destruct backup; [destruct (flag _)|].
  - destruct (enter_config dev) as [[]|e].
    + exists (DevOpen :: (Utils.create_backup dev []).2),
        (locked_calls dev config_content operation).
      split; [cbn; rewrite <- ?app_assoc; cbn; by rewrite <- ?app_assoc|].
      split; [by constructor|done].
    + exists (DevOpen :: (Utils.create_backup dev []).2).
      split; [cbn; rewrite <- ?app_assoc; cbn; by rewrite <- ?app_assoc|]. by constructor.
  - rewrite app_nil_r in Hin.
    apply elem_of_cons in Hin as [?|Hin]; [done|].
    apply elem_of_app in Hin as [Hin|Hin].
    + by apply create_backup_inner in Hin as [?|?].
    + by apply list_elem_of_singleton in Hin.
  - destruct (enter_config dev) as [[]|e].
    + exists [DevOpen], (locked_calls dev config_content operation).
      split; [cbn; rewrite <- ?app_assoc; cbn; by rewrite <- ?app_assoc|].
      split; [by repeat constructor|done].
    + exists [DevOpen]. split; [done|]. by repeat constructor.
Qed.

(** ** A rollback with nothing to convert *)

Lemma convert_lines_first lines :
  Forall (fun l => exists c r, l = String c r /\ isspace c = false)
    (convert_lines lines).1.
Proof.
  induction lines as [|line rest IH]; [constructor|].
  cbn [convert_lines]. destruct (convert_lines rest) as [delete_lines skipped].
  cbn [fst] in *. repeat case_match; cbn [fst]; try done;
    (constructor; [by eexists _, _|done]).
Qed.

Lemma strip_join_first sep c r ls :
  isspace c = false -> strip (join sep (String c r :: ls)) <> "".
Proof.
  intros Hc Hs. apply strip_empty in Hs. destruct ls as [|l ls].
  - simpl in Hs. by rewrite Hc in Hs.
  - rewrite join_cons in Hs by done. rewrite append_cons in Hs. simpl in Hs.
    by rewrite Hc in Hs.
Qed.

Lemma converted_blank config_content :
  strip (_convert_set_to_delete config_content).1 = ""
  <-> (convert_lines (split_on nl (strip config_content))).1 = [].
Proof.
  unfold _convert_set_to_delete.
  pose proof (convert_lines_first (split_on nl (strip config_content))) as Hf.
  destruct (convert_lines _) as [delete_lines skipped]. cbn [fst] in *.
  destruct delete_lines as [|l ls]; [done|]. split; [|done].
  inversion Hf as [|? ? (c & r & -> & Hc) _]; subst.
  intros Hs. by apply strip_join_first in Hs.
Qed.

(** X16: the rollback of a document whose skipped lines are plain text,
    on a device whose session and private configuration open. When no
    line of the document is converted, that is, begins with [set] or
    [delete], the push reports (False, "No valid set commands found to
    convert to delete commands"): it warns about the lines it skips, and
    neither loads nor commits. When a line is converted, the converted
    text is not blank and is loaded. *)
Theorem rollback_nothing_to_convert (dev : device) (config_content : string) :
  Forall (fun line => plain line = true)
    (_convert_set_to_delete config_content).2 ->
  open_session dev = Ok () -> enter_config dev = Ok () ->
  let converted := (convert_lines (split_on nl (strip config_content))).1 in
  let r := _push_config_to_device dev config_content Rollback false [] in
  (converted = [] ->
   r = (Ok (Some (false,
          "No valid set commands found to convert to delete commands")),
        [DevOpen; CfgEnter]
        ++ map WarnSkipped (_convert_set_to_delete config_content).2
        ++ [CfgExit; DevClose]))
  /\ (converted <> [] ->
      strip (_convert_set_to_delete config_content).1 <> ""
      /\ CfgLoad (_convert_set_to_delete config_content).1 ∈ r.2).
Proof.
  intros _ Ho He converted r. subst converted r. split.
  - intros Hnone. apply converted_blank in Hnone.
    unfold _push_config_to_device, push_locked, catch, with_device,
      with_config, ensuring, mbind, prog_bind, call_out.
    destruct (_convert_set_to_delete config_content) as [delete_config skipped].
    cbn [fst snd] in *. rewrite Ho, He, warn_skipped, Hnone. cbn.
    by rewrite <- ?app_assoc.
  - intros Hsome.
    assert (Hne : strip (_convert_set_to_delete config_content).1 <> "").
    { intros Hs. by apply converted_blank in Hs. }
    split; [done|]. rewrite push_trace, Ho, push_locked_trace, He.
    cbn [locked_calls]. apply nonempty_true in Hne. rewrite Hne. cbn [negb].
    set_solver.
Qed.

Lemma rollback_nothing_to_convert_witness :
  _push_config_to_device (net_clean "10.0.0.1")
    "activate interfaces ge-0/0/0" Rollback false []
  = (Ok (Some (false,
       "No valid set commands found to convert to delete commands")),
     [DevOpen; CfgEnter; WarnSkipped "activate interfaces ge-0/0/0";
      CfgExit; DevClose]).
Proof.
  destruct (rollback_nothing_to_convert (net_clean "10.0.0.1")
              "activate interfaces ge-0/0/0") as [H _].
  - vm_compute. by repeat constructor.
  - by vm_compute.
  - by vm_compute.
  - apply H. by vm_compute.
Defined.

(** ** The verdict of a run *)

(** The entry of a device in the results of the push pool. *)
Definition outcome (dev : device) (config_content : string)
    (operation : operation) (backup : bool) : bool * string :=
  match (_push_config_to_device dev config_content operation backup []).1 with
  | Ok (Some sm) => sm
  | _ => (false, "")
  end.

Section Verdict.
Variable net : string -> device.
Variable ratio : string -> string -> Q.
Variable set_order : gset string -> list string.

Definition push_results (devices : list string) (config_content : string)
    (operation : operation) (backup : bool) : gmap string (bool * string) :=
  fold_left (fun m kv => <[kv.1 := kv.2]> m)
    (zip devices
       (map (fun d => outcome (net d) config_content operation backup)
          devices)) ∅.

Definition push_tasks (devices : list string) (config_content : string)
    (operation : operation) (backup : bool) : list event :=
  map (fun d => Task Push d
                  (_push_config_to_device (net d) config_content operation
                     backup []).2) devices.

Lemma execute_sequential_total devices config_content operation backup log :
  operation <> Compare ->
  _execute_sequential net devices config_content operation backup log
  = (Ok (push_results devices config_content operation backup),
     log ++ push_tasks devices config_content operation backup).
Proof.
  intros Hop. unfold _execute_sequential, mbind at 1, prog_bind at 1.
  set (f := fun dev : device => _ ≫= _).
  assert (Hf : forall dev,
             f dev [] = (Ok (outcome dev config_content operation backup),
                         (_push_config_to_device dev config_content
                            operation backup []).2)).
  { intros dev. unfold f, outcome, mbind, prog_bind.
    destruct (push_returns dev config_content operation backup [] Hop)
      as (b & msg & Hr).
    destruct (_push_config_to_device _ _ _ _ _) as [r calls].
    simpl in Hr. by subst r. }
  rewrite (for_each_total net Push devices f
             (fun dev => outcome dev config_content operation backup)).
  - unfold mret, prog_ret, push_results, push_tasks. f_equal. f_equal.
    apply map_ext. intros d. by rewrite Hf.
  - intros d. by rewrite Hf.
Qed.

Lemma execute_parallel_total devices config_content operation backup log :
  operation <> Compare ->
  _execute_parallel net devices config_content operation backup log
  = (Ok (push_results devices config_content operation backup),
     log ++ push_tasks devices config_content operation backup).
Proof.
  intros Hop. unfold _execute_parallel, mbind at 1, prog_bind at 1.
  set (f := fun dev : device => catch _ _).
  assert (Hf : forall dev,
             f dev [] = (Ok (outcome dev config_content operation backup),
                         (_push_config_to_device dev config_content
                            operation backup []).2)).
  { intros dev. unfold f, outcome, catch, mbind, prog_bind.
    destruct (push_returns dev config_content operation backup [] Hop)
      as (b & msg & Hr).
    destruct (_push_config_to_device _ _ _ _ _) as [r calls].
    simpl in Hr. by subst r. }
  rewrite (for_each_total net Push devices f
             (fun dev => outcome dev config_content operation backup)).
  - unfold mret, prog_ret, push_results, push_tasks. f_equal. f_equal.
    apply map_ext. intros d. by rewrite Hf.
  - intros d. by rewrite Hf.
Qed.

Lemma push_results_lookup devices config_content operation backup d :
  push_results devices config_content operation backup !! d
  = if decide (d ∈ devices)
    then Some (outcome (net d) config_content operation backup) else None.
Proof.
  unfold push_results.
  by rewrite (results_lookup
                (fun d => outcome (net d) config_content operation backup)).
Qed.

Lemma push_results_all devices config_content operation backup :
  forallb (fun r : string * (bool * string) => r.2.1)
    (map_to_list (push_results devices config_content operation backup))
  = true
  <-> forall d, d ∈ devices ->
        (outcome (net d) config_content operation backup).1 = true.
Proof.
  rewrite forallb_forall. split.
  - intros H d Hd.
    apply (H (d, outcome (net d) config_content operation backup)).
    apply list_elem_of_In, elem_of_map_to_list.
    by rewrite push_results_lookup, decide_True.
  - intros H [d sm] Hin. apply list_elem_of_In, elem_of_map_to_list in Hin.
    rewrite push_results_lookup in Hin.
    destruct (decide (d ∈ devices)) as [Hd|]; [|done].
    injection Hin as <-. by apply H.
Qed.

Lemma outcome_true dev config_content operation backup :
  (outcome dev config_content operation backup).1 = true
  <-> exists message,
        (_push_config_to_device dev config_content operation backup []).1
        = Ok (Some (true, message)).
Proof.
  unfold outcome.
  destruct (_push_config_to_device _ _ _ _ _).1 as [[[b m]|]|e]; simpl.
  - split; [intros ->; by eexists|by intros (? & [= -> _])].
  - split; [done|by intros [? ?]].
  - split; [done|by intros [? ?]].
Qed.

(** The tasks of the pool that checks the existing configuration and of
    the pool that checks for pending changes. *)
Definition status_tasks (devices : list string) (config_content : string)
  : list event :=
  map (fun d => Task ConfigStatus d
                  (_check_existing_config set_order config_content
                     (net d) []).2) devices.

Definition pending_tasks (devices : list string) : list event :=
  map (fun d => Task PendingCheck d (_check_pending_config (net d) []).2)
    devices.

(** A run that is not a dry run, on a valid group with a valid file. *)
Lemma execute_run self group config_file operation parallel backup devices
    config_content log :
  operation <> Compare ->
  _validate_group self group = Ok devices ->
  validate_and_clean_config config_file = Ok config_content ->
  execute net ratio set_order self group config_file operation false
    parallel backup log
  = if negb (forallb (fun d => flag (Utils.test_connection (net d) []).1)
               devices)
    then (Ok false, log ++ connectivity_tasks net devices)
    else if negb (operation_eqb operation Rollback)
            && existsb (fun d => flag (_check_pending_config (net d) []).1)
                 devices
    then (Ok false,
          log ++ connectivity_tasks net devices
          ++ status_tasks devices config_content ++ pending_tasks devices)
    else (Ok (forallb (fun r : string * (bool * string) => r.2.1)
                (map_to_list
                   (push_results devices config_content operation backup))),
          log ++ connectivity_tasks net devices
          ++ status_tasks devices config_content
          ++ (if operation_eqb operation Rollback then []
              else pending_tasks devices)
          ++ push_tasks devices config_content operation backup).
Proof.
  intros Hop Hg Hc.
  unfold execute, catch, lift, mbind at 1, prog_bind at 1. rewrite Hg.
  replace (operation_eqb operation Compare) with false
    by (by destruct operation).
  unfold mbind at 1, prog_bind at 1. rewrite Hc.
  unfold mbind at 1, prog_bind at 1. rewrite test_connectivity_eq.
  fold (connectivity_tasks net devices).
  destruct (forallb _ devices); cbn [negb]; [|done].
  unfold mbind at 1, prog_bind at 1.
  destruct (validate_configuration_status_total net set_order devices
              config_content (log ++ connectivity_tasks net devices))
    as [status ->].
  fold (status_tasks devices config_content).
  rewrite evaluate_config_status_true. cbn [negb orb].
  rewrite orb_false_r.
  unfold mbind at 1, prog_bind at 1.
  destruct (operation_eqb operation Rollback) eqn:Hr; cbn [negb andb].
  - unfold mret at 1, prog_ret at 1. cbn [negb].
    unfold mbind at 1, prog_bind at 1.
    destruct parallel;
      [rewrite execute_parallel_total by done
      |rewrite execute_sequential_total by done];
      unfold mret, prog_ret; by rewrite <- ?app_assoc.
  - rewrite validate_device_state_eq. fold (pending_tasks devices).
    destruct (existsb _ devices); cbn [negb].
    + unfold mret, prog_ret. by rewrite <- ?app_assoc.
    + unfold mbind at 1, prog_bind at 1.
      destruct parallel;
        [rewrite execute_parallel_total by done
        |rewrite execute_sequential_total by done];
        unfold mret, prog_ret; by rewrite <- ?app_assoc.
Qed.

End Verdict.


Lemma forallb_iff {A} (f : A -> bool) (l : list A) :
  forallb f l = true <-> forall x, x ∈ l -> f x = true.
Proof.
  rewrite forallb_forall. split; intros H x Hx; apply H;
    by apply list_elem_of_In.
Qed.




(** The texts that the sequential loop shows for the devices of a pool
    are plain: the address of each device and the message of its push,
    and the lines that a rollback skips. *)
Definition push_texts_plain (net : string -> device) (devices : list string)
    (config_content : string) (operation : operation) (backup : bool)
  : Prop :=
  (operation = Rollback ->
   Forall (fun line => plain line = true)
     (_convert_set_to_delete config_content).2)
  /\ forall d, d ∈ devices ->
       plain d = true
       /\ plain (outcome (net d) config_content operation backup).2 = true.

(** X18: the parallel flag does not change a run whose push pool shows
    plain texts (the sequential loop prints the message of each push
    before it goes on to the next device): for an operation other than
    the comparison a push returns a pair and does not raise, so the
    handler of [_execute_parallel] is never run and both ways of
    running give each device of the group the outcome of its own push;
    the comparison does not reach the push. In the log the tasks of a
    pool are in the order of the group. *)
Theorem parallel_flag_irrelevant (net : string -> device)
    (ratio : string -> string -> Q) (set_order : gset string -> list string)
    (self : JunosPushTool) (group : string) (config_file : config_path)
    (operation : operation) (dry_run backup : bool) (log : list event) :
  (forall devices config_content,
     _validate_group self group = Ok devices ->
     validate_and_clean_config config_file = Ok config_content ->
     push_texts_plain net devices config_content operation backup) ->
  execute net ratio set_order self group config_file operation dry_run true
    backup log
  = execute net ratio set_order self group config_file operation dry_run
      false backup log
  /\ (operation <> Compare ->
      forall devices config_content,
        push_texts_plain net devices config_content operation backup ->
        _execute_parallel net devices config_content operation backup log
        = _execute_sequential net devices config_content operation backup log
        /\ forall d, d ∈ devices ->
             exists results,
               (_execute_parallel net devices config_content operation
                  backup log).1 = Ok results
               /\ (_push_config_to_device (net d) config_content operation
                     backup []).1 = Ok (results !! d)).
Proof.
  intros _. split.
  - assert (Hcases : operation = Compare \/ operation <> Compare)
      by (destruct operation; auto; right; discriminate).
    destruct Hcases as [->|Hop]; [done|].
    destruct (_validate_group self group) as [devices|e] eqn:Hg.
    2:{ by rewrite !(execute_invalid_group _ _ _ _ _ _ _ _ _ _ e log Hg). }
    destruct (validate_and_clean_config config_file) as [config_content|e]
      eqn:Hc.
    2:{ unfold execute, catch, lift, mbind, prog_bind. rewrite Hg.
        replace (operation_eqb operation Compare) with false
          by (by destruct operation).
        by rewrite Hc. }
    destruct dry_run.
    + unfold execute, catch, lift, mbind, prog_bind. rewrite Hg.
      replace (operation_eqb operation Compare) with false
        by (by destruct operation).
      by rewrite Hc.
    + by rewrite !(execute_run net ratio set_order self group config_file
                     operation _ backup devices config_content log Hop Hg Hc).
  - intros Hop devices config_content _.
    rewrite execute_parallel_total, execute_sequential_total by done.
    split; [done|]. intros d Hd. eexists. split; [done|].
    rewrite push_results_lookup, decide_True by done. unfold outcome.
    destruct (push_returns (net d) config_content operation backup [] Hop)
      as (b & msg & ->). done.
Qed.

(** X18: a commit on the sample group, with the backup. *)
Lemma parallel_flag_irrelevant_witness :
  execute net_clean lcs_ratio elements tool "core" (Content ntp) Commit false
    true true []
  = execute net_clean lcs_ratio elements tool "core" (Content ntp) Commit
      false false true [].
Proof.
  destruct (parallel_flag_irrelevant net_clean lcs_ratio elements tool "core"
              (Content ntp) Commit false true []) as [H _]; [|exact H].
  intros devices config_content Hg Hc.
  assert (devices = core_devices) as ->
    by (vm_compute in Hg; by injection Hg as <-).
  assert (config_content = ntp) as ->
    by (vm_compute in Hc; by injection Hc as <-).
  split; [discriminate|].
  intros d Hd. apply elem_of_cons in Hd as [->|Hd]; [by vm_compute|].
  apply list_elem_of_singleton in Hd as ->. by vm_compute.
Defined.

(** ** The comparison *)

(** What the retrieval task of a comparison returns for a device. *)
Definition retrieved (self : JunosPushTool) (dev : device)
  : list string * option string :=
  value ([], None) (get_device_config self dev []).1.

Lemma get_device_config_total self dev log :
  (get_device_config self dev log).1 = Ok (retrieved self dev).
Proof.
  unfold retrieved, get_device_config. run_session.
  destruct (open_session dev) as [[]|e]; simpl; [|done].
  by destruct (get_config dev Active) as [[t|]|e].
Qed.

Lemma filter_config_lines_elem self lines line :
  line ∈ _filter_config_lines self lines <->
  line ∈ lines
  /\ forall pattern, pattern ∈ ignore_patterns self ->
       contains pattern (strip line) = false.
Proof.
  unfold _filter_config_lines.
  destruct (ignore_patterns self) as [|p ps]; cbn [nonnil negb].
  - split; [|tauto]. intros Hl. split; [done|].
    by intros pattern ?%elem_of_nil.
  - rewrite list_elem_of_filter, existsb_false. tauto.
Qed.

(** The texts that the comparison of two devices shows are plain: the
    ignore patterns, the addresses of the devices, the lines retrieved
    from them and the messages of the retrievals that failed. *)
Definition comparison_texts_plain (net : string -> device)
    (self : JunosPushTool) (d1 d2 : string) : Prop :=
  Forall (fun pattern => plain pattern = true) (ignore_patterns self)
  /\ forall d, d = d1 \/ d = d2 ->
       plain d = true
       /\ Forall (fun line => plain line = true) (retrieved self (net d)).1
       /\ forall error, (retrieved self (net d)).2 = Some error ->
                        plain error = true.

Section Comparison.
Variable net : string -> device.
Variable ratio : string -> string -> Q.
Variable set_order : gset string -> list string.

(** X19: the comparison of the two devices of a group. With another
    number of devices it returns false and contacts none. Otherwise it
    returns true only after it retrieved the configuration of both
    devices without error and showed the comparison of the two retrieved
    line lists; when a retrieval failed with a message that is not empty
    it does not return true and shows no comparison. When the texts it
    shows are plain, it does not raise: it retrieves the two
    configurations, and returns false after a failed retrieval and true,
    with the comparison shown, otherwise. A retrieval that failed with
    an empty message counts as an empty configuration. The retrieved
    lines are trimmed lines of the device that are not empty, not
    comments and contain no ignore pattern. *)
Theorem compare_device_configs_flow (self : JunosPushTool)
    (devices : list string) (log : list event) :
  (length devices <> 2 ->
   _compare_device_configs net ratio set_order self devices log
   = (Ok false, log))
  /\ (forall d1 d2, devices = [d1; d2] ->
        let r1 := retrieved self (net d1) in
        let r2 := retrieved self (net d2) in
        let r := _compare_device_configs net ratio set_order self devices
                   log in
        let tasks :=
          [Task Comparison d1 (get_device_config self (net d1) []).2;
           Task Comparison d2 (get_device_config self (net d2) []).2] in
        (r.1 = Ok true ->
         is_error r1 = false /\ is_error r2 = false
         /\ r.2 = log ++ tasks
                  ++ [Report (compare_configs ratio set_order r1.1 r2.1)])
        /\ (is_error r1 = true \/ is_error r2 = true ->
            r.1 <> Ok true
            /\ forall added c, r.2 = log ++ added -> Report c ∉ added)
        /\ (comparison_texts_plain net self d1 d2 ->
            r = (Ok (negb (is_error r1 || is_error r2)),
                 log ++ tasks
                 ++ (if is_error r1 || is_error r2 then []
                     else [Report (compare_configs ratio set_order
                                     r1.1 r2.1)]))))
  /\ (forall dev,
        let r := retrieved self dev in
        (forall e, open_session dev = Raise e
                   \/ (open_session dev = Ok ()
                       /\ get_config dev Active = Raise e) ->
                   exn_str e = "" -> r.1 = [] /\ is_error r = false)
        /\ (forall line, line ∈ r.1 ->
              line <> "" /\ startswith "#" line = false
              /\ (forall pattern, pattern ∈ ignore_patterns self ->
                    contains pattern (strip line) = false)
              /\ exists text raw,
                   get_config dev Active = Ok (Some text)
                   /\ raw ∈ splitlines text /\ line = strip raw)).
Proof.
  split; [|split].
  - intros Hlen. unfold _compare_device_configs.
    by destruct devices as [|d1 [|d2 [|d3 devices]]].
  - intros d1 d2 -> r1 r2 r tasks.
    assert (Hr : r = (Ok (negb (is_error r1 || is_error r2)),
                      log ++ tasks
                      ++ (if is_error r1 || is_error r2 then []
                          else [Report (compare_configs ratio set_order
                                          r1.1 r2.1)]))).
    { subst r tasks. unfold _compare_device_configs, catch,
        mbind at 1, prog_bind at 1.
      rewrite (for_each_total net Comparison [d1; d2] (get_device_config self)
                 (retrieved self))
        by (intros d; apply get_device_config_total).
      cbn [map existsb]. fold r1 r2. rewrite orb_false_r.
      destruct (is_error r1 || is_error r2); cbn [negb].
      + unfold mret, prog_ret. by rewrite app_nil_r.
      + unfold mbind, prog_bind, call_out, mret, prog_ret.
        by rewrite <- app_assoc. }
    split; [|split; [|done]].
    + rewrite Hr. cbn [fst snd].
      destruct (is_error r1 || is_error r2) eqn:E; cbn [negb]; [done|].
      apply orb_false_iff in E as [-> ->]. done.
    + intros Herr. rewrite Hr. cbn [fst snd].
      assert (is_error r1 || is_error r2 = true) as ->
        by (apply orb_true_iff; exact Herr).
      cbn [negb]. split; [done|].
      intros added c Hadd Hin. rewrite app_nil_r in Hadd.
      apply app_inv_head in Hadd. subst added. subst tasks.
      set_solver.
  - intros dev r. subst r. unfold retrieved, get_device_config. run_session.
    split.
    + intros e He Hmsg. destruct (open_session dev) as [[]|e0]; simpl.
      * destruct He as [?|[_ He]]; [done|]. rewrite He. simpl.
        unfold is_error. simpl. by rewrite Hmsg.
      * destruct He as [[= ->]|[? _]]; [|done].
        unfold is_error. simpl. by rewrite Hmsg.
    + intros line. destruct (open_session dev) as [[]|e0]; simpl;
        [|by intros ?%elem_of_nil].
      destruct (get_config dev Active) as [[text|]|e]; simpl;
        [|by intros ?%elem_of_nil..].
      intros Hin. apply filter_config_lines_elem in Hin as [Hin Hpat].
      apply list_elem_of_fmap in Hin as (raw & -> & Hraw).
      apply list_elem_of_filter in Hraw as [Hraw Hin].
      apply andb_true_iff in Hraw as [Hne Hc].
      apply nonempty_true in Hne. apply negb_true_iff in Hc.
      split; [done|]. split; [done|]. split; [done|]. by exists text, raw.
Qed.

End Comparison.

(** X19: the comparison of the two routers of the sample group. *)
Lemma compare_device_configs_flow_witness :
  (_compare_device_configs net_clean lcs_ratio elements tool core_devices
     []).1 = Ok true.
Proof.
  destruct (compare_device_configs_flow net_clean lcs_ratio elements tool
              core_devices []) as (_ & H & _).
  destruct (H "10.0.0.1" "10.0.0.2" eq_refl) as (_ & _ & Hplain).
  rewrite Hplain; [by vm_compute|].
  split; [by constructor|].
  intros d [-> | ->]; (split; [done|]); (split; [|by vm_compute]);
    vm_compute; by repeat constructor.
Defined.

(** ** What the similarity pass leaves unmatched *)

Lemma similarity_floor_pos : (0 < similarity_floor)%Q.
Proof. done. Qed.

Section Leftovers.
Variable ratio : string -> string -> Q.
Variable set_order : gset string -> list string.
Hypothesis set_order_elements : forall s, set_order s ≡ₚ elements s.

(** What the inner loop knows after the lines [seen]: no candidate
    among them scores more than the best one so far. *)
Definition best_max (matched_lines2 : gset string) (line1 : string)
    (seen : list string) (best : option string * Q) : Prop :=
  (best.1 = None -> best.2 = 0%Q)
  /\ forall b, b ∈ seen -> b ∉ matched_lines2 ->
       similar_enough ratio line1 b = true -> (ratio line1 b <= best.2)%Q.

Lemma best_candidate_max matched_lines2 line1 seen list2 best :
  best_max matched_lines2 line1 seen best ->
  best_max matched_lines2 line1 (seen ++ list2)
    (fold_left (best_candidate ratio matched_lines2 line1) list2 best).
Proof.
  revert seen best. induction list2 as [|line2 list2 IH]; intros seen best Hb.
  - by rewrite app_nil_r.
  - cbn [fold_left]. rewrite (cons_middle line2 seen list2), app_assoc.
    apply IH. destruct Hb as [Hnone Hmax]. unfold best_candidate.
    case_bool_decide as Hm.
    { split; [done|]. intros b [Hb|Hb]%elem_of_app; [by apply Hmax|].
      apply list_elem_of_singleton in Hb as ->. done. }
    destruct (similar_enough ratio line1 line2) eqn:Hs.
    2:{ split; [done|]. intros b [Hb|Hb]%elem_of_app; [by apply Hmax|].
        apply list_elem_of_singleton in Hb as ->. congruence. }
    unfold Qlt_bool. destruct (Qle_bool (ratio line1 line2) best.2) eqn:Hle;
      cbn [negb].
    + apply Qle_bool_iff in Hle. split; [done|].
      intros b [Hb|Hb]%elem_of_app; [by apply Hmax|].
      apply list_elem_of_singleton in Hb as ->. done.
    + assert (Hlt : (best.2 < ratio line1 line2)%Q).
      { apply Qnot_le_lt. intros H. apply Qle_bool_iff in H. congruence. }
      split; [done|]. cbn [snd].
      intros b [Hb|Hb]%elem_of_app.
      * intros Hbm Hbs. apply Qlt_le_weak.
        eapply Qle_lt_trans; [by apply Hmax|done].
      * apply list_elem_of_singleton in Hb as ->. intros _ _. apply Qle_refl.
Qed.

(** The result of the inner loop over [list2]. *)
Lemma find_best_max matched_lines2 line1 list2 :
  let best := fold_left (best_candidate ratio matched_lines2 line1) list2
                (None, 0%Q) in
  (forall b', b' ∈ list2 -> b' ∉ matched_lines2 ->
     similar_enough ratio line1 b' = true ->
     match good_match best with
     | Some b => (ratio line1 b' <= ratio line1 b)%Q
     | None => "" ∈ list2
     end).
Proof.
  intros best b' Hin Hnm Hsim.
  pose proof (best_candidate_max matched_lines2 line1 [] list2 (None, 0%Q))
    as Hmax.
  pose proof (best_candidate_ok ratio matched_lines2 line1 [] list2
                (None, 0%Q)) as Hok.
  fold best in Hmax, Hok. cbn [app] in Hmax, Hok.
  destruct Hmax as [Hnone Hmax].
  { split; [done|]. by intros b ?%elem_of_nil. }
  specialize (Hok I). specialize (Hmax b' Hin Hnm Hsim).
  unfold best_ok, good_match in *.
  apply similar_enough_spec in Hsim as (Hfl & _ & _).
  destruct best.1 as [b|].
  - destruct Hok as (Hb & Hbm & Hbs & Heq).
    apply similar_enough_spec in Hbs as (Hbfl & _ & _).
    rewrite Heq in *.
    destruct (nonempty b) eqn:Hne; cbn [andb].
    + assert (Qle_bool similarity_floor (ratio line1 b) = true) as ->
        by (by apply Qle_bool_iff).
      done.
    + unfold nonempty in Hne. apply negb_false_iff, String.eqb_eq in Hne.
      by subst b.
  - rewrite (Hnone eq_refl) in Hmax.
    pose proof similarity_floor_pos as Hpos.
    exfalso. apply (Qlt_irrefl 0).
    eapply Qlt_le_trans; [exact Hpos|].
    eapply Qle_trans; [exact Hfl|exact Hmax].
Qed.

(** The state of the outer loop after the lines [seen] of the first
    side: an unmatched line has no candidate among the unmatched lines
    of the second side, and a matched one has none that scores more than
    its match. *)
Definition leftovers_ok (list2 seen : list string)
    (acc : list (string * string) * gset string * gset string) : Prop :=
  (forall a b, a ∈ seen -> a ∉ acc.1.2 -> b ∈ list2 -> b ∉ acc.2 ->
     similar_enough ratio a b = false)
  /\ (forall a b b', (a, b) ∈ acc.1.1 -> b' ∈ list2 -> b' ∉ acc.2 ->
        similar_enough ratio a b' = true -> (ratio a b' <= ratio a b)%Q).

Lemma match_line_leftovers list2 seen acc line1 :
  "" ∉ list2 ->
  leftovers_ok list2 seen acc ->
  leftovers_ok list2 (seen ++ [line1]) (match_line ratio list2 acc line1).
Proof.
  intros Hempty [Hun Hbest]. destruct acc as [[pairs m1] m2].
  cbn [fst snd] in *. unfold match_line.
  pose proof (find_best_max m2 line1 list2) as Hmax. cbn zeta in Hmax.
  destruct (good_match _) as [b|] eqn:Hb.
  - split; cbn [fst snd].
    + intros a b' [Ha|Ha]%elem_of_app Hm1 Hb' Hm2.
      * apply Hun; [done| |done|]; set_solver.
      * apply list_elem_of_singleton in Ha as ->. set_solver.
    + intros a b0 b' [Hab|Hab]%elem_of_app Hb' Hm2 Hs.
      * apply (Hbest a b0 b'); [done..| |done]. set_solver.
      * apply list_elem_of_singleton in Hab. injection Hab as -> ->.
        apply (Hmax b'); [done| |done]. set_solver.
  - split; cbn [fst snd]; [|done].
    intros a b' [Ha|Ha]%elem_of_app Hm1 Hb' Hm2; [by apply Hun|].
    apply list_elem_of_singleton in Ha as ->.
    apply not_true_iff_false. intros Hs. by apply Hempty, (Hmax b').
Qed.

Lemma matching_loop_leftovers list2 seen list1 acc :
  "" ∉ list2 ->
  leftovers_ok list2 seen acc ->
  leftovers_ok list2 (seen ++ list1)
    (fold_left (match_line ratio list2) list1 acc).
Proof.
  intros Hempty. revert seen acc.
  induction list1 as [|line1 list1 IH]; intros seen acc Hok.
  - by rewrite app_nil_r.
  - cbn [fold_left]. rewrite (cons_middle line1 seen list1), app_assoc.
    apply IH. by apply match_line_leftovers.
Qed.

Lemma find_similar_lines_advanced_leftovers lines1 lines2 :
  "" ∉ lines2 ->
  let r := _find_similar_lines_advanced ratio set_order lines1 lines2 in
  (forall a b, a ∈ r.1.2 -> b ∈ r.2 -> similar_enough ratio a b = false)
  /\ (forall a b b', (a, b) ∈ r.1.1 -> b' ∈ r.2 ->
        similar_enough ratio a b' = true -> (ratio a b' <= ratio a b)%Q).
Proof.
  intros Hempty. unfold _find_similar_lines_advanced.
  pose proof (matching_loop_leftovers (set_order lines2) []
                (set_order lines1) ([], ∅, ∅)) as H.
  destruct (fold_left _ _ _) as [[pairs m1] m2].
  destruct H as [Hun Hbest].
  - by rewrite (set_order_in set_order set_order_elements).
  - split; cbn [fst snd]; [|by intros a b b' ?%elem_of_nil].
    by intros a b ?%elem_of_nil.
  - cbn [fst snd app] in *. split.
    + intros a b [Ha Hm1]%elem_of_difference [Hb Hm2]%elem_of_difference.
      apply Hun; try done;
        by apply (set_order_in set_order set_order_elements).
    + intros a b b' Hab [Hb Hm2]%elem_of_difference Hs.
      apply (Hbest a b b'); try done.
      by apply (set_order_in set_order set_order_elements).
Qed.

(** X20: the similarity pass of a comparison is complete on what it
    leaves: when the second device has no empty line, no line shown as
    unique to the first device is similar (ratio in [0.85, 1)) to a line
    shown as unique to the second one; and the line paired with a line
    of the first device scores at least as much as any similar line left
    unique on the second device. *)
Theorem similarity_pass_complete (results1 results2 : list string) :
  "" ∉ results2 ->
  let c := compare_configs ratio set_order results1 results2 in
  (forall a b, a ∈ truly_unique1 c -> b ∈ truly_unique2 c ->
     similar_enough ratio a b = false)
  /\ (forall a b b', (a, b) ∈ similar_pairs c -> b' ∈ truly_unique2 c ->
        similar_enough ratio a b' = true -> (ratio a b' <= ratio a b)%Q).
Proof.
  intros Hempty. unfold compare_configs.
  set (config1 := list_to_set results1 : gset string).
  set (config2 := list_to_set results2 : gset string).
  pose proof (find_similar_lines_advanced_leftovers
                (config1 ∖ (config1 ∩ config2)) (config2 ∖ (config1 ∩ config2)))
    as H.
  destruct (_find_similar_lines_advanced _ _ _ _) as [[pairs tu1] tu2].
  cbn [fst snd] in *. apply H.
  intros [Hin _]%elem_of_difference. apply Hempty.
  by apply elem_of_list_to_set in Hin.
Qed.

End Leftovers.

(** X20: two routers that differ in one short line each. *)
Lemma similarity_pass_complete_witness :
  similar_enough lcs_ratio "set a"
    "set b" = false.
Proof.
  destruct (similarity_pass_complete lcs_ratio elements elements_order
              ["set vlan 10"; "set a"]
              ["set vlan 20"; "set b"]) as [H _].
  - rewrite !elem_of_cons, elem_of_nil. intuition discriminate.
  - apply H.
    + apply elem_of_elements.
      assert (Hu : elements
                     (truly_unique1
                        (compare_configs lcs_ratio elements
                           ["set vlan 10"; "set a"]
                           ["set vlan 20"; "set b"]))
                   = ["set a"]) by (by vm_compute).
      rewrite Hu. by left.
    + apply elem_of_elements.
      assert (Hu : elements
                     (truly_unique2
                        (compare_configs lcs_ratio elements
                           ["set vlan 10"; "set a"]
                           ["set vlan 20"; "set b"]))
                   = ["set b"]) by (by vm_compute).
      rewrite Hu. by left.
Defined.

(** ** The check of the existing configuration *)

(** The lines of the active configuration of a device, as
    [_check_existing_config] reads them. *)
Definition current_lines (dev : device) : gset string :=
  match get_config dev Active with
  | Ok (Some text) => if nonempty text then config_line_set text else ∅
  | _ => ∅
  end.

Lemma size_split (X Y : gset string) : size X = size (X ∩ Y) + size (X ∖ Y).
Proof.
  rewrite <- size_union by set_solver. f_equal. apply set_eq. intros x.
  rewrite elem_of_union, elem_of_intersection, elem_of_difference.
  destruct (decide (x ∈ Y)); tauto.
Qed.

Section Status.
Variable net : string -> device.
Variable set_order : gset string -> list string.
Hypothesis set_order_elements : forall s, set_order s ≡ₚ elements s.

(** The entry of a device in the result of
    [_validate_configuration_status]. *)
Definition device_status (config_content : string) (dev : device)
  : config_status :=
  let r := value (false, [], [])
             (_check_existing_config set_order config_content dev []).1 in
  {| has_existing := r.1.1;
     existing_lines := r.1.2;
     new_lines := r.2;
     total_proposed := length r.1.2 + length r.2;
     existing_count := length r.1.2;
     new_count := length r.2 |}.

Lemma validate_configuration_status_eq devices config_content log :
  _validate_configuration_status net set_order devices config_content log
  = (Ok (fold_left (fun m kv => <[kv.1 := kv.2]> m)
           (zip devices
              (map (fun d => device_status config_content (net d)) devices))
           ∅),
     log ++ map (fun d => Task ConfigStatus d
                   (_check_existing_config set_order config_content
                      (net d) []).2) devices).
Proof.
  unfold _validate_configuration_status, mbind at 1, prog_bind at 1.
  set (f := fun dev : device => _ ≫= _).
  assert (Hf : forall dev,
             f dev [] = (Ok (device_status config_content dev),
                         (_check_existing_config set_order config_content
                            dev []).2)).
  { intros dev. unfold f, device_status, mbind, prog_bind.
    destruct (check_existing_total set_order config_content dev [])
      as [[[h e] n] Hr].
    destruct (_check_existing_config _ _ _ _) as [r calls].
    simpl in Hr. by subst r. }
  rewrite (for_each_total net ConfigStatus devices f
             (device_status config_content)).
  - unfold mret, prog_ret. f_equal. f_equal. apply map_ext.
    intros d. by rewrite Hf.
  - intros d. by rewrite Hf.
Qed.

Lemma set_order_length (s : gset string) : length (set_order s) = size s.
Proof. by rewrite set_order_elements. Qed.

Lemma device_status_read config_content dev current :
  open_session dev = Ok () -> get_config dev Active = Ok current ->
  existing_lines (device_status config_content dev)
  = set_order (config_line_set config_content ∩ current_lines dev)
  /\ new_lines (device_status config_content dev)
     = set_order (config_line_set config_content ∖ current_lines dev)
  /\ has_existing (device_status config_content dev)
     = (0 <? size (config_line_set config_content ∩ current_lines dev)).
Proof.
  intros Ho Hc. unfold device_status, _check_existing_config, current_lines.
  run_session. rewrite Ho. simpl. rewrite Hc. simpl.
  by rewrite set_order_length.
Qed.

Lemma device_status_failed config_content dev :
  (open_session dev <> Ok ()
   \/ exists e, get_config dev Active = Raise e) ->
  device_status config_content dev
  = {| has_existing := false; existing_lines := []; new_lines := [];
       total_proposed := 0; existing_count := 0; new_count := 0 |}.
Proof.
  intros Hfail. unfold device_status, _check_existing_config.
  run_session. destruct (open_session dev) as [[]|e]; simpl; [|done].
  destruct Hfail as [?|[e He]]; [done|]. by rewrite He.
Qed.

Lemma device_status_counts config_content dev :
  existing_count (device_status config_content dev)
  = length (existing_lines (device_status config_content dev))
  /\ new_count (device_status config_content dev)
     = length (new_lines (device_status config_content dev)).
Proof. done. Qed.

(** X21: the entry of a device in the check of the existing
    configuration. The proposed lines are split into the lines that the
    device has and the lines that are new, so when the device is read
    "Total Lines" is the number of distinct proposed lines; when reading
    the device fails the entry is all zeros. The status shown is never
    "No Changes": a device that could not be read, and an empty
    proposal, are shown as "All New"; "Fully Present" is shown exactly
    when there is a proposed line and the device has every proposed
    line. *)
Theorem existing_configuration_status (devices : list string)
    (config_content : string) (d : string) (log : list event) :
  let st := device_status config_content (net d) in
  let proposed := config_line_set config_content in
  (d ∈ devices ->
   exists results,
     (_validate_configuration_status net set_order devices config_content
        log).1 = Ok results
     /\ results !! d = Some st)
  /\ total_proposed st = existing_count st + new_count st
  /\ (open_session (net d) = Ok () ->
      (exists current, get_config (net d) Active = Ok current) ->
      total_proposed st = size proposed
      /\ (forall l, l ∈ existing_lines st <->
                    l ∈ proposed /\ l ∈ current_lines (net d))
      /\ (forall l, l ∈ new_lines st <->
                    l ∈ proposed /\ l ∉ current_lines (net d))
      /\ (has_existing st = true <-> 0 < existing_count st))
  /\ (open_session (net d) <> Ok ()
      \/ (exists e, get_config (net d) Active = Raise e) ->
      total_proposed st = 0 /\ has_existing st = false
      /\ status_text st = AllNew)
  /\ status_text st <> NoChanges
  /\ (proposed = ∅ -> status_text st = AllNew)
  /\ (status_text st = FullyPresent <->
      open_session (net d) = Ok ()
      /\ (exists current, get_config (net d) Active = Ok current)
      /\ proposed <> ∅ /\ proposed ⊆ current_lines (net d)).
Proof.
  intros st proposed.
  assert (Htotal : total_proposed st = existing_count st + new_count st)
    by done.
  assert (Hread : open_session (net d) = Ok () ->
            (exists current, get_config (net d) Active = Ok current) ->
            existing_count st = size (proposed ∩ current_lines (net d))
            /\ new_count st = size (proposed ∖ current_lines (net d))).
  { intros Ho [current Hc].
    destruct (device_status_read config_content (net d) current Ho Hc)
      as (He & Hn & _).
    destruct (device_status_counts config_content (net d)) as [Hce Hcn].
    fold st in Hce, Hcn, He, Hn.
    by rewrite Hce, Hcn, He, Hn, !set_order_length. }
  assert (Hfail : open_session (net d) <> Ok ()
            \/ (exists e, get_config (net d) Active = Raise e) ->
            st = {| has_existing := false; existing_lines := [];
                    new_lines := []; total_proposed := 0;
                    existing_count := 0; new_count := 0 |})
    by apply device_status_failed.
  assert (Hcases : (open_session (net d) = Ok ()
                    /\ exists current, get_config (net d) Active = Ok current)
                   \/ (open_session (net d) <> Ok ()
                       \/ exists e, get_config (net d) Active = Raise e)).
  { destruct (open_session (net d)) as [[]|e]; [|right; by left].
    destruct (get_config (net d) Active) as [current|e].
    - left. split; [done|by eexists].
    - right. right. by eexists. }
  split; [|split; [done|split; [|split; [|split; [|split]]]]].
  - intros Hd. rewrite validate_configuration_status_eq. eexists.
    split; [done|].
    rewrite (results_lookup
               (fun d => device_status config_content (net d)) devices d ∅).
    by rewrite decide_True.
  - intros Ho Hc. destruct (Hread Ho Hc) as [He Hn].
    destruct Hc as [current Hc].
    destruct (device_status_read config_content (net d) current Ho Hc)
      as (Hel & Hnl & Hh).
    fold st in Hel, Hnl, Hh. split; [|split; [|split]].
    + rewrite Htotal, He, Hn. symmetry. apply size_split.
    + intros l. rewrite Hel, (set_order_in set_order set_order_elements).
      apply elem_of_intersection.
    + intros l. rewrite Hnl, (set_order_in set_order set_order_elements).
      apply elem_of_difference.
    + rewrite Hh, He. apply Nat.ltb_lt.
  - intros Hf. by rewrite (Hfail Hf).
  - unfold status_text. rewrite Htotal.
    destruct (existing_count st) as [|e], (new_count st) as [|n];
      cbn; try done.
    + by rewrite Nat.eqb_refl.
    + rewrite Nat.add_0_r, Nat.eqb_refl. done.
    + destruct (e =? e + S n); done.
  - intros Hempty. destruct Hcases as [[Ho Hc]|Hf];
      [|by rewrite (Hfail Hf)].
    destruct (Hread Ho Hc) as [He Hn]. unfold status_text.
    rewrite Htotal, He, Hn. unfold proposed in Hempty. fold proposed.
    assert (proposed ∩ current_lines (net d) = ∅) as -> by set_solver.
    assert (proposed ∖ current_lines (net d) = ∅) as -> by set_solver.
    by rewrite size_empty.
  - split.
    + intros Hfull. destruct Hcases as [[Ho Hc]|Hf];
        [|by rewrite (Hfail Hf) in Hfull].
      split; [done|]. split; [done|].
      destruct (Hread Ho Hc) as [He Hn]. unfold status_text in Hfull.
      rewrite Htotal in Hfull.
      destruct ((existing_count st =? existing_count st + new_count st)
                && (0 <? existing_count st + new_count st)) eqn:E.
      2:{ repeat case_match; done. }
      apply andb_true_iff in E as [E1 E2].
      apply Nat.eqb_eq in E1. apply Nat.ltb_lt in E2.
      assert (Hz : size (proposed ∖ current_lines (net d)) = 0) by lia.
      apply size_empty_iff in Hz. split; [|set_solver].
      intros Hp. rewrite He in E2. assert (new_count st = 0) by lia.
      rewrite Hp in E2. rewrite intersection_empty_l_L, size_empty in E2.
      lia.
    + intros (Ho & Hc & Hne & Hsub). destruct (Hread Ho Hc) as [He Hn].
      unfold status_text. rewrite Htotal, He, Hn.
      assert (proposed ∩ current_lines (net d) = proposed) as ->
        by set_solver.
      assert (proposed ∖ current_lines (net d) = ∅) as -> by set_solver.
      rewrite size_empty, Nat.add_0_r, Nat.eqb_refl.
      assert (size proposed <> 0).
      { intros Hz. by apply size_empty_iff, leibniz_equiv in Hz. }
      assert ((0 <? size proposed) = true) as -> by (apply Nat.ltb_lt; lia).
      done.
Qed.

End Status.

(** X21: the first router has both lines of its own text. *)
Lemma existing_configuration_status_witness :
  status_text (device_status elements r1_text (net_clean "10.0.0.1"))
  = FullyPresent.
Proof.
  destruct (existing_configuration_status net_clean elements elements_order
              core_devices r1_text "10.0.0.1" [])
    as (_ & _ & _ & _ & _ & _ & H).
  apply H. split; [done|]. split; [by eexists|]. split.
  - intros He. apply (f_equal elements) in He. by vm_compute in He.
  - intros l Hl. apply elem_of_elements in Hl. apply elem_of_elements.
    assert (Hp : elements (config_line_set r1_text)
                 = elements (current_lines (net_clean "10.0.0.1")))
      by (by vm_compute).
    by rewrite <- Hp.
Defined.

(** ** Configurations that are shown as identical *)

Section Identical.
Variable ratio : string -> string -> Q.
Variable set_order : gset string -> list string.
Hypothesis set_order_elements : forall s, set_order s ≡ₚ elements s.

Lemma compare_sizes results1 results2 :
  let config1 : gset string := list_to_set results1 in
  let config2 : gset string := list_to_set results2 in
  let c := compare_configs ratio set_order results1 results2 in
  size config1
  = size (config1 ∩ config2) + size (truly_unique1 c)
    + length (similar_pairs c)
  /\ size config2
     = size (config1 ∩ config2) + size (truly_unique2 c)
       + length (similar_pairs c).
Proof.
  intros config1 config2 c.
  destruct (compare_configs_ok ratio set_order set_order_elements
              results1 results2)
    as (Hc & Ht1 & Ht2 & Hn1 & Hn2 & Hp & Hu1 & Hu2).
  fold config1 config2 c in Hc, Ht1, Ht2, Hn1, Hn2, Hp, Hu1, Hu2.
  set (m1 := list_to_set (similar_pairs c).*1 : gset string) in *.
  set (m2 := list_to_set (similar_pairs c).*2 : gset string) in *.
  assert (Hm1 : m1 ⊆ config1 ∖ config2).
  { intros a Ha. apply elem_of_list_to_set, list_elem_of_fmap in Ha
      as ([a' b] & -> & Hab). by apply Hp in Hab as (? & _). }
  assert (Hm2 : m2 ⊆ config2 ∖ config1).
  { intros b Hb. apply elem_of_list_to_set, list_elem_of_fmap in Hb
      as ([a b'] & -> & Hab). by apply Hp in Hab as (_ & ? & _). }
  assert (Hs1 : size m1 = length (similar_pairs c)).
  { unfold m1. rewrite size_list_to_set by done. by rewrite length_fmap. }
  assert (Hs2 : size m2 = length (similar_pairs c)).
  { unfold m2. rewrite size_list_to_set by done. by rewrite length_fmap. }
  pose proof (size_split config1 config2) as Hd1.
  pose proof (size_split config2 config1) as Hd2.
  rewrite (comm_L (∩) config2 config1) in Hd2.
  pose proof (subseteq_size _ _ Hm1) as Hle1.
  pose proof (subseteq_size _ _ Hm2) as Hle2.
  rewrite Hu1, Hu2, (size_difference _ m1 Hm1), (size_difference _ m2 Hm2).
  lia.
Qed.

(** X22: when are two configurations shown as identical. The comparison
    has no unique line on either side and no similar pair exactly when
    both devices have the same set of lines, in any order and with any
    repetition; then every line is common. When there is no unique line
    on either side, which is when "Configurations are functionally
    identical!" is shown, both devices have the same number of lines. *)
Theorem identical_configurations (results1 results2 : list string) :
  let config1 : gset string := list_to_set results1 in
  let config2 : gset string := list_to_set results2 in
  let c := compare_configs ratio set_order results1 results2 in
  (config1 = config2 <->
   truly_unique1 c = ∅ /\ truly_unique2 c = ∅ /\ similar_pairs c = [])
  /\ (config1 = config2 -> common_lines c = config1)
  /\ (truly_unique1 c = ∅ -> truly_unique2 c = ∅ -> total1 c = total2 c).
Proof.
  intros config1 config2 c.
  destruct (compare_configs_ok ratio set_order set_order_elements
              results1 results2)
    as (Hc & Ht1 & Ht2 & Hn1 & Hn2 & Hp & Hu1 & Hu2).
  fold config1 config2 c in Hc, Ht1, Ht2, Hn1, Hn2, Hp, Hu1, Hu2.
  destruct (compare_sizes results1 results2) as [Hs1 Hs2].
  fold config1 config2 c in Hs1, Hs2.
  split; [|split].
  - split.
    + intros Heq.
      assert (Hnil : similar_pairs c = []).
      { destruct (similar_pairs c) as [|[a b] l]; [done|].
        destruct (Hp a b) as (Ha & _); [by left|]. set_solver. }
      rewrite Hu1, Hu2, Hnil. set_solver.
    + intros (H1 & H2 & Hnil). rewrite Hu1, Hnil in H1.
      rewrite Hu2, Hnil in H2. cbn in H1, H2.
      apply set_eq. intros x. split; intros Hx.
      * destruct (decide (x ∈ config2)); [done|]. set_solver.
      * destruct (decide (x ∈ config1)); [done|]. set_solver.
  - intros Heq. rewrite Hc. set_solver.
  - intros H1 H2. rewrite Ht1, Ht2, Hs1, Hs2, H1, H2. done.
Qed.

End Identical.

(** X22: the first router compared with itself. *)
Lemma identical_configurations_witness :
  similar_pairs (compare_configs lcs_ratio elements (splitlines r1_text)
                   (splitlines r1_text)) = [].
Proof.
  destruct (identical_configurations lcs_ratio elements elements_order
              (splitlines r1_text) (splitlines r1_text)) as [[H _] _].
  by destruct (H eq_refl) as (_ & _ & ?).
Defined.

(** ** [ConfigDiffer] *)

Section Differ.
Import Utils.
Variable set_order : gset string -> list string.
Hypothesis set_order_elements : forall s, set_order s ≡ₚ elements s.

Lemma line_set_size config : 1 <= size (ConfigDiffer.line_set config).
Proof.
  unfold ConfigDiffer.line_set.
  destruct (split_on nl (strip config)) as [|l ls] eqn:E.
  - pose proof (split_on_length nl (strip config)) as H. rewrite E in H.
    simpl in H. lia.
  - assert (Hin : l ∈ (list_to_set (l :: ls) : gset string)) by set_solver.
    assert (Hne : (list_to_set (l :: ls) : gset string) <> ∅) by set_solver.
    destruct (size (list_to_set (l :: ls) : gset string)) eqn:Hs; [|lia].
    by apply size_empty_iff, leibniz_equiv in Hs.
Qed.

(** X23: the differences that [ConfigDiffer.compare_configs] returns.
    Each list has the lines of its set once; a line of the second
    configuration is either added or common, a line of the first either
    removed or common; the number of changes is the number of added plus
    the number of removed lines, and it is 0 exactly when both
    configurations have the same set of lines; swapping the
    configurations swaps added and removed. A configuration has at least
    one line: the empty text counts as one empty line. *)
Theorem config_differ_counts (config1 config2 : string) :
  let d := ConfigDiffer.compare_configs set_order config1 config2 in
  let lines1 := ConfigDiffer.line_set config1 in
  let lines2 := ConfigDiffer.line_set config2 in
  ConfigDiffer.total_changes d
  = length (ConfigDiffer.added_lines d)
    + length (ConfigDiffer.removed_lines d)
  /\ length (ConfigDiffer.added_lines d)
     + length (ConfigDiffer.common_lines d) = size lines2
  /\ length (ConfigDiffer.removed_lines d)
     + length (ConfigDiffer.common_lines d) = size lines1
  /\ 1 <= size lines1 /\ 1 <= size lines2
  /\ NoDup (ConfigDiffer.added_lines d)
  /\ NoDup (ConfigDiffer.removed_lines d)
  /\ NoDup (ConfigDiffer.common_lines d)
  /\ (forall l, l ∈ ConfigDiffer.added_lines d <-> l ∈ lines2 /\ l ∉ lines1)
  /\ (forall l, l ∈ ConfigDiffer.removed_lines d
                <-> l ∈ lines1 /\ l ∉ lines2)
  /\ (forall l, l ∈ ConfigDiffer.common_lines d <-> l ∈ lines1 /\ l ∈ lines2)
  /\ (ConfigDiffer.total_changes d = 0 <-> lines1 = lines2)
  /\ ConfigDiffer.added_lines
       (ConfigDiffer.compare_configs set_order config2 config1)
     = ConfigDiffer.removed_lines d
  /\ ConfigDiffer.total_changes
       (ConfigDiffer.compare_configs set_order config2 config1)
     = ConfigDiffer.total_changes d.
Proof.
  intros d lines1 lines2. unfold d, ConfigDiffer.compare_configs.
  cbn [ConfigDiffer.added_lines ConfigDiffer.removed_lines
       ConfigDiffer.common_lines ConfigDiffer.total_changes].
  fold lines1 lines2.
  pose proof (set_order_length set_order set_order_elements) as Hlen.
  pose proof (set_order_in set_order set_order_elements) as Hin.
  pose proof (set_order_nodup set_order set_order_elements) as Hnd.
  rewrite !Hlen.
  assert (Hsym : size ((lines1 ∖ lines2) ∪ (lines2 ∖ lines1))
                 = size (lines2 ∖ lines1) + size (lines1 ∖ lines2)).
  { rewrite size_union by set_solver. lia. }
  pose proof (size_split lines1 lines2) as H1.
  pose proof (size_split lines2 lines1) as H2.
  rewrite (comm_L (∩) lines2 lines1) in H2.
  split; [done|]. split; [lia|]. split; [lia|].
  split; [apply line_set_size|]. split; [apply line_set_size|].
  split; [apply Hnd|]. split; [apply Hnd|]. split; [apply Hnd|].
  split; [intros l; rewrite Hin; set_solver|].
  split; [intros l; rewrite Hin; set_solver|].
  split; [intros l; rewrite Hin; set_solver|].
  split; [|split; [done|]].
  - rewrite Hsym. split.
    + intros Hz.
      assert (Ha : size (lines2 ∖ lines1) = 0) by lia.
      assert (Hb : size (lines1 ∖ lines2) = 0) by lia.
      apply size_empty_iff in Ha, Hb. apply set_eq. intros x.
      split; intros Hx.
      * destruct (decide (x ∈ lines2)); [done|]. set_solver.
      * destruct (decide (x ∈ lines1)); [done|]. set_solver.
    + intros ->.
      assert (lines2 ∖ lines2 = ∅) as -> by set_solver.
      by rewrite size_empty.
  - f_equal. set_solver.
Qed.

End Differ.

(** X23: the texts of the two routers differ in one line each. *)
Lemma config_differ_counts_witness :
  Utils.ConfigDiffer.total_changes
    (Utils.ConfigDiffer.compare_configs elements r1_text r2_text)
  = length (Utils.ConfigDiffer.added_lines
              (Utils.ConfigDiffer.compare_configs elements r1_text r2_text))
    + length (Utils.ConfigDiffer.removed_lines
                (Utils.ConfigDiffer.compare_configs elements r1_text r2_text)).
Proof.
  destruct (config_differ_counts elements elements_order r1_text r2_text)
    as [H _].
  exact H.
Defined.

(** ** The cleanup of old backups *)

Section Cleanup.
Import Utils.Backups.
Variable fs : filesystem.

(** Newest first: a later entry is not newer than an earlier one. *)
Definition not_newer (x y : Q * string) : Prop := (y.1 <= x.1)%Q.

Lemma insert_newest_perm x l : insert_newest x l ≡ₚ x :: l.
Proof.
  induction l as [|y rest IH]; [done|]. cbn [insert_newest].
  destruct (Qle_bool y.1 x.1); [done|].
  rewrite IH. apply Permutation_swap.
Qed.

Lemma sorted_newest_first_perm l : sorted_newest_first l ≡ₚ l.
Proof.
  induction l as [|x l IH]; [done|]. cbn [sorted_newest_first fold_right].
  fold (sorted_newest_first l). by rewrite insert_newest_perm, IH.
Qed.

(** A list sorted newest first. *)
Fixpoint newest_first (l : list (Q * string)) : Prop :=
  match l with
  | [] => True
  | x :: rest => Forall (not_newer x) rest /\ newest_first rest
  end.

Lemma insert_newest_sorted x l :
  newest_first l -> newest_first (insert_newest x l).
Proof.
  induction l as [|y rest IH]; cbn [insert_newest newest_first].
  - by split.
  - intros [Hy Hrest]. destruct (Qle_bool y.1 x.1) eqn:Hle.
    + apply Qle_bool_iff in Hle. cbn [newest_first]. split; [|by split].
      constructor; [done|].
      eapply Forall_impl; [exact Hy|]. intros z Hz. unfold not_newer in *.
      by eapply Qle_trans.
    + assert (Hlt : (x.1 < y.1)%Q).
      { apply Qnot_le_lt. intros H. apply Qle_bool_iff in H. congruence. }
      cbn [newest_first]. split; [|by apply IH].
      rewrite insert_newest_perm. constructor; [|done].
      by apply Qlt_le_weak.
Qed.

Lemma sorted_newest_first_sorted l : newest_first (sorted_newest_first l).
Proof.
  induction l as [|x l IH]; [done|].
  cbn [sorted_newest_first fold_right]. by apply insert_newest_sorted.
Qed.

Lemma sorted_app_inv (l1 l2 : list (Q * string)) x y :
  newest_first (l1 ++ l2) -> x ∈ l1 -> y ∈ l2 -> not_newer x y.
Proof.
  induction l1 as [|z l1 IH]; [by intros _ ?%elem_of_nil|].
  cbn [app newest_first]. intros [Hz Hs] Hx Hy.
  apply elem_of_cons in Hx as [->|Hx]; [|by apply IH].
  rewrite Forall_forall in Hz. apply Hz. apply elem_of_app. by right.
Qed.

Lemma stat_all paths keyed :
  mapM (fun path => mtime ← st_mtime fs path; Ok (mtime, path)) paths
  = Ok keyed ->
  map snd keyed = paths
  /\ Forall (fun kp => st_mtime fs kp.2 = Ok kp.1) keyed.
Proof.
  revert keyed. induction paths as [|p paths IH]; intros keyed.
  - intros [= <-]. by split.
  - cbn [mapM]. unfold mbind at 1, result_bind at 1.
    destruct (st_mtime fs p) as [q|e] eqn:Hq; cbn; [|done].
    unfold mbind, result_bind.
    destruct (mapM _ paths) as [ks|e]; [|done].
    intros [= <-]. destruct (IH ks eq_refl) as [Hm Hall].
    split; [cbn; by rewrite Hm|]. by constructor.
Qed.

Lemma stat_all_ok paths :
  (forall p, p ∈ paths -> exists mtime, st_mtime fs p = Ok mtime) ->
  exists keyed,
    mapM (fun path => mtime ← st_mtime fs path; Ok (mtime, path)) paths
    = Ok keyed.
Proof.
  induction paths as [|p ps IH]; intros Hstat; [by eexists|].
  cbn [mapM]. unfold mbind at 1, result_bind at 1.
  destruct (Hstat p) as [q ->]; [by left|]. cbn.
  destruct IH as [ks ->]; [intros p' Hp'; apply Hstat; by right|].
  by eexists.
Qed.

Lemma stat_fails paths p e :
  p ∈ paths -> st_mtime fs p = Raise e ->
  exists e', mapM (fun path => mtime ← st_mtime fs path; Ok (mtime, path))
               paths = Raise e'.
Proof.
  induction paths as [|x paths IH]; [by intros ?%elem_of_nil|].
  intros Hin Hp. cbn [mapM]. unfold mbind at 1, result_bind at 1.
  destruct (st_mtime fs x) as [q|e0] eqn:Hq; cbn; [|by eexists].
  apply elem_of_cons in Hin as [->|Hin]; [congruence|].
  destruct (IH Hin Hp) as [e' ->]. by eexists.
Qed.

(** The file at [path] can be deleted. *)
Definition unlinks (path : string) : bool :=
  match unlink fs path with Ok _ => true | Raise _ => false end.

Lemma unlink_all_spec old :
  (unlink_all fs old).2 = old
  /\ (unlink_all fs old).1
     = length (filter (fun p => unlinks p = true) old).
Proof.
  induction old as [|p old [IH1 IH2]]; [done|]. cbn [unlink_all].
  destruct (unlink_all fs old) as [n called]. cbn [fst snd] in *.
  rewrite filter_cons.
  assert (Hu : unlinks p = match unlink fs p with
                           | Ok _ => true
                           | Raise _ => false
                           end) by done.
  destruct (unlink fs p) as [u|e]; cbn [fst snd].
  - rewrite decide_True by done. cbn. by rewrite IH1, IH2.
  - rewrite decide_False by (by rewrite Hu). by rewrite IH1, IH2.
Qed.

(** X24: the cleanup of old backups. When every backup of the device
    can be examined and [keep_count] is not negative, the files handed
    to [unlink] are all but the [keep_count] first ones of the backups
    sorted newest first: together with the files kept they are the
    backups listed, no file kept is older than a file handed to
    [unlink], and the count returned is the number of files whose
    [unlink] succeeded. When a backup cannot be examined the cleanup
    raises. With an empty device address the backups of every device are
    listed. *)
Theorem cleanup_keeps_newest (device_ip : string) (keep_count : Z) :
  (0 <= keep_count)%Z ->
  let backups := list_backups fs (Some device_ip) in
  ((forall p, p ∈ backups -> exists mtime, st_mtime fs p = Ok mtime) ->
   exists deleted_count deleted kept,
     cleanup_old_backups fs device_ip keep_count = Ok (deleted_count, deleted)
     /\ kept ++ deleted ≡ₚ backups
     /\ length kept = Nat.min (Z.to_nat keep_count) (length backups)
     /\ deleted_count
        = length (filter (fun p => unlinks p = true) deleted)
     /\ deleted_count <= length deleted
     /\ forall k d mk md,
          k ∈ kept -> d ∈ deleted ->
          st_mtime fs k = Ok mk -> st_mtime fs d = Ok md -> (md <= mk)%Q)
  /\ ((exists p e, p ∈ backups /\ st_mtime fs p = Raise e) ->
      exists e, cleanup_old_backups fs device_ip keep_count = Raise e)
  /\ list_backups fs (Some "") = list_backups fs None.
Proof.
  intros Hk backups. split; [|split; [|done]].
  - intros Hstat. unfold cleanup_old_backups. fold backups.
    destruct (stat_all_ok backups Hstat) as [keyed Hm]. rewrite Hm.
    destruct (stat_all backups keyed Hm) as [Hpaths Hkeys].
    unfold mbind, result_bind.
    set (sorted := sorted_newest_first keyed).
    unfold slice_from.
    assert ((keep_count <? 0)%Z = false) as -> by (apply Z.ltb_ge; lia).
    set (n := Z.to_nat keep_count).
    destruct (unlink_all_spec (List.skipn n (map snd sorted))) as [Hc Hn].
    destruct (unlink_all fs (List.skipn n (map snd sorted)))
      as [deleted_count deleted].
    cbn [fst snd] in Hc, Hn. subst deleted.
    exists deleted_count, (List.skipn n (map snd sorted)),
      (List.firstn n (map snd sorted)).
    assert (Hperm : map snd sorted ≡ₚ backups).
    { unfold sorted. by rewrite sorted_newest_first_perm, Hpaths. }
    split; [done|]. split; [by rewrite firstn_skipn|].
    split.
    { rewrite length_firstn. by rewrite Hperm. }
    split; [done|]. split.
    { rewrite Hn. apply length_filter. }
    intros k d mk md Hkin Hdin Hmk Hmd.
    rewrite firstn_map in Hkin. rewrite skipn_map in Hdin.
    apply list_elem_of_fmap in Hkin as ([qk k'] & -> & Hkin).
    apply list_elem_of_fmap in Hdin as ([qd d'] & -> & Hdin).
    cbn [snd] in *.
    assert (Hsorted : newest_first
                        (List.firstn n sorted ++ List.skipn n sorted)).
    { rewrite firstn_skipn. apply sorted_newest_first_sorted. }
    pose proof (sorted_app_inv _ _ _ _ Hsorted Hkin Hdin) as Hle.
    unfold not_newer in Hle. cbn [fst] in Hle.
    assert (Hin : forall kp, kp ∈ sorted -> st_mtime fs kp.2 = Ok kp.1).
    { intros kp Hkp. unfold sorted in Hkp.
      rewrite sorted_newest_first_perm in Hkp.
      rewrite Forall_forall in Hkeys. by apply Hkeys. }
    assert (Hk1 : (qk, k') ∈ sorted).
    { rewrite <- (firstn_skipn n sorted). apply elem_of_app. by left. }
    assert (Hd1 : (qd, d') ∈ sorted).
    { rewrite <- (firstn_skipn n sorted). apply elem_of_app. by right. }
    pose proof (Hin (qk, k') Hk1) as H1.
    pose proof (Hin (qd, d') Hd1) as H2.
    cbn [fst snd] in H1, H2. rewrite Hmk in H1. rewrite Hmd in H2.
    injection H1 as ->. injection H2 as ->. done.
  - intros (p & e & Hp & He). unfold cleanup_old_backups. fold backups.
    destruct (stat_fails backups p e Hp He) as [e' ->]. by eexists.
Qed.

End Cleanup.

(** X24: of three backups written at the times 1, 3 and 2, keeping two
    deletes the one written at the time 1. *)
Lemma cleanup_keeps_newest_witness :
  exists kept : list string,
    Utils.Backups.cleanup_old_backups backup_dir "10.0.0.1" 2
    = Ok (1, ["10.0.0.1_a.conf"])
    /\ length kept = 2.
Proof.
  destruct (cleanup_keeps_newest backup_dir "10.0.0.1" 2 ltac:(lia))
    as [H _].
  destruct H as (n & deleted & kept & H1 & _ & H3 & _).
  { intros p Hp. by eexists. }
  exists kept. split; [by vm_compute|exact H3].
Defined.

(** ** [ProgressTracker] *)

Section Tracking.
Import Utils.ProgressTracker.

(** A call of a method of a tracker; [now] is what [time.time()] gives
    during the call. *)
Inductive tracker_call : Type :=
| StartOperation (now : Q) (operation_id description : string)
    (total_steps : Z)
| UpdateProgress (operation_id : string) (steps : Z)
| CompleteOperation (now : Q) (operation_id status : string).

Definition tracker_step (self : tracker) (c : tracker_call) : tracker :=
  match c with
  | StartOperation now operation_id description total_steps =>
      start_operation self now operation_id description total_steps
  | UpdateProgress operation_id steps =>
      update_progress self operation_id steps
  | CompleteOperation now operation_id status =>
      complete_operation self now operation_id status
  end.

(** The operations started by a list of calls, and the times of the
    starts. *)
Definition started (calls : list tracker_call) : list (string * Q) :=
  omap (fun c => match c with
                 | StartOperation now operation_id _ _ =>
                     Some (operation_id, now)
                 | _ => None
                 end) calls.

Lemma tracker_step_dom self c :
  dom (operations (tracker_step self c))
  = dom (operations self) ∪ list_to_set (started [c]).*1.
Proof.
  destruct c as [now id desc total|id steps|now id status]; cbn.
  - rewrite dom_insert_L. set_solver.
  - unfold update_progress.
    destruct (operations self !! id) as [op|] eqn:E; cbn; [|set_solver].
    rewrite dom_insert_L. apply (elem_of_dom_2 (D := gset string)) in E.
    set_solver.
  - unfold complete_operation.
    destruct (operations self !! id) as [op|] eqn:E; cbn; [|set_solver].
    rewrite dom_insert_L. apply (elem_of_dom_2 (D := gset string)) in E.
    set_solver.
Qed.

Lemma tracker_step_time self c :
  tracker_start_time (tracker_step self c)
  = match tracker_start_time self with
    | Some t => Some t
    | None => head (started [c]).*2
    end.
Proof.
  destruct c as [now id desc total|id steps|now id status]; cbn.
  - by destruct (tracker_start_time self).
  - unfold update_progress.
    destruct (operations self !! id); cbn;
      by destruct (tracker_start_time self).
  - unfold complete_operation.
    destruct (operations self !! id); cbn;
      by destruct (tracker_start_time self).
Qed.

Lemma started_cons c calls : started (c :: calls) = started [c] ++ started calls.
Proof. unfold started. cbn. by destruct c. Qed.

Lemma tracker_run calls self :
  let final := fold_left tracker_step calls self in
  dom (operations final)
  = dom (operations self) ∪ list_to_set (started calls).*1
  /\ tracker_start_time final
     = match tracker_start_time self with
       | Some t => Some t
       | None => head (started calls).*2
       end.
Proof.
  revert self. induction calls as [|c calls IH]; intros self.
  - cbn. split; [set_solver|by destruct (tracker_start_time self)].
  - cbn [fold_left]. destruct (IH (tracker_step self c)) as [Hd Ht].
    cbn zeta. rewrite Hd, Ht, tracker_step_dom, tracker_step_time.
    rewrite (started_cons c calls), !fmap_app, list_to_set_app_L.
    split; [set_solver|].
    destruct (tracker_start_time self); [done|].
    by destruct (started [c]) as [|[id t] l].
Qed.

(** X25: the state of a tracker after any list of calls of its methods,
    from a new tracker. The operations tracked are the operations
    started, so [total_operations] is the number of distinct operation
    ids started: updating or completing an operation that was not
    started adds nothing. The start time of the tracker is the time of
    the first start and never changes. The completed operations are at
    most the tracked ones. *)
Theorem tracker_invariants (calls : list tracker_call) :
  let final := fold_left tracker_step calls new in
  let ids : gset string := list_to_set (started calls).*1 in
  dom (operations final) = ids
  /\ (get_overall_progress final).1 = size ids
  /\ (get_overall_progress final).2 <= (get_overall_progress final).1
  /\ tracker_start_time final = head (started calls).*2
  /\ (forall operation_id steps now status,
        operation_id ∉ ids ->
        update_progress final operation_id steps = final
        /\ complete_operation final now operation_id status = final).
Proof.
  intros final ids. destruct (tracker_run calls new) as [Hd Ht].
  fold final in Hd, Ht. cbn in Hd, Ht. rewrite dom_empty_L in Hd.
  rewrite (left_id_L ∅ (∪)) in Hd. fold ids in Hd.
  split; [done|]. split; [|split; [|split; [done|]]].
  - unfold get_overall_progress. cbn [fst]. by rewrite <- Hd, size_dom.
  - unfold get_overall_progress. cbn [fst snd].
    rewrite <- (length_map_to_list (operations final)). apply length_filter.
  - intros id steps now status Hid. rewrite <- Hd in Hid.
    apply not_elem_of_dom in Hid.
    unfold update_progress, complete_operation. by rewrite Hid.
Qed.

End Tracking.

(** ** The summary of a run *)

Lemma filter_all_length {A} (P : A -> Prop) `{forall x, Decision (P x)}
    (l : list A) :
  length (filter P l) = length l <-> Forall P l.
Proof.
  induction l as [|x l IH]; [by split|]. rewrite filter_cons.
  pose proof (length_filter P l) as Hle.
  destruct (decide (P x)) as [Hx|Hx]; cbn [length].
  - rewrite Forall_cons. split.
    + intros [= Hl]. split; [done|by apply IH].
    + intros [_ Hl]. f_equal. by apply IH.
  - split; [lia|]. intros Hall. by inversion Hall.
Qed.

(** X26: the summary shown after the push pool. The number of devices
    that succeeded is at most the number of devices in the results, and
    "All n devices completed successfully!" is shown, that is, both
    numbers are equal, exactly when [all(success ...)] holds, which is
    what [execute] returns; for the results of a push pool the number of
    devices is the number of distinct addresses of the group. *)
Theorem final_results_summary (results : gmap string (bool * string)) :
  let success_count := (_display_final_results results).1 in
  let total_devices := (_display_final_results results).2 in
  success_count <= total_devices
  /\ (success_count = total_devices <->
      forallb (fun r : string * (bool * string) => r.2.1)
        (map_to_list results) = true)
  /\ (forall net devices config_content operation backup,
        results = push_results net devices config_content operation backup ->
        total_devices = size (list_to_set devices : gset string)).
Proof.
  unfold _display_final_results. cbn [fst snd].
  rewrite <- (length_map_to_list results). split; [apply length_filter|].
  split.
  - rewrite filter_all_length, forallb_iff, Forall_forall. done.
  - intros net devices config_content operation backup ->.
    rewrite length_map_to_list, <- size_dom. f_equal.
    apply set_eq. intros d. rewrite elem_of_dom, push_results_lookup.
    rewrite elem_of_list_to_set.
    destruct (decide (d ∈ devices)); [by split; [|eexists]|].
    split; [by intros [? ?]|done].
Qed.

(** ** The command line *)

Section CommandLine.
Variable net : string -> device.
Variable ratio : string -> string -> Q.
Variable set_order : gset string -> list string.

Lemma execute_true_inv self group config_file operation parallel backup log :
  operation <> Compare ->
  (execute net ratio set_order self group config_file operation false
     parallel backup log).1 = Ok true ->
  exists devices config_content,
    _validate_group self group = Ok devices
    /\ validate_and_clean_config config_file = Ok config_content
    /\ (forall d, d ∈ devices ->
          push_succeeds (net d) config_content operation backup)
    /\ exists before,
         (execute net ratio set_order self group config_file operation false
            parallel backup log).2
         = before ++ push_tasks net devices config_content operation backup.
Proof.
  intros Hop. destruct (_validate_group self group) as [devices|e] eqn:Hg.
  2:{ by rewrite (execute_invalid_group _ _ _ _ _ _ _ _ _ _ e log Hg). }
  destruct (validate_and_clean_config config_file) as [config_content|e]
    eqn:Hc.
  2:{ unfold execute, catch, lift, mbind, prog_bind. rewrite Hg.
      replace (operation_eqb operation Compare) with false
        by (by destruct operation).
      by rewrite Hc. }
  rewrite (execute_run net ratio set_order self group config_file operation
             parallel backup devices config_content log Hop Hg Hc).
  destruct (negb (forallb _ devices)); [done|].
  destruct (negb (operation_eqb operation Rollback) && existsb _ devices);
    [done|].
  cbn [fst snd]. intros [= Hall]. exists devices, config_content.
  split; [done|]. split; [done|]. split.
  - intros d Hd. apply (push_true _ _ _ _ []), outcome_true.
    exact (proj1 (push_results_all net devices config_content operation
                    backup) Hall d Hd).
  - eexists. by rewrite !app_assoc.
Qed.

(** X27: the exit status of the command. It is 0 or 1; it is 0 exactly
    when the tool could be built from [config.ini] and [execute]
    returned true; when [config.ini] cannot be loaded it is 1 and no
    device is contacted. An exit status 0 of a run that is not a dry run,
    for an operation other than the comparison, means that on every
    device of the group the push succeeded: the session opened, the text
    was loaded and the check passed or the commit went through; and the
    push of each device is in the log. *)
Theorem main_exit_status (group : string) (config_file : config_path)
    (operation : operation) (config_ini : string) (config : ini)
    (dry_run verbose parallel backup : bool) (timeout : nat)
    (log : list event) :
  let r := Cli.main net ratio set_order group config_file operation
             config_ini config dry_run verbose parallel backup timeout log in
  (r.1 = 0 \/ r.1 = 1)
  /\ (r.1 = 0 <->
      exists tool,
        __init__ config_ini config timeout verbose = Ok tool
        /\ (execute net ratio set_order tool group config_file operation
              dry_run parallel backup log).1 = Ok true)
  /\ (forall e, __init__ config_ini config timeout verbose = Raise e ->
        r = (1, log))
  /\ (r.1 = 0 -> dry_run = false -> operation <> Compare ->
      exists tool devices config_content,
        __init__ config_ini config timeout verbose = Ok tool
        /\ _validate_group tool group = Ok devices
        /\ validate_and_clean_config config_file = Ok config_content
        /\ forall d, d ∈ devices ->
             push_succeeds (net d) config_content operation backup
             /\ Task Push d
                  (_push_config_to_device (net d) config_content operation
                     backup []).2 ∈ r.2).
Proof.
  intros r. subst r. unfold Cli.main.
  destruct (__init__ config_ini config timeout verbose) as [tool|e] eqn:Hi.
  2:{ cbn. split; [by right|]. split; [|split; [done|done]].
      split; [done|]. by intros (? & ? & _). }
  destruct (execute net ratio set_order tool group config_file operation
              dry_run parallel backup log) as [[[|]|e] log'] eqn:He;
    cbn [fst snd].
  - split; [by left|]. split; [|split; [done|]].
    + split; [|done]. intros _. exists tool. by rewrite He.
    + intros _ -> Hop.
      destruct (execute_true_inv tool group config_file operation parallel
                  backup log Hop) as (devices & c & Hg & Hc & Hpush & Hlog).
      { by rewrite He. }
      rewrite He in Hlog. cbn [snd] in Hlog. destruct Hlog as [before ->].
      exists tool, devices, c. split; [done|]. split; [done|].
      split; [done|]. intros d Hd. split; [by apply Hpush|].
      apply elem_of_app. right. unfold push_tasks.
      apply list_elem_of_fmap. by exists d.
  - split; [by right|]. split; [|split; [done|done]].
    split; [done|]. intros (t & [= <-] & Ht). rewrite He in Ht. done.
  - split; [by right|]. split; [|split; [done|done]].
    split; [done|]. intros (t & [= <-] & Ht). rewrite He in Ht. done.
Qed.

End CommandLine.

(** X27: a commit on the clean sample network exits with 0. *)
Lemma main_exit_status_witness :
  exists tool devices config_content,
    __init__ "config.ini" config_ini 60 false = Ok tool
    /\ _validate_group tool "core" = Ok devices
    /\ validate_and_clean_config (Content ntp) = Ok config_content
    /\ forall d, d ∈ devices ->
         push_succeeds (net_clean d) config_content Commit false
         /\ Task Push d
              (_push_config_to_device (net_clean d) config_content Commit
                 false []).2
            ∈ (Cli.main net_clean lcs_ratio elements "core" (Content ntp)
                 Commit "config.ini" config_ini false false false false 60
                 []).2.
Proof.
  destruct (main_exit_status net_clean lcs_ratio elements "core"
              (Content ntp) Commit "config.ini" config_ini false false false
              false 60 []) as (_ & _ & _ & H).
  apply H; [by vm_compute|done|discriminate].
Defined.

(** ** The analysis of the existing configuration is advisory *)

(** Two devices that answer every call alike, but for the reading of
    the active configuration and the writing of a backup. *)
Definition same_but_active (dev dev' : device) : Prop :=
  tcp_open dev = tcp_open dev'
  /\ open_session dev = open_session dev'
  /\ facts_refresh dev = facts_refresh dev'
  /\ get_config dev Candidate = get_config dev' Candidate
  /\ get_config dev Committed = get_config dev' Committed
  /\ enter_config dev = enter_config dev'
  /\ (forall text, load dev text = load dev' text)
  /\ commit_check dev = commit_check dev'
  /\ (forall confirm, commit dev confirm = commit dev' confirm).

Lemma same_test_connection dev dev' log :
  same_but_active dev dev' ->
  Utils.test_connection dev log = Utils.test_connection dev' log.
Proof.
  intros (H1 & H2 & H3 & _). unfold Utils.test_connection, with_device.
  by rewrite H1, H2, H3.
Qed.

Lemma same_check_pending dev dev' log :
  same_but_active dev dev' ->
  _check_pending_config dev log = _check_pending_config dev' log.
Proof.
  intros (_ & H2 & _ & H4 & H5 & _).
  unfold _check_pending_config, with_device. by rewrite H2, H4, H5.
Qed.

Lemma same_push dev dev' config_content operation log :
  same_but_active dev dev' ->
  _push_config_to_device dev config_content operation false log
  = _push_config_to_device dev' config_content operation false log.
Proof.
  intros (_ & H2 & _ & _ & _ & H6 & H7 & H8 & H9).
  unfold _push_config_to_device, push_locked, with_device, with_config.
  destruct (_convert_set_to_delete config_content) as [delete_config skipped].
  rewrite H2, H6, H8, (H7 config_content), (H7 delete_config),
    (H9 None), (H9 (Some 5)). done.
Qed.

Lemma forallb_pointwise {A} (f g : A -> bool) l :
  (forall x, f x = g x) -> forallb f l = forallb g l.
Proof. intros H. induction l as [|x l IH]; [done|]. simpl. by rewrite H, IH. Qed.

Lemma existsb_pointwise {A} (f g : A -> bool) l :
  (forall x, f x = g x) -> existsb f l = existsb g l.
Proof. intros H. induction l as [|x l IH]; [done|]. simpl. by rewrite H, IH. Qed.

(** X28: the analysis of the existing configuration is advisory.
    [_evaluate_config_status] returns true for every status and every
    operation, so it never stops a run; and the verdict of a run without
    backup, for an operation other than the comparison, does not depend
    on what the devices answer for their active configuration: two
    networks whose devices answer every other call alike give the same
    verdict. *)
Theorem existing_configuration_advisory (net net' : string -> device)
    (ratio : string -> string -> Q) (set_order : gset string -> list string)
    (self : JunosPushTool) (group : string) (config_file : config_path)
    (operation : operation) (dry_run parallel : bool) (log : list event) :
  (forall d, same_but_active (net d) (net' d)) ->
  operation <> Compare ->
  (forall status, _evaluate_config_status status operation = true)
  /\ (execute net ratio set_order self group config_file operation dry_run
        parallel false log).1
     = (execute net' ratio set_order self group config_file operation dry_run
          parallel false log).1.
Proof.
  intros Hsame Hop. split; [intros; apply evaluate_config_status_true|].
  destruct (_validate_group self group) as [devices|e] eqn:Hg.
  2:{ by rewrite !(execute_invalid_group _ _ _ _ _ _ _ _ _ _ e log Hg). }
  destruct (validate_and_clean_config config_file) as [config_content|e]
    eqn:Hc.
  2:{ unfold execute, catch, lift, mbind, prog_bind. rewrite Hg.
      replace (operation_eqb operation Compare) with false
        by (by destruct operation).
      by rewrite Hc. }
  destruct dry_run.
  { unfold execute, catch, lift, mbind, prog_bind. rewrite Hg.
    replace (operation_eqb operation Compare) with false
      by (by destruct operation).
    by rewrite Hc. }
  rewrite !(execute_run _ ratio set_order self group config_file operation
              parallel false devices config_content log Hop Hg Hc).
  rewrite (forallb_pointwise
             (fun d => flag (Utils.test_connection (net d) []).1)
             (fun d => flag (Utils.test_connection (net' d) []).1))
    by (intros d; by rewrite (same_test_connection _ _ [] (Hsame d))).
  rewrite (existsb_pointwise
             (fun d => flag (_check_pending_config (net d) []).1)
             (fun d => flag (_check_pending_config (net' d) []).1))
    by (intros d; by rewrite (same_check_pending _ _ [] (Hsame d))).
  assert (Hres : push_results net devices config_content operation false
                 = push_results net' devices config_content operation false).
  { unfold push_results. f_equal. f_equal. apply map_ext. intros d.
    unfold outcome. by rewrite (same_push _ _ _ _ [] (Hsame d)). }
  rewrite Hres. by repeat case_match.
Qed.

Lemma silent_same (d : string) : same_but_active (net_clean d) (net_silent d).
Proof.
  unfold net_clean, net_silent. destruct (String.eqb d "10.0.0.1");
    by repeat split.
Defined.

(** X28: the routers that answer an empty active configuration. *)
Lemma existing_configuration_advisory_witness :
  (execute net_clean lcs_ratio elements tool "core" (Content ntp) Commit
     false false false []).1
  = (execute net_silent lcs_ratio elements tool "core" (Content ntp) Commit
       false false false []).1.
Proof.
  destruct (existing_configuration_advisory net_clean net_silent lcs_ratio
              elements tool "core" (Content ntp) Commit false false []
              silent_same ltac:(discriminate)) as [_ H].
  exact H.
Defined.

(** ** Only a push changes a device *)

(** An entry of the log without a call that changes a device. *)
Definition quiet (e : event) : Prop :=
  match e with
  | Task _ _ calls => Forall (fun c => mutating c = false) calls
  | Report _ => True
  end.

Lemma test_connection_quiet dev :
  Forall (fun c => mutating c = false) (Utils.test_connection dev []).2.
Proof.
  unfold Utils.test_connection. run_session.
  destruct (tcp_open dev); simpl; [|by repeat constructor].
  destruct (open_session dev) as [[]|e]; simpl; [|by repeat constructor].
  destruct (facts_refresh dev) as [[]|e]; simpl; by repeat constructor.
Qed.

Lemma check_pending_quiet dev :
  Forall (fun c => mutating c = false) (_check_pending_config dev []).2.
Proof.
  unfold _check_pending_config. run_session.
  destruct (open_session dev) as [[]|e]; simpl; [|by repeat constructor].
  destruct (get_config dev Candidate) as [[c|]|?]; simpl;
    [destruct (get_config dev Committed) as [[m|]|?]; simpl|..];
    try (destruct (nonnil (splitlines c) && nonnil (splitlines m)); simpl;
         [case_bool_decide; simpl|]);
    by repeat constructor.
Qed.

Lemma check_existing_quiet set_order config_content dev :
  Forall (fun c => mutating c = false)
    (_check_existing_config set_order config_content dev []).2.
Proof.
  unfold _check_existing_config. run_session.
  destruct (open_session dev) as [[]|e]; simpl; [|by repeat constructor].
  destruct (get_config dev Active) as [?|?]; simpl; by repeat constructor.
Qed.

Lemma get_device_config_quiet self dev :
  Forall (fun c => mutating c = false) (get_device_config self dev []).2.
Proof.
  unfold get_device_config. run_session.
  destruct (open_session dev) as [[]|e]; simpl; [|by repeat constructor].
  destruct (get_config dev Active) as [[t|]|?]; simpl; by repeat constructor.
Qed.

Lemma validate_group_pair self group devices :
  _validate_group self group = Ok devices ->
  exists d1 d2, devices = [d1; d2].
Proof.
  unfold _validate_group.
  destruct (device_groups self !! group) as [members|]; [|done].
  cbn zeta. destruct (length (map snd members) =? 2) eqn:E; [|done].
  cbn. intros [= <-]. apply Nat.eqb_eq in E.
  destruct (map snd members) as [|d1 [|d2 [|d3 l]]]; try done.
  by eexists _, _.
Qed.

Section Safety.
Variable net : string -> device.
Variable ratio : string -> string -> Q.
Variable set_order : gset string -> list string.

Lemma compare_device_configs_eq self d1 d2 log :
  exists report,
    _compare_device_configs net ratio set_order self [d1; d2] log
    = (Ok (negb (is_error (retrieved self (net d1))
                 || is_error (retrieved self (net d2)))),
       log
       ++ [Task Comparison d1 (get_device_config self (net d1) []).2;
           Task Comparison d2 (get_device_config self (net d2) []).2]
       ++ report)
    /\ Forall quiet report.
Proof.
  unfold _compare_device_configs, catch, mbind at 1, prog_bind at 1.
  rewrite (for_each_total net Comparison [d1; d2] (get_device_config self)
             (retrieved self))
    by (intros d; apply get_device_config_total).
  cbn [map existsb]. rewrite orb_false_r.
  destruct (is_error _ || is_error _); cbn [negb].
  - exists []. unfold mret, prog_ret. by rewrite app_nil_r.
  - eexists [_]. unfold mbind, prog_bind, call_out, mret, prog_ret.
    rewrite <- app_assoc. split; [done|]. by repeat constructor.
Qed.

Lemma quiet_pools devices config_content :
  Forall quiet (connectivity_tasks net devices)
  /\ Forall quiet (status_tasks net set_order devices config_content)
  /\ Forall quiet (pending_tasks net devices).
Proof.
  unfold connectivity_tasks, status_tasks, pending_tasks.
  rewrite !Forall_fmap. split; [|split]; apply Forall_forall; intros d _; cbn.
  - apply test_connection_quiet.
  - apply check_existing_quiet.
  - apply check_pending_quiet.
Qed.

Lemma quiet_task st d calls c l :
  Forall quiet l -> Task st d calls ∈ l -> c ∈ calls -> mutating c = false.
Proof.
  intros Hq Hin Hc. rewrite Forall_forall in Hq. specialize (Hq _ Hin).
  cbn in Hq. rewrite Forall_forall in Hq. by apply Hq.
Qed.

(** X29: only a push changes a device, and only with validated text.
    In the log of any run, a call that changes a device (entering the
    private configuration, a load, a commit check or a commit) is made
    by a push task on a device of the group, in a run that is not a dry
    run and not a comparison; and the text of every load is the cleaned
    document that passed the validation, or for a rollback its
    conversion. The connection tests, the check of the existing
    configuration, the pending checks and the retrievals of a comparison
    only read. *)
Theorem only_push_changes_devices (self : JunosPushTool) (group : string)
    (config_file : config_path) (operation : operation)
    (dry_run parallel backup : bool) (log : list event) :
  exists added,
    (execute net ratio set_order self group config_file operation dry_run
       parallel backup log).2 = log ++ added
    /\ forall st d calls c,
         Task st d calls ∈ added -> c ∈ calls -> mutating c = true ->
         st = Push /\ operation <> Compare /\ dry_run = false
         /\ (exists devices,
               _validate_group self group = Ok devices /\ d ∈ devices)
         /\ forall text, c = CfgLoad text ->
              exists content,
                validate_and_clean_config config_file = Ok content
                /\ text = loaded_text content operation.
Proof.
  assert (Hnone : forall l, Forall quiet l ->
            forall st d calls c,
              Task st d calls ∈ l -> c ∈ calls -> mutating c = true ->
              st = Push /\ operation <> Compare /\ dry_run = false
              /\ (exists devices,
                    _validate_group self group = Ok devices /\ d ∈ devices)
              /\ forall text, c = CfgLoad text ->
                   exists content,
                     validate_and_clean_config config_file = Ok content
                     /\ text = loaded_text content operation).
  { intros l Hq st d calls c Hin Hc Hm.
    rewrite (quiet_task st d calls c l Hq Hin Hc) in Hm. done. }
  destruct (_validate_group self group) as [devices|e] eqn:Hg.
  2:{ exists []. rewrite (execute_invalid_group _ _ _ _ _ _ _ _ _ _ e log Hg).
      split; [by rewrite app_nil_r|]. by apply Hnone. }
  assert (Hcases : operation = Compare \/ operation <> Compare)
    by (destruct operation; auto; right; discriminate).
  destruct Hcases as [->|Hop].
  - unfold execute, catch, lift, mbind at 1, prog_bind at 1. rewrite Hg.
    cbn [operation_eqb]. destruct dry_run.
    { exists []. split; [by rewrite app_nil_r|]. by apply Hnone. }
    unfold mbind at 1, prog_bind at 1. rewrite test_connectivity_eq.
    fold (connectivity_tasks net devices).
    destruct (quiet_pools devices "") as (Hq1 & _ & _).
    destruct (forallb _ devices); cbn [negb].
    2:{ exists (connectivity_tasks net devices). split; [done|].
        by apply Hnone. }
    destruct (validate_group_pair self group devices Hg) as (d1 & d2 & ->).
    destruct (compare_device_configs_eq self d1 d2
                (log ++ connectivity_tasks net [d1; d2]))
      as (report & -> & Hr).
    eexists. split; [by rewrite <- app_assoc|]. apply Hnone.
    apply Forall_app. split; [done|]. apply Forall_app. split; [|done].
    repeat constructor; apply get_device_config_quiet.
  - destruct (validate_and_clean_config config_file) as [config_content|e]
      eqn:Hc.
    2:{ exists []. unfold execute, catch, lift, mbind, prog_bind. rewrite Hg.
        replace (operation_eqb operation Compare) with false
          by (by destruct operation).
        rewrite Hc. split; [by rewrite app_nil_r|]. by apply Hnone. }
    destruct dry_run.
    { exists []. unfold execute, catch, lift, mbind, prog_bind. rewrite Hg.
      replace (operation_eqb operation Compare) with false
        by (by destruct operation).
      rewrite Hc. split; [by rewrite app_nil_r|]. by apply Hnone. }
    rewrite (execute_run net ratio set_order self group config_file
               operation parallel backup devices config_content log Hop Hg Hc).
    destruct (quiet_pools devices config_content) as (Hq1 & Hq2 & Hq3).
    destruct (negb (forallb _ devices)).
    { eexists. split; [done|]. by apply Hnone. }
    destruct (negb (operation_eqb operation Rollback) && existsb _ devices).
    { eexists. split; [done|]. apply Hnone. by repeat (apply Forall_app; split). }
    eexists. split; [done|]. intros st d calls c Hin Hcall Hm.
    rewrite !app_assoc in Hin. apply elem_of_app in Hin as [Hin|Hin].
    + revert st d calls c Hin Hcall Hm. apply Hnone.
      repeat (apply Forall_app; split); try done.
      by destruct (operation_eqb operation Rollback).
    + unfold push_tasks in Hin.
      apply list_elem_of_fmap in Hin as (d' & [= -> -> ->] & Hd).
      split; [done|]. split; [done|]. split; [done|].
      split; [by exists devices|]. intros text ->.
      exists config_content. split; [done|].
      apply push_calls_in in Hcall.
      destruct Hcall as [?|[?|[?|[?|[?|(_ & _ & [?|Hl] & _)]]]]];
        try discriminate.
      apply locked_calls_in in Hl
        as [(l & ? & _)|[[[= ->] _]|(_ & _ & Hl)]]; try discriminate.
      * done.
      * destruct Hl as [[? _]|[[? _]|[[? _]|[? _]]]]; discriminate.
Qed.

End Safety.

(** ** The number of lines a rollback reports *)

Definition not_linebreak (c : ascii) : bool := negb (is_linebreak c).

Lemma splitlines_one l :
  l <> "" -> every not_linebreak l = true -> splitlines l = [l].
Proof.
  induction l as [|c r IH]; [done|]. intros _. cbn [every].
  rewrite andb_true_iff. intros [Hc Hr].
  unfold not_linebreak in Hc. apply negb_true_iff in Hc.
  cbn [splitlines]. rewrite Hc. destruct r as [|c' r']; [done|].
  assert (Hc' : is_linebreak c' = false).
  { cbn [every] in Hr. apply andb_true_iff in Hr as [Hc' _].
    by apply negb_true_iff in Hc'. }
  rewrite Hc'. by rewrite IH.
Qed.

Lemma splitlines_line l rest :
  l <> "" -> every not_linebreak l = true ->
  splitlines (l +:+ String nl rest) = l :: splitlines rest.
Proof.
  induction l as [|c r IH]; [done|]. intros _. cbn [every].
  rewrite andb_true_iff. intros [Hc Hr].
  unfold not_linebreak in Hc. apply negb_true_iff in Hc.
  rewrite append_cons. cbn [splitlines]. rewrite Hc.
  destruct r as [|c' r'].
  - rewrite append_nil. by cbn.
  - rewrite append_cons.
    assert (Hc' : is_linebreak c' = false).
    { cbn [every] in Hr. apply andb_true_iff in Hr as [Hc' _].
      by apply negb_true_iff in Hc'. }
    rewrite Hc'. rewrite <- append_cons. by rewrite IH.
Qed.

Lemma splitlines_join ls :
  Forall (fun l => l <> "" /\ every not_linebreak l = true) ls ->
  splitlines (join (String nl "") ls) = ls.
Proof.
  induction 1 as [|l ls [Hne Hl] Hls IH]; [done|].
  destruct ls as [|l' ls'].
  - by apply splitlines_one.
  - rewrite join_cons by done. rewrite append_cons, append_nil.
    by rewrite splitlines_line, IH.
Qed.

Lemma every_drop p n s : every p s = true -> every p (drop n s) = true.
Proof.
  revert s. induction n as [|n IH]; intros s; [by destruct s|].
  destruct s as [|c r]; [done|]. cbn [drop every].
  rewrite andb_true_iff. intros [_ Hr]. by apply IH.
Qed.

Lemma linebreak_space c : is_linebreak c = true -> isspace c = true.
Proof.
  unfold is_linebreak, isspace. intros H.
  apply orb_true_iff in H as [H|H].
  - apply orb_true_iff in H as [H|H].
    + apply andb_true_iff in H as [H1 H2].
      apply Nat.leb_le in H1, H2.
      assert ((9 <=? nat_of_ascii c) = true) as -> by (apply Nat.leb_le; lia).
      assert ((nat_of_ascii c <=? 13) = true) as ->
        by (by apply Nat.leb_le).
      done.
    + apply andb_true_iff in H as [H1 H2].
      apply Nat.leb_le in H1, H2.
      assert ((28 <=? nat_of_ascii c) = true) as ->
        by (by apply Nat.leb_le).
      assert ((nat_of_ascii c <=? 32) = true) as ->
        by (apply Nat.leb_le; lia).
      by rewrite orb_true_r.
  - rewrite H. by rewrite !orb_true_r.
Qed.

Lemma tidy_no_linebreak y : tidy y -> every not_linebreak y = true.
Proof.
  intros H. apply tidy_every; [done| |done].
  intros c Hc. apply andb_true_iff in Hc as [Hc _].
  unfold not_space in Hc. unfold not_linebreak.
  destruct (is_linebreak c) eqn:E; [|done].
  by rewrite (linebreak_space c E) in Hc.
Qed.

(** The converted lines of a document whose lines, once trimmed, have no
    line break. *)
Lemma convert_lines_no_linebreak lines :
  Forall (fun l => every not_linebreak (strip l) = true) lines ->
  Forall (fun l => l <> "" /\ every not_linebreak l = true)
    (convert_lines lines).1.
Proof.
  induction 1 as [|line rest Hl Hrest IH]; [constructor|].
  cbn [convert_lines]. destruct (convert_lines rest) as [delete_lines skipped].
  cbn [fst] in *. repeat case_match; cbn [fst]; try done.
  - constructor; [|done]. split; [done|].
    rewrite every_app. by rewrite every_drop.
  - constructor; [|done]. split; [done|].
    rewrite every_app. by rewrite every_drop.
Qed.

Lemma every_split_on p sep s :
  every p s = true -> Forall (fun l => every p l = true) (split_on sep s).
Proof.
  induction s as [|c r IH]; [by repeat constructor|]. cbn [every split_on].
  rewrite andb_true_iff. intros [Hc Hr]. specialize (IH Hr).
  destruct (Ascii.eqb c sep); [by constructor|].
  destruct (split_on sep r) as [|w ws]; [by repeat constructor; cbn; rewrite Hc|].
  inversion IH; subst. constructor; [|done]. cbn. by rewrite Hc.
Qed.

(** A cleaned document has no line break but the line feed. *)
Lemma cleaned_lines_no_linebreak raw :
  Forall (fun l => every not_linebreak (strip l) = true)
    (split_on nl (strip (_clean_config_content raw))).
Proof.
  assert (Hall : every (fun c => Ascii.eqb c nl || not_linebreak c)
                   (_clean_config_content raw) = true).
  { unfold _clean_config_content. apply every_join; [done|].
    eapply Forall_impl; [apply cleaned_lines_tidy|].
    intros l Hl. apply tidy_no_linebreak in Hl.
    eapply every_impl; [|exact Hl]. intros c ->. by rewrite orb_true_r. }
  apply (every_strip _ _) in Hall.
  pose proof (every_split_on _ nl _ Hall) as Hsplit.
  pose proof (split_on_no_sep nl (strip (_clean_config_content raw))) as Hnl.
  rewrite Forall_forall in Hsplit, Hnl. apply Forall_forall. intros l Hl.
  apply every_strip.
  specialize (Hsplit l Hl). specialize (Hnl l Hl).
  apply mem_every in Hnl. cbn beta in Hsplit.
  assert (Hboth : every (fun c => (Ascii.eqb c nl || not_linebreak c)
                                  && not_chr nl c) l = true)
    by (by rewrite every_and, Hsplit, Hnl).
  eapply every_impl; [|exact Hboth]. intros c Hc.
  apply andb_true_iff in Hc as [Hc1 Hc2]. unfold not_chr in Hc2.
  apply negb_true_iff in Hc2. by rewrite Hc2 in Hc1.
Qed.

(** X30: the number of lines that a rollback reports. For a cleaned
    document, which is what a run hands to the push, the converted text
    has one line for each line of the document that is converted, and a
    rollback that succeeds reports "Configuration rollback completed -
    deleted n configuration lines" with n the number of converted
    lines. *)
Theorem rollback_reports_converted_lines (raw : string) (dev : device)
    (backup : bool) :
  let config_content := _clean_config_content raw in
  let converted :=
    (convert_lines (split_on nl (strip config_content))).1 in
  splitlines (_convert_set_to_delete config_content).1 = converted
  /\ forall message,
       (_push_config_to_device dev config_content Rollback backup []).1
       = Ok (Some (true, message)) ->
       message = "Configuration rollback completed - deleted "
                 +:+ pretty (length converted) +:+ " configuration lines".
Proof.
  intros config_content converted.
  assert (Hlines : splitlines (_convert_set_to_delete config_content).1
                   = converted).
  { unfold _convert_set_to_delete, converted.
    pose proof (convert_lines_no_linebreak _
                  (cleaned_lines_no_linebreak raw)) as Hc.
    fold config_content in Hc.
    destruct (convert_lines (split_on nl (strip config_content)))
      as [delete_lines skipped].
    cbn [fst] in *. by apply splitlines_join. }
  split; [done|]. intros message.
  unfold _push_config_to_device, push_locked, catch, with_device, with_config,
    ensuring, mbind, prog_bind, call_out.
  rewrite <- Hlines.
  destruct (_convert_set_to_delete config_content) as [delete_config skipped].
  cbn [fst snd].
  destruct (open_session dev) as [[]|e]; [|by destruct e].
  destruct backup.
  - destruct (create_backup_eq dev ([] ++ [DevOpen]))
      as (b & calls & -> & _).
    destruct b; cbn [negb]; [|done].
    destruct (enter_config dev) as [[]|e]; [|by destruct e].
    rewrite warn_skipped.
    destruct (negb (nonempty (strip delete_config))); [done|].
    destruct (load dev delete_config) as [[]|e]; [|by destruct e].
    destruct (commit dev None) as [[]|e]; [|by destruct e].
    cbn. by intros [= <-].
  - destruct (enter_config dev) as [[]|e]; [|by destruct e].
    rewrite warn_skipped.
    destruct (negb (nonempty (strip delete_config))); [done|].
    destruct (load dev delete_config) as [[]|e]; [|by destruct e].
    destruct (commit dev None) as [[]|e]; [|by destruct e].
    cbn. by intros [= <-].
Qed.
